(** * The Binance connector of dehedging: order sizing, order preparation
      and the reconnecting market-data socket

    Sources embedded here:
    - [src/connectors/binance/helpers.js]: [convertMarketToBinanceMarket],
      [getBinanceSide], [calculateSizeInMarketToken];
    - the connector module that imports them: [saveConfig],
      [prepareDataToPlace], [placeNewOrder], the 24-hour reset of
      [unsupportedMarkets] and the class [BinanceWebSocket].

    Modelling conventions.
    - A JavaScript number is [NaN], an infinity or the rational a double
      is. The arithmetic of the source is that of binary64: every operation
      gives the double nearest to its exact result, ties to even, with
      overflow to an infinity and gradual underflow. The two zeros are
      identified.
    - A JavaScript value is one of the JSON shapes (plus [undefined]); the
      answers of the exchange client are such values, or rejections.
    - The module-level [Map] and [Set], the console and the history of
      requests sent through the exchange client form an explicit state that
      every operation threads; [await] on a request asks the client for its
      answer to that request after that history. One invocation runs to
      completion before the next one starts.
    - What the repository imports but does not define ([defaultLeverages],
      [mapBinanceMarkets], the client itself), the conversions of the
      JavaScript runtime on text and the powers of ten that [Math.pow] can
      only approximate are parameters. A look-up in [mapBinanceMarkets]
      finds what the table has of its own and what it inherits. *)

From Stdlib Require Import ZArith QArith Qcanon Qround Qpower.
From Stdlib Require Import Ascii String List Lia Lqa Bool.
From stdpp Require Import base decidable option list gmap strings numbers.
From stdpp Require Import pretty.

Set Warnings "-register-all,-notation-for-abbreviation".

Local Open Scope string_scope.
Local Open Scope Z_scope.

(** ** JavaScript numbers *)

Inductive number : Type :=
  | NaN
  | PosInf
  | NegInf
  | Fin (q : Qc).

Definition qz (z : Z) : Qc := Qc_of_Z z.
Definition qfrac (a : Z) (b : positive) : Qc := Q2Qc (a # b).

Definition num (z : Z) : number := Fin (qz z).

Definition Qc_ltb (x y : Qc) : bool := negb (Qle_bool y x).
Definition Qc_leb (x y : Qc) : bool := Qle_bool x y.
Definition Qc_eqb (x y : Qc) : bool := Qeq_bool x y.

(** [a < b], [a <= b], [a > b] and [a === b] on numbers: every comparison
    with [NaN] is false. *)
Definition num_lt (a b : number) : bool :=
  match a, b with
  | NaN, _ | _, NaN => false
  | _, NegInf => false
  | PosInf, _ => false
  | NegInf, _ => true
  | Fin _, PosInf => true
  | Fin x, Fin y => Qc_ltb x y
  end.

Definition num_le (a b : number) : bool :=
  match a, b with
  | NaN, _ | _, NaN => false
  | NegInf, _ => true
  | _, PosInf => true
  | _, NegInf => false
  | PosInf, _ => false
  | Fin x, Fin y => Qc_leb x y
  end.

Definition num_gt (a b : number) : bool := num_lt b a.

Definition num_eqb (a b : number) : bool :=
  match a, b with
  | PosInf, PosInf | NegInf, NegInf => true
  | Fin x, Fin y => Qc_eqb x y
  | _, _ => false
  end.

Definition isNaN (a : number) : bool :=
  match a with NaN => true | _ => false end.

(** Truthiness of a number: [0] and [NaN] are falsy. *)
Definition num_truthy (a : number) : bool :=
  match a with
  | NaN => false
  | Fin x => negb (Qc_eqb x (qz 0))
  | _ => true
  end.

Definition Qsgn (q : Qc) : Z := Z.sgn (Qnum q).

Definition inf_of_sign (s : Z) : number :=
  match s with
  | Z0 => NaN
  | Zpos _ => PosInf
  | Zneg _ => NegInf
  end.

(** [- a] *)
Definition num_neg (a : number) : number :=
  match a with
  | NaN => NaN
  | PosInf => NegInf
  | NegInf => PosInf
  | Fin x => Fin (- x)%Qc
  end.

(** *** Rounding to binary64

    A finite number of the language is a double: an integer of at most 53
    bits times a power of two between [2^-1074] and [2^971]. An arithmetic
    operation returns the double nearest to its exact result, the one with
    an even integer when two are as near, and an infinity when that exact
    result rounds to [2^1024] or beyond. *)

Definition pow2 (z : Z) : Q := (2 ^ z)%Q.

(** The integer [k] with [2^k <= x < 2^(k+1)], for [x] above 0. *)
Definition ilog2 (x : Q) : Z :=
  let k := Z.log2 (Qnum x) - Z.log2 (Zpos (Qden x)) in
  if Qle_bool (pow2 k) x then k else k - 1.

(** The nearest integer, the even one of the two when [x] is half way. *)
Definition round_half_even (x : Q) : Z :=
  let f := Qfloor x in
  match (x - inject_Z f ?= 1 # 2)%Q with
  | Lt => f
  | Gt => f + 1
  | Eq => if Z.even f then f else f + 1
  end.

(** The exponent of the binade of [x], not below that of the subnormal
    numbers. *)
Definition binade (x : Q) : Z := Z.max (ilog2 x - 52) (-1074).

(** The nearest number of the binade of [x], for [x] above 0. *)
Definition rounded (x : Q) : Q :=
  (inject_Z (round_half_even (x / pow2 (binade x))) * pow2 (binade x))%Q.

Definition round64_pos (x : Q) : number :=
  if Qle_bool (pow2 1024) (rounded x) then PosInf
  else Fin (Q2Qc (rounded x)).

Definition round64 (x : Qc) : number :=
  match (x ?= 0)%Q with
  | Eq => Fin x
  | Gt => round64_pos x
  | Lt => num_neg (round64_pos (- x))
  end.

(** [2^-53], the most that one rounding changes a number that is not
    subnormal, relative to the number; and [2^-50]. *)
Definition u53 : Q := 1 # 9007199254740992.
Definition u50 : Q := 1 # 1125899906842624.

(** [a * b] *)
Definition num_mul (a b : number) : number :=
  match a, b with
  | NaN, _ | _, NaN => NaN
  | Fin x, Fin y => round64 (x * y)%Qc
  | Fin x, PosInf | PosInf, Fin x => inf_of_sign (Qsgn x)
  | Fin x, NegInf | NegInf, Fin x => inf_of_sign (- Qsgn x)
  | PosInf, PosInf | NegInf, NegInf => PosInf
  | PosInf, NegInf | NegInf, PosInf => NegInf
  end.

(** [a / b]; a finite number over zero is an infinity of the sign of the
    numerator, and [0 / 0] is [NaN]. The zero the connector divides by is
    never the negative one. *)
Definition num_div (a b : number) : number :=
  match a, b with
  | NaN, _ | _, NaN => NaN
  | Fin x, Fin y =>
      if Qc_eqb y (qz 0) then inf_of_sign (Qsgn x) else round64 (x / y)%Qc
  | Fin _, (PosInf | NegInf) => Fin (qz 0)
  | PosInf, Fin y => if Qsgn y <? 0 then NegInf else PosInf
  | NegInf, Fin y => if Qsgn y <? 0 then PosInf else NegInf
  | _, _ => NaN
  end.

(** [a - b] *)
Definition num_sub (a b : number) : number :=
  match a, b with
  | NaN, _ | _, NaN => NaN
  | Fin x, Fin y => round64 (x - y)%Qc
  | PosInf, PosInf | NegInf, NegInf => NaN
  | PosInf, _ | _, NegInf => PosInf
  | NegInf, _ | _, PosInf => NegInf
  end.

(** [Math.floor]: the floor of a double is a double. *)
Definition Math_floor (a : number) : number :=
  match a with
  | Fin x => Fin (qz (Qfloor x))
  | _ => a
  end.

(** The integer a rational is, when it is one. *)
Definition Qc_integer (x : Qc) : option Z :=
  match Qden x with
  | xH => Some (Qnum x)
  | _ => None
  end.

(** [10 ** z] for an integer [z] of either sign. *)
Definition pow10 (z : Z) : Qc :=
  match z with
  | Z0 => qz 1
  | Zpos p => (qz 10 ^ Pos.to_nat p)%Qc
  | Zneg p => (/ (qz 10 ^ Pos.to_nat p))%Qc
  end.

(** ** JavaScript values *)

Inductive value : Type :=
  | VUndefined
  | VNull
  | VBool (b : bool)
  | VNum (n : number)
  | VStr (s : string)
  | VArr (items : list value)
  | VObj (fields : list (string * value)).

(** What is thrown: a [TypeError] of the runtime, or the value a request was
    rejected with. *)
Inductive exn : Type :=
  | TypeError (msg : string)
  | Rejection (reason : value).

Inductive result (A : Type) : Type :=
  | Ok (a : A)
  | Raise (e : exn).
Arguments Ok {A} a.
Arguments Raise {A} e.

(** A request sent through the exchange client, with its argument. *)
Inductive call : Type :=
  | getExchangeInfo
  | getMarkPrice (params : value)
  | getFuturesSymbolConfig (params : value)
  | setLeverage (params : value)
  | setMarginType (params : value)
  | submitNewOrder (params : value).

(** The conversions of the runtime that read or write text, and its clock. *)
Record Runtime : Type := {
  (** [Number(s)] for a string [s] *)
  StringToNumber : string -> number;
  (** [Number(v)] for an array or an object [v] *)
  ObjectToNumber : value -> number;
  (** [parseFloat(s)] for a string [s] *)
  parseFloatString : string -> number;
  (** [parseFloat(v)] for an array or an object [v] *)
  parseFloatObject : value -> number;
  (** [Math.pow(10, x)] for a finite [x] other than the integers 0 to 22.
      The language leaves the accuracy of [Math.pow] to the engine; the
      powers of ten that are doubles are those of 0 to 22, and these come
      out exact. *)
  pow10_approximated : Qc -> number;
  (** [v.toString()] *)
  ToString : value -> string;
  (** [Date.now()], read after the given requests *)
  Date_now : list call -> number;
}.

Definition truthy (v : value) : bool :=
  match v with
  | VUndefined | VNull => false
  | VBool b => b
  | VNum n => num_truthy n
  | VStr s => negb (String.eqb s "")
  | VArr _ | VObj _ => true
  end.

(** [a === b]. Arrays and objects are equal to themselves only, and a value
    decoded from a response is a fresh one. *)
Definition strict_eq (a b : value) : bool :=
  match a, b with
  | VUndefined, VUndefined | VNull, VNull => true
  | VBool x, VBool y => Bool.eqb x y
  | VNum x, VNum y => num_eqb x y
  | VStr x, VStr y => String.eqb x y
  | _, _ => false
  end.

Fixpoint assoc (k : string) (fields : list (string * value)) : value :=
  match fields with
  | [] => VUndefined
  | (k', v) :: rest => if String.eqb k k' then v else assoc k rest
  end.

(** [v.k] for a name [k] that no built-in prototype defines (all the names
    the connector reads are of this kind): reading it off [undefined] or
    [null] throws, an object answers with its own property, anything else
    with [undefined]. *)
Definition getProp (v : value) (k : string) : result value :=
  match v with
  | VUndefined => Raise (TypeError "Cannot read properties of undefined")
  | VNull => Raise (TypeError "Cannot read properties of null")
  | VObj fields => Ok (assoc k fields)
  | _ => Ok VUndefined
  end.

(** [v[0]] *)
Definition getIndex0 (v : value) : result value :=
  match v with
  | VUndefined => Raise (TypeError "Cannot read properties of undefined")
  | VNull => Raise (TypeError "Cannot read properties of null")
  | VArr items => Ok (hd VUndefined items)
  | VStr (String c _) => Ok (VStr (String c ""))
  | VObj fields => Ok (assoc "0" fields)
  | _ => Ok VUndefined
  end.

Fixpoint find_first (p : value -> result bool) (items : list value)
  : result value :=
  match items with
  | [] => Ok VUndefined
  | x :: rest =>
      match p x with
      | Raise e => Raise e
      | Ok true => Ok x
      | Ok false => find_first p rest
      end
  end.

(** [v.find(p)]: only an array has a [find]. *)
Definition Array_find (p : value -> result bool) (v : value) : result value :=
  match v with
  | VArr items => find_first p items
  | VUndefined => Raise (TypeError "Cannot read properties of undefined")
  | VNull => Raise (TypeError "Cannot read properties of null")
  | _ => Raise (TypeError "find is not a function")
  end.

(** A line of the console: the method, the fixed text and the values
    printed with it. *)
Inductive level : Type := Log | Error.

Record log_entry : Type := Entry {
  entry_level : level;
  entry_text : string;
  entry_args : list value;
}.

(** What [mapBinanceMarkets[market]] evaluates to, when it is not
    [undefined]: the symbol the table has for the market, or a member that
    the table inherits from its prototype and that the name of the market
    finds there ([constructor], [toString], [__proto__] and the like, when
    the table is a plain object). *)
Inductive table_entry : Type :=
  | Symbol (name : string)
  | Inherited (member : string).

#[global] Instance table_entry_eq_dec : EqDecision table_entry.
Proof. solve_decision. Defined.

#[global] Instance table_entry_countable : Countable table_entry :=
  inj_countable'
    (fun e => match e with Symbol s => inl s | Inherited m => inr m end)
    (fun x => match x with inl s => Symbol s | inr m => Inherited m end)
    (fun e => match e with Symbol _ | Inherited _ => eq_refl end).

(** The value an entry is in the program. An inherited member is a function
    or the prototype object: it is truthy, and no value decoded from a
    response is identical to it. *)
Definition entry_value (e : table_entry) : value :=
  match e with
  | Symbol name => VStr name
  | Inherited _ => VObj []
  end.

(** ** The state of the connector module *)

Record State : Type := mkState {
  (** [const unsupportedMarkets = new Set()] *)
  unsupportedMarkets : gset string;
  (** [const savedConfigSymbols = new Map()], from a symbol to an object
      whose properties are [true] *)
  savedConfigSymbols : gmap table_entry (gmap string bool);
  (** the requests sent through [usdmClient], latest first *)
  requests : list call;
  (** the lines printed, latest first *)
  console : list log_entry;
}.

Definition set_unsupportedMarkets (f : gset string -> gset string)
  (st : State) : State :=
  mkState (f (unsupportedMarkets st)) (savedConfigSymbols st)
          (requests st) (console st).

Definition set_savedConfigSymbols
  (f : gmap table_entry (gmap string bool)
       -> gmap table_entry (gmap string bool))
  (st : State) : State :=
  mkState (unsupportedMarkets st) (f (savedConfigSymbols st))
          (requests st) (console st).

Definition push_request (c : call) (st : State) : State :=
  mkState (unsupportedMarkets st) (savedConfigSymbols st)
          (c :: requests st) (console st).

Definition push_console (e : log_entry) (st : State) : State :=
  mkState (unsupportedMarkets st) (savedConfigSymbols st)
          (requests st) (e :: console st).

(** A computation reads and writes the state and returns or throws. *)
Definition M (A : Type) : Type := State -> result A * State.

Definition ret {A : Type} (a : A) : M A := fun st => (Ok a, st).

Definition throw {A : Type} (e : exn) : M A := fun st => (Raise e, st).

Definition bind {A B : Type} (m : M A) (k : A -> M B) : M B :=
  fun st =>
    match m st with
    | (Ok a, st') => k a st'
    | (Raise e, st') => (Raise e, st')
    end.

Definition lift {A : Type} (r : result A) : M A := fun st => (r, st).

(** [try { m } catch (error) { handler error }] *)
Definition try_catch {A : Type} (m : M A) (handler : exn -> M A) : M A :=
  fun st =>
    match m st with
    | (Ok a, st') => (Ok a, st')
    | (Raise e, st') => handler e st'
    end.

Definition rbind {A B : Type} (r : result A) (k : A -> result B) : result B :=
  match r with
  | Ok a => k a
  | Raise e => Raise e
  end.

Declare Scope js_scope.
Delimit Scope js_scope with js.

Notation "'let*' x ':=' m 'in' k" := (bind m (fun x => k))
  (at level 10, x name, m at level 100, k at level 200) : js_scope.
Notation "m ';;' k" := (bind m (fun _ => k))
  (at level 100, k at level 200, right associativity) : js_scope.
Notation "'let?' x ':=' r 'in' k" := (rbind r (fun x => k))
  (at level 10, x name, r at level 100, k at level 200) : js_scope.

Local Open Scope js_scope.

Definition console_log (text : string) (args : list value) : M unit :=
  fun st => (Ok tt, push_console (Entry Log text args) st).

Definition console_error (text : string) (args : list value) : M unit :=
  fun st => (Ok tt, push_console (Entry Error text args) st).

(** The value [console.error] prints for what was caught. *)
Definition exn_value (e : exn) : value :=
  match e with
  | TypeError msg => VObj [("name", VStr "TypeError"); ("message", VStr msg)]
  | Rejection v => v
  end.

(** [framed R m]: [R] relates [unsupportedMarkets] before [m] to
    [unsupportedMarkets] after it; equality for a computation that leaves
    the set alone, inclusion for one that may add to it. *)
Definition framed (R : relation (gset string)) {A : Type} (m : M A) : Prop :=
  forall st, R (unsupportedMarkets st) (unsupportedMarkets (snd (m st))).

(** What the connector is given and what it hands back. *)
Record TradeIntent : Type := {
  isLong : bool;
  market : string;
  size : value;
  (** [None] when the caller leaves it out *)
  isClosed : option bool;
}.

Inductive binance_side : Type := BUY | SELL.

Record OrderDescriptor : Type := {
  side : binance_side;
  symbol : table_entry;
  quantity : number;
}.

Section Connector.

Variable rt : Runtime.

(** [Number(v)], which is also the conversion the arithmetic and relational
    operators apply to an operand. *)
Definition ToNumber (v : value) : number :=
  match v with
  | VUndefined => NaN
  | VNull => num 0
  | VBool true => num 1
  | VBool false => num 0
  | VNum n => n
  | VStr s => StringToNumber rt s
  | VArr _ | VObj _ => ObjectToNumber rt v
  end.

Definition parseFloat (v : value) : number :=
  match v with
  | VUndefined | VNull | VBool _ => NaN
  | VNum n => n
  | VStr s => parseFloatString rt s
  | VArr _ | VObj _ => parseFloatObject rt v
  end.

(** A value is non-numeric when [Number] makes [NaN] of it, which is what
    the [isNaN] of the source tests. *)
Definition non_numeric (v : value) : Prop := ToNumber v = NaN.

(** [Math.pow(10, x)] *)
Definition Math_pow10 (x : number) : number :=
  match x with
  | NaN => NaN
  | PosInf => PosInf
  | NegInf => num 0
  | Fin q =>
      match Qc_integer q with
      | Some z =>
          if (0 <=? z) && (z <=? 22) then Fin (pow10 z)
          else pow10_approximated rt q
      | None => pow10_approximated rt q
      end
  end.

(** ** [helpers.js] *)

(** [defaultLeverages], imported from [lib/config.js]. *)
Variable defaultLeverages : value.

(** [mapBinanceMarkets], imported from [marketsEnum.js], by what
    [mapBinanceMarkets[market]] evaluates to: an entry, own or inherited, or
    [None] for [undefined]. The table maps the names of markets to symbols,
    which are strings. *)
Variable mapBinanceMarkets : string -> option table_entry.

(** [defaultLeverages?.binance] *)
Definition configured_leverage : value :=
  match defaultLeverages with
  | VObj fields => assoc "binance" fields
  | _ => VUndefined
  end.

(** [const DEFAULT_LEVERAGE = defaultLeverages?.binance || 20], which
    [helpers.js] and the connector module each declare, in these words. *)
Definition DEFAULT_LEVERAGE : value :=
  if truthy configured_leverage then configured_leverage else VNum (num 20).

Definition MIN_COLLATERAL : number := num 50.

(** [None] is the [null] of the source. *)
Definition convertMarketToBinanceMarket (market : string)
  : option table_entry :=
  match mapBinanceMarkets market with
  | Some symbol => if truthy (entry_value symbol) then Some symbol else None
  | None => None
  end.

Definition getBinanceSide (isLong isClosed : bool) : binance_side :=
  if isClosed then
    (if isLong then SELL else BUY)
  else
    (if isLong then BUY else SELL).

(** The function returns a number and prints to the console on the way: the
    result is the pair of the two. *)
Definition calculateSizeInMarketToken (collateral price precision : value)
  : number * list log_entry :=
  let numCollateral := ToNumber collateral in
  let numPrice := ToNumber price in
  if negb (num_truthy numCollateral) || isNaN numCollateral
     || num_le numCollateral (num 0) then
    (num 0, [Entry Log "Invalid collateral value" [collateral]])
  else if negb (num_truthy numPrice) || isNaN numPrice
          || num_le numPrice (num 0) then
    (num 0, [Entry Log "Invalid price value" [price]])
  else if num_lt numCollateral MIN_COLLATERAL then
    (num 0,
     [Entry Log "Collateral too small" [VNum numCollateral; VNum MIN_COLLATERAL];
      Entry Log "Current collateral" [VNum numCollateral];
      Entry Log "Please increase collateral by"
        [VNum (num_sub MIN_COLLATERAL numCollateral)]])
  else
    let totalSize := num_mul numCollateral (ToNumber DEFAULT_LEVERAGE) in
    let quantity := num_div totalSize numPrice in
    let multiplier := Math_pow10 (ToNumber precision) in
    let roundedQuantity :=
      num_div (Math_floor (num_mul quantity multiplier)) multiplier in
    (roundedQuantity,
     [Entry Log "Calculated position"
        [VNum numCollateral; DEFAULT_LEVERAGE; VNum totalSize;
         VNum roundedQuantity; VNum numPrice]]).

(** ** The connector module *)

(** [usdmClient]: the answer of the exchange client to a request, given the
    requests sent before it. Every request is answered: the promise resolves
    with a value or rejects. *)
Variable usdmClient : list call -> call -> result value.

(** [await usdmClient.request(params)] *)
Definition await (c : call) : M value :=
  fun st => (usdmClient (requests st) c, push_request c st).

(** [{...value, ...objValue}]: the properties of [objValue] win. *)
Definition spread (value objValue : gmap string bool) : gmap string bool :=
  objValue ∪ value.

Definition saveConfig (symbol : table_entry) (objValue : gmap string bool)
  : M unit :=
  fun st =>
    match savedConfigSymbols st !! symbol with
    | Some value =>
        (Ok tt,
         set_savedConfigSymbols (fun m => <[symbol := spread value objValue]> m) st)
    | None =>
        (Ok tt, set_savedConfigSymbols (fun m => <[symbol := objValue]> m) st)
    end.

(** [if (!unsupportedMarkets.has(market)) unsupportedMarkets.add(market)] *)
Definition add_unsupported (market : string) : M unit :=
  fun st =>
    if decide (market ∈ unsupportedMarkets st) then (Ok tt, st)
    else (Ok tt, set_unsupportedMarkets (fun s => {[market]} ∪ s) st).

(** [s => s.symbol === symbol] *)
Definition symbol_is (symbol : table_entry) (s : value) : result bool :=
  let? v := getProp s "symbol" in Ok (strict_eq v (entry_value symbol)).

(** [f => f.filterType === name] *)
Definition filterType_is (name : string) (f : value) : result bool :=
  let? v := getProp f "filterType" in Ok (strict_eq v (VStr name)).

(** [exchangeInfo.symbols.find(s => s.symbol === symbol)] *)
Definition find_marketInfo (symbol : table_entry) (exchangeInfo : value)
  : result value :=
  let? symbols := getProp exchangeInfo "symbols" in
  Array_find (symbol_is symbol) symbols.

(** [marketInfo.filters || []] *)
Definition filters_or_empty (declared : value) : value :=
  if truthy declared then declared else VArr [].

(** The filters of a symbol and the two minimums read off them: [minQty]
    and [minNotional], in this order. *)
Definition minimums (marketInfo : value) : result (number * number) :=
  let? declared := getProp marketInfo "filters" in
  let filters := filters_or_empty declared in
  let? lotSizeFilter := Array_find (filterType_is "LOT_SIZE") filters in
  let? minNotionalFilter := Array_find (filterType_is "MIN_NOTIONAL") filters in
  let? minQty :=
    if truthy lotSizeFilter then
      let? v := getProp lotSizeFilter "minQty" in Ok (parseFloat v)
    else Ok (num 0) in
  let? minNotional :=
    if truthy minNotionalFilter then
      let? notional := getProp minNotionalFilter "notional" in
      let? v := if truthy notional then Ok notional
                else getProp minNotionalFilter "minNotional" in
      Ok (parseFloat v)
    else Ok (num 0) in
  Ok (minQty, minNotional).

Definition markPrice_params (symbol : table_entry) : value :=
  VObj [("isIsolated", VStr "TRUE"); ("symbol", entry_value symbol)].

Definition symbol_params (symbol : table_entry) : value :=
  VObj [("symbol", entry_value symbol)].

Definition leverage_params (symbol : table_entry) : value :=
  VObj [("symbol", entry_value symbol); ("leverage", DEFAULT_LEVERAGE)].

Definition marginType_params (symbol : table_entry) : value :=
  VObj [("symbol", entry_value symbol); ("marginType", VStr "ISOLATED")].

(** The call of [calculateSizeInMarketToken] from the module: its lines go
    to the console. *)
Definition run_calculateSize (collateral price precision : value) : M number :=
  fun st =>
    let (q, lines) := calculateSizeInMarketToken collateral price precision in
    (Ok q, fold_left (fun s e => push_console e s) lines st).

(** [size / DEFAULT_LEVERAGE] *)
Definition collateral_of (intent : TradeIntent) : number :=
  num_div (ToNumber (size intent)) (ToNumber DEFAULT_LEVERAGE).

(** The block under [try] in [prepareDataToPlace]. *)
Definition prepare_try (intent : TradeIntent) (symbol : table_entry)
  : M (option OrderDescriptor) :=
  let* exchangeInfo := await getExchangeInfo in
  let* marketInfo := lift (find_marketInfo symbol exchangeInfo) in
  if negb (truthy marketInfo) then
    add_unsupported (market intent) ;; ret None
  else
    let* mins := lift (minimums marketInfo) in
    let minQty := fst mins in
    let minNotional := snd mins in
    let* priceInfo := await (getMarkPrice (markPrice_params symbol)) in
    let* binancePrice := lift (getProp priceInfo "markPrice") in
    let side := getBinanceSide (isLong intent) (default false (isClosed intent)) in
    let collateral := collateral_of intent in
    let* precision := lift (getProp marketInfo "quantityPrecision") in
    let* quantity :=
      run_calculateSize (VNum collateral) binancePrice precision in
    if negb (num_truthy quantity) || num_le quantity (num 0) then
      ret None
    else if num_gt minQty (num 0) && num_lt quantity minQty then
      console_log "Quantity is less than minimum"
        [VNum quantity; VNum minQty; entry_value symbol] ;;
      ret None
    else
      let notionalValue := num_mul quantity (ToNumber binancePrice) in
      if num_gt minNotional (num 0) && num_lt notionalValue minNotional then
        console_log "Notional value is less than minimum"
          [VNum notionalValue; VNum minNotional; entry_value symbol] ;;
        ret None
      else
        let* symbolConfig :=
          await (getFuturesSymbolConfig (symbol_params symbol)) in
        let* first := lift (getIndex0 symbolConfig) in
        let* leverage := lift (getProp first "leverage") in
        let* marginType := lift (getProp first "marginType") in
        (if negb (strict_eq leverage DEFAULT_LEVERAGE) then
           await (setLeverage (leverage_params symbol)) ;;
           saveConfig symbol {["leverage" := true]}
         else ret tt) ;;
        (if negb (strict_eq marginType (VStr "ISOLATED")) then
           await (setMarginType (marginType_params symbol)) ;;
           saveConfig symbol {["marginType" := true]}
         else ret tt) ;;
        ret (Some {| side := side; symbol := symbol; quantity := quantity |}).

(** The handler of that [try]. *)
Definition prepare_catch (intent : TradeIntent) (symbol : table_entry)
  (error : exn) : M (option OrderDescriptor) :=
  console_error "Error in prepareDataToPlace for"
    [entry_value symbol; exn_value error] ;;
  add_unsupported (market intent) ;;
  ret None.

(** [None] is the [null] of the source. *)
Definition prepareDataToPlace (intent : TradeIntent)
  : M (option OrderDescriptor) :=
  fun st =>
    if decide (market intent ∈ unsupportedMarkets st) then (Ok None, st)
    else
      match convertMarketToBinanceMarket (market intent) with
      | None => (add_unsupported (market intent) ;; ret None) st
      | Some symbol =>
          try_catch (prepare_try intent symbol)
                    (prepare_catch intent symbol) st
      end.

(** The callback of [setInterval(..., 24 * 60 * 60 * 1000)]. *)
Definition clear_unsupportedMarkets (st : State) : State :=
  set_unsupportedMarkets (fun _ => ∅) st.

(** [placeNewOrder({side, symbol, quantity})]; a property the caller leaves
    out is [undefined], which is also what a bare [return] returns. *)
Definition placeNewOrder (side symbol quantity : value) : M value :=
  if negb (truthy quantity) || num_le (ToNumber quantity) (num 0) then
    console_error "Invalid quantity:" [quantity] ;;
    ret VUndefined
  else
    try_catch
      (let* timestamp := (fun st => (Ok (Date_now rt (requests st)), st)) in
       let orderParams :=
         [("symbol", symbol); ("side", side); ("type", VStr "MARKET");
          ("quantity", VStr (ToString rt quantity));
          ("reduceOnly", VBool false); ("workingType", VStr "MARK_PRICE");
          ("timestamp", VNum timestamp)] in
       console_log "Attempting to place order:" [VObj orderParams] ;;
       let* response := await (submitNewOrder (VObj orderParams)) in
       let* orderId := lift (getProp response "orderId") in
       let* status := lift (getProp response "status") in
       let* executedQty := lift (getProp response "executedQty") in
       let* avgPrice := lift (getProp response "avgPrice") in
       console_log "Order placed successfully:"
         [VObj (orderParams ++
                [("orderId", orderId); ("status", status);
                 ("executedQty", executedQty); ("avgPrice", avgPrice)])] ;;
       ret response)
      (fun error =>
         let* message := lift (getProp (exn_value error) "message") in
         let* body := lift (getProp (exn_value error) "body") in
         console_error "Error placing order:"
           [VObj [("params",
                   VObj [("side", side); ("symbol", symbol);
                         ("quantity", quantity)]);
                  ("error", message); ("details", body)]] ;;
         throw error).

(** The states the module is in after further calls of its two exported
    functions, as long as the timer of the reset does not fire. *)
Inductive later (st : State) : State -> Prop :=
  | later_now : later st st
  | later_prepare intent st1 :
      later st st1 -> later st (snd (prepareDataToPlace intent st1))
  | later_place side symbol quantity st1 :
      later st st1 -> later st (snd (placeNewOrder side symbol quantity st1)).

End Connector.

(** ** [class BinanceWebSocket] *)

Definition WS_RECONNECT_DELAY : Z := 1000.
Definition WS_MAX_RECONNECT_ATTEMPTS : Z := 5.
Definition WS_PING_INTERVAL : Z := 30000.
Definition WS_CONNECTION_TIMEOUT : Z := 5000.

(** What a timer runs when it fires. *)
Inductive callback : Type :=
  | call_connect          (** [() => { this.connect(); }] *)
  | check_connecting      (** the connection timeout of [connect] *)
  | send_ping.            (** the body of the ping interval *)

(** The fields of the object. A socket and a timer are known by the number
    they were created with; [None] is [null]. *)
Record BinanceWebSocket : Type := mkSocket {
  ws : option nat;
  pingInterval : option nat;
  reconnectAttempts : Z;
  isConnecting : bool;
}.

(** What the methods do to the world around the object: the timers they
    set, the timers they clear, the sockets they open or terminate, and the
    lines they print. Each list has the latest first. *)
Record Loop : Type := mkLoop {
  (** [setTimeout(callback, delay)] *)
  timeouts : list (Z * callback);
  (** [setInterval(callback, delay)], with the handle returned *)
  intervals : list (nat * Z * callback);
  (** [clearInterval(handle)] *)
  cleared : list nat;
  (** [new WebSocket(url)] *)
  opened : list nat;
  (** [socket.terminate()] *)
  terminated : list nat;
  printed : list log_entry;
}.

Definition World : Type := BinanceWebSocket * Loop.

Definition print (l : level) (text : string) (args : list value)
  (w : World) : World :=
  let (o, lp) := w in
  (o, mkLoop (timeouts lp) (intervals lp) (cleared lp) (opened lp)
             (terminated lp) (Entry l text args :: printed lp)).

Definition setTimeout (cb : callback) (delay : Z) (w : World) : World :=
  let (o, lp) := w in
  (o, mkLoop ((delay, cb) :: timeouts lp) (intervals lp) (cleared lp)
             (opened lp) (terminated lp) (printed lp)).

Definition clearInterval (handle : nat) (w : World) : World :=
  let (o, lp) := w in
  (o, mkLoop (timeouts lp) (intervals lp) (handle :: cleared lp)
             (opened lp) (terminated lp) (printed lp)).

Definition set_pingInterval (h : option nat) (w : World) : World :=
  let (o, lp) := w in
  (mkSocket (ws o) h (reconnectAttempts o) (isConnecting o), lp).

Definition set_reconnectAttempts (n : Z) (w : World) : World :=
  let (o, lp) := w in
  (mkSocket (ws o) (pingInterval o) n (isConnecting o), lp).

Definition set_isConnecting (b : bool) (w : World) : World :=
  let (o, lp) := w in
  (mkSocket (ws o) (pingInterval o) (reconnectAttempts o) b, lp).

(** [this.ws = new WebSocket(url)]: the new socket takes the next number. *)
Definition new_WebSocket (w : World) : World :=
  let (o, lp) := w in
  let s := length (opened lp) in
  (mkSocket (Some s) (pingInterval o) (reconnectAttempts o) (isConnecting o),
   mkLoop (timeouts lp) (intervals lp) (cleared lp) (s :: opened lp)
          (terminated lp) (printed lp)).

(** [this.pingInterval = setInterval(callback, delay)] *)
Definition setInterval_ping (w : World) : World :=
  let (o, lp) := w in
  let h := length (intervals lp) in
  (mkSocket (ws o) (Some h) (reconnectAttempts o) (isConnecting o),
   mkLoop (timeouts lp) ((h, WS_PING_INTERVAL, send_ping) :: intervals lp)
          (cleared lp) (opened lp) (terminated lp) (printed lp)).

Definition terminate (w : World) : World :=
  let (o, lp) := w in
  match ws o with
  | Some s =>
      (o, mkLoop (timeouts lp) (intervals lp) (cleared lp) (opened lp)
                 (s :: terminated lp) (printed lp))
  | None => w
  end.

Definition reconnect (w : World) : World :=
  if WS_MAX_RECONNECT_ATTEMPTS <=? reconnectAttempts (fst w) then
    print Error "Max reconnection attempts reached. Please check your connection." [] w
  else
    let w1 := set_reconnectAttempts (reconnectAttempts (fst w) + 1) w in
    let w2 :=
      print Log "Attempting to reconnect"
        [VNum (num (reconnectAttempts (fst w1)));
         VNum (num WS_MAX_RECONNECT_ATTEMPTS)] w1 in
    setTimeout call_connect
      (WS_RECONNECT_DELAY * reconnectAttempts (fst w2)) w2.

Definition cleanup (w : World) : World :=
  let w1 :=
    match pingInterval (fst w) with
    | Some h => set_pingInterval None (clearInterval h w)
    | None => w
    end in
  set_isConnecting false w1.

Definition setupPing (w : World) : World :=
  let w1 :=
    match pingInterval (fst w) with
    | Some h => clearInterval h w
    | None => w
    end in
  setInterval_ping w1.

(** [connect()]. [constructed] tells whether [new WebSocket(url)] returns a
    socket or throws, in which case the [catch] of the method runs. The
    three handlers the method registers on the socket are the next three
    definitions. *)
Definition connect (constructed : bool) (w : World) : World :=
  if isConnecting (fst w) then w
  else
    let w1 := set_isConnecting true w in
    if constructed then
      let w2 := new_WebSocket w1 in
      setTimeout check_connecting WS_CONNECTION_TIMEOUT w2
    else
      let w2 :=
        print Error "Failed to create WebSocket connection:" [] w1 in
      reconnect (set_isConnecting false w2).

Definition on_open (w : World) : World :=
  let w1 := print Log "Binance WebSocket connected" [] w in
  let w2 := set_isConnecting false w1 in
  let w3 := set_reconnectAttempts 0 w2 in
  setupPing w3.

Definition on_close (w : World) : World :=
  let w1 := print Log "Binance WebSocket closed" [] w in
  reconnect (cleanup w1).

Definition on_error (message : value) (w : World) : World :=
  let w1 := print Error "Binance WebSocket error:" [message] w in
  reconnect (cleanup w1).

(** A timer fires; [constructed] is for the [connect] it may run. The ping
    goes out on the socket and leaves the object and the timers alone. *)
Definition fire (constructed : bool) (cb : callback) (w : World) : World :=
  match cb with
  | call_connect => connect constructed w
  | check_connecting =>
      if isConnecting (fst w) then
        terminate
          (print Log "WebSocket connection timeout. Forcing reconnect..." [] w)
      else w
  | send_ping => w
  end.

Definition new_BinanceWebSocket : World :=
  (mkSocket None None 0 false, mkLoop [] [] [] [] [] []).

(** A connection that fails: the socket closes without having opened, and
    the timer [reconnect] has set, when it has set one, fires and opens the
    next socket. *)
Definition failed_connection (w : World) : World :=
  let w1 := on_close w in
  if (length (timeouts (snd w)) <? length (timeouts (snd w1)))%nat
  then fire true call_connect w1
  else w1.

(** The delays of the timers set for [connect], in the order they were
    set. *)
Definition reconnect_delays (w : World) : list Z :=
  rev (map fst (List.filter (fun t => match snd t with
                                 | call_connect => true
                                 | _ => false
                                 end) (timeouts (snd w)))).

(** ** The rest of the connector module *)

(** [v.length] *)
Definition getLength (v : value) : result value :=
  match v with
  | VUndefined => Raise (TypeError "Cannot read properties of undefined")
  | VNull => Raise (TypeError "Cannot read properties of null")
  | VArr items => Ok (VNum (num (Z.of_nat (length items))))
  | VStr s => Ok (VNum (num (Z.of_nat (String.length s))))
  | VObj fields => Ok (assoc "length" fields)
  | _ => Ok VUndefined
  end.

(** [v[i]] for a counter [i] *)
Definition getIndex (v : value) (i : nat) : result value :=
  match v with
  | VUndefined => Raise (TypeError "Cannot read properties of undefined")
  | VNull => Raise (TypeError "Cannot read properties of null")
  | VArr items => Ok (nth i items VUndefined)
  | VStr s =>
      match String.get i s with
      | Some c => Ok (VStr (String c ""))
      | None => Ok VUndefined
      end
  | VObj fields => Ok (assoc (pretty i) fields)
  | _ => Ok VUndefined
  end.

(** The rounds the loop of [getPrecision] can go through on a value: a round
    needs an element, and there are no more elements than these. *)
Definition scan_rounds (symbols : value) : nat :=
  match symbols with
  | VArr items => length items
  | VStr s => String.length s
  | VObj fields => S (length fields)
  | _ => O
  end.

Section Lookups.

Variable rt : Runtime.
Variable usdmClient : list call -> call -> result value.

(** [v == s] for a string [s]: a number or a boolean is compared with the
    number the string converts to, an array or an object with the string it
    converts to. *)
Definition loose_eq_string (v : value) (s : string) : bool :=
  match v with
  | VUndefined | VNull => false
  | VBool _ | VNum _ => num_eqb (ToNumber rt v) (StringToNumber rt s)
  | VStr x => String.eqb x s
  | VArr _ | VObj _ => String.eqb (ToString rt v) s
  end.

(** [for (let i = 0; i < symbols.length; i++)
       if (symbols[i].symbol == symbol) return symbols[i].quantityPrecision;]
    from round [i] on: [Ok (Some v)] when the loop returns [v], [Ok None]
    when it runs out of elements, and [None] when [fuel] rounds were not
    enough. *)
Fixpoint precision_loop (fuel : nat) (symbols : value) (symbol : string)
  (i : nat) : option (result (option value)) :=
  match fuel with
  | O => None
  | S fuel' =>
      match getLength symbols with
      | Raise e => Some (Raise e)
      | Ok len =>
          if num_lt (num (Z.of_nat i)) (ToNumber rt len) then
            match (let? item := getIndex symbols i in
                   let? name := getProp item "symbol" in
                   Ok (item, name)) with
            | Raise e => Some (Raise e)
            | Ok (item, name) =>
                if loose_eq_string name symbol then
                  Some (let? precision := getProp item "quantityPrecision" in
                        Ok (Some precision))
                else precision_loop fuel' symbols symbol (S i)
            end
          else Some (Ok None)
      end
  end.

(** The loop from its start; one round more than [scan_rounds] is always
    enough (see [precision_loop_ends]). *)
Definition scan_symbols (symbols : value) (symbol : string)
  : result (option value) :=
  match precision_loop (S (scan_rounds symbols)) symbols symbol 0 with
  | Some r => r
  | None => Ok None
  end.

Definition getPrecision (symbol : string) : M value :=
  let* found :=
    try_catch
      (let* info := await usdmClient getExchangeInfo in
       let* symbols := lift (getProp info "symbols") in
       lift (scan_symbols symbols symbol))
      (fun e => console_error "" [exn_value e] ;; ret None) in
  match found with
  | Some precision => ret precision
  | None => ret (VNum (num (-1)))
  end.

Definition getBinancePrice (symbol : value) : M value :=
  try_catch
    (let* response :=
       await usdmClient
         (getMarkPrice (VObj [("isIsolated", VStr "TRUE");
                              ("symbol", symbol)])) in
     lift (getProp response "markPrice"))
    (fun error =>
       console_error "Error getting price from Binance:" [exn_value error] ;;
       ret VNull).

(** The [orderParams] that [placeNewOrder] builds in a state. *)
Definition orderParams (side symbol quantity : value) (st : State) : value :=
  VObj [("symbol", symbol); ("side", side); ("type", VStr "MARKET");
        ("quantity", VStr (ToString rt quantity));
        ("reduceOnly", VBool false); ("workingType", VStr "MARK_PRICE");
        ("timestamp", VNum (Date_now rt (requests st)))].

(** The guard of [placeNewOrder] lets a quantity through when it is truthy
    and not [<= 0]. *)
Definition accepted (quantity : value) : Prop :=
  truthy quantity = true /\ num_le (ToNumber rt quantity) (num 0) = false.

End Lookups.

(** An array of symbol entries as the exchange documents it: each entry is
    an object and names its symbol with a string. *)
Definition well_listed (items : list value) : Prop :=
  Forall (fun item => exists fields name,
                        item = VObj fields /\
                        assoc "symbol" fields = VStr name) items.

(** ['BUY'] and ['SELL'] *)
Definition side_value (s : binance_side) : value :=
  match s with
  | BUY => VStr "BUY"
  | SELL => VStr "SELL"
  end.

(** The order in which [prepareDataToPlace] sends what it sends. *)
Definition request_plan (leverages : value) (symbol : table_entry)
  : list call :=
  [getExchangeInfo;
   getMarkPrice (markPrice_params symbol);
   getFuturesSymbolConfig (symbol_params symbol);
   setLeverage (leverage_params leverages symbol);
   setMarginType (marginType_params symbol)].

(** [steps P m]: [P] relates the state before [m] to the state after it. *)
Definition steps (P : relation State) {A : Type} (m : M A) : Prop :=
  forall st, P st (snd (m st)).

(** [emits plan m]: [m] adds requests to the history, and those it adds are
    requests of [plan], in the order of [plan]. *)
Definition emits (plan : list call) {A : Type} (m : M A) : Prop :=
  forall st, exists new,
    requests (snd (m st)) = (new ++ requests st)%list /\
    rev new `sublist_of` plan.

(** The requests are only added to. *)
Definition history_grows (st st' : State) : Prop :=
  exists new, requests st' = (new ++ requests st)%list.

(** What [savedConfigSymbols] says of a symbol is only added to. *)
Definition memo_grows (st st' : State) : Prop :=
  forall symbol flag,
    (exists o, savedConfigSymbols st !! symbol = Some o /\ o !! flag = Some true) ->
    exists o', savedConfigSymbols st' !! symbol = Some o' /\
               o' !! flag = Some true.

(** A call for [market] adds [market] to [unsupportedMarkets], or nothing. *)
Definition marks_only (market : string) (s s' : gset string) : Prop :=
  s ⊆ s' /\ s' ⊆ {[market]} ∪ s.

(** ** The rest of [class BinanceWebSocket] *)

(** [close()]; the sockets the caller has closed are listed beside the
    world, latest first. *)
Definition close (wc : World * list nat) : World * list nat :=
  match ws (fst (fst wc)) with
  | Some s => (cleanup (fst wc), s :: snd wc)
  | None => wc
  end.

(** The worlds an object gets to from its construction, by calls of its
    methods, events of its sockets and timers, in any order. *)
Inductive reachable : World -> Prop :=
  | reach_new : reachable new_BinanceWebSocket
  | reach_connect constructed w :
      reachable w -> reachable (connect constructed w)
  | reach_setupPing w : reachable w -> reachable (setupPing w)
  | reach_cleanup w : reachable w -> reachable (cleanup w)
  | reach_reconnect w : reachable w -> reachable (reconnect w)
  | reach_open w : reachable w -> reachable (on_open w)
  | reach_close w : reachable w -> reachable (on_close w)
  | reach_error message w : reachable w -> reachable (on_error message w)
  | reach_fire constructed cb w :
      reachable w -> reachable (fire constructed cb w)
  | reach_closed w closed :
      reachable w -> reachable (fst (close (w, closed))).

(** [n] connections that fail in a row. *)
Definition failures (n : nat) (w : World) : World :=
  Nat.iter n failed_connection w.

(** The handles of the intervals that were set and not cleared. *)
Definition live_intervals (w : World) : list nat :=
  List.filter
    (fun h => negb (existsb (Nat.eqb h) (cleared (snd w))))
    (map (fun t => fst (fst t)) (intervals (snd w))).

(** What the object keeps true of its ping: the one interval that is set
    and not cleared is the one it holds, and handles are given out in
    order. *)
Definition ping_invariant (w : World) : Prop :=
  live_intervals w
  = match pingInterval (fst w) with
    | Some h => [h]
    | None => []
    end /\
  Forall (fun t => (fst (fst t) < length (intervals (snd w)))%nat)
         (intervals (snd w)) /\
  Forall (fun h => (h < length (intervals (snd w)))%nat) (cleared (snd w)).

(** ** The filters of a symbol, as the exchange lists them *)

(** An element of the list that [find] passes over when it looks for the
    filter of a kind: it has properties, and its [filterType] is not that
    kind. *)
Definition other_kind (kind : string) (f : value) : Prop :=
  match f with
  | VUndefined | VNull => False
  | VObj fields => assoc "filterType" fields <> VStr kind
  | _ => True
  end.

(** The object with the properties [fields] is the first filter of the
    kind in the list. *)
Definition first_of_kind (kind : string) (filters : list value)
  (fields : list (string * value)) : Prop :=
  exists before after,
    filters = (before ++ VObj fields :: after)%list /\
    assoc "filterType" fields = VStr kind /\
    Forall (other_kind kind) before.

(** The list has no filter of the kind. *)
Definition none_of_kind (kind : string) (filters : list value) : Prop :=
  Forall (other_kind kind) filters.

(** The quantity as the specification words it, over the rationals:
    [floor(collateral * LEVERAGE / price * 10^precision) / 10^precision]. *)
Definition stated_quantity (collateral leverage price : Qc) (precision : Z)
  : Qc :=
  (qz (Qfloor (collateral * leverage / price * pow10 precision))
   / pow10 precision)%Qc.

(** ** A runtime, a configuration and an exchange to run the connector on *)

Definition digit_of (c : Ascii.ascii) : option Z :=
  let n := Z.of_nat (Ascii.nat_of_ascii c) in
  if (48 <=? n) && (n <=? 57) then Some (n - 48) else None.

(** Reads [digits] or [digits.digits] as a numerator over a power of ten. *)
Fixpoint read_decimal (s : string) (after_dot : bool) (acc : Z)
  (den : positive) (any : bool) : option (Z * positive) :=
  match s with
  | EmptyString => if any then Some (acc, den) else None
  | String c rest =>
      if Ascii.eqb c "."%char then
        (if after_dot then None else read_decimal rest true acc den any)
      else
        match digit_of c with
        | Some d =>
            read_decimal rest after_dot (10 * acc + d)
              (if after_dot then (10 * den)%positive else den) true
        | None => None
        end
  end.

(** The double nearest to what a plain decimal literal denotes, [NaN] for
    other text. *)
Definition decimal_literal (s : string) : number :=
  match s with
  | String "-"%char rest =>
      match read_decimal rest false 0 1 false with
      | Some (a, d) => round64 (qfrac (- a) d)
      | None => NaN
      end
  | _ =>
      match read_decimal s false 0 1 false with
      | Some (a, d) => round64 (qfrac a d)
      | None => NaN
      end
  end.

Definition sample_runtime : Runtime := {|
  StringToNumber := decimal_literal;
  ObjectToNumber := fun _ => NaN;
  parseFloatString := decimal_literal;
  parseFloatObject := fun _ => NaN;
  pow10_approximated := fun _ => NaN;
  ToString := fun _ => "";
  Date_now := fun history => num (Z.of_nat (length history));
|}.

(** A table that is a plain object with one entry: [constructor] finds the
    member it inherits. *)
Definition sample_markets (market : string) : option table_entry :=
  if String.eqb market "BTC-USD" then Some (Symbol "BTCUSDT")
  else if String.eqb market "constructor" then Some (Inherited "constructor")
  else None.

Definition sample_leverages : value := VObj [("binance", VNum (num 20))].

Definition sample_exchangeInfo : value :=
  VObj [("symbols",
         VArr [VObj [("symbol", VStr "ETHUSDT");
                     ("quantityPrecision", VNum (num 2));
                     ("filters", VArr [])];
               VObj [("symbol", VStr "BTCUSDT");
                     ("quantityPrecision", VNum (num 3));
                     ("filters",
                      VArr [VObj [("filterType", VStr "LOT_SIZE");
                                  ("minQty", VStr "0.001")];
                            VObj [("filterType", VStr "MIN_NOTIONAL");
                                  ("notional", VStr "100")]])]])].

(** An exchange that answers every request. *)
Definition sample_exchange (history : list call) (c : call) : result value :=
  match c with
  | getExchangeInfo => Ok sample_exchangeInfo
  | getMarkPrice _ => Ok (VObj [("markPrice", VStr "50000")])
  | getFuturesSymbolConfig _ =>
      Ok (VArr [VObj [("leverage", VNum (num 10));
                      ("marginType", VStr "ISOLATED")]])
  | setLeverage _ | setMarginType _ => Ok (VObj [])
  | submitNewOrder _ =>
      Ok (VObj [("orderId", VNum (num 1)); ("status", VStr "NEW");
                ("executedQty", VStr "0"); ("avgPrice", VStr "0")])
  end.

(** An exchange that rejects every request. *)
Definition failing_exchange (history : list call) (c : call) : result value :=
  Raise (Rejection (VObj [("code", VNum (num (-1003)));
                          ("message", VStr "Too many requests")])).

Definition empty_state : State := mkState ∅ ∅ [] [].

(** A state in which one market has been found unsupported. *)
Definition marked_state : State := mkState {["BTC-USD"]} ∅ [] [].

(** An object that has reconnected [n] times since it was last open. *)
Definition socket_after (n : Z) : World :=
  (mkSocket (Some 0%nat) None n false, mkLoop [] [] [] [0%nat] [] []).

Definition sample_intent (amount : Z) : TradeIntent := {|
  isLong := true;
  market := "BTC-USD";
  size := VNum (num amount);
  isClosed := None;
|}.

(** An exchange whose information lists another symbol only. *)
Definition delisting_exchange (history : list call) (c : call)
  : result value :=
  match c with
  | getExchangeInfo =>
      Ok (VObj [("symbols",
                 VArr [VObj [("symbol", VStr "ETHUSDT");
                             ("quantityPrecision", VNum (num 2));
                             ("filters", VArr [])]])])
  | _ => sample_exchange history c
  end.

(** A symbol whose [LOT_SIZE] filter names no quantity, and an exchange
    that lists it. *)
Definition unquantified_marketInfo : value :=
  VObj [("symbol", VStr "BTCUSDT");
        ("quantityPrecision", VNum (num 3));
        ("filters", VArr [VObj [("filterType", VStr "LOT_SIZE")]])].

Definition unquantified_exchange (history : list call) (c : call)
  : result value :=
  match c with
  | getExchangeInfo => Ok (VObj [("symbols", VArr [unquantified_marketInfo])])
  | _ => sample_exchange history c
  end.

(** An exchange that resolves every request with [undefined]. *)
Definition silent_exchange (history : list call) (c : call) : result value :=
  Ok VUndefined.

(** An object that passes for an array without an end. *)
Definition endless_symbols : value :=
  VObj [("length", VNum PosInf);
        ("0", VObj [("symbol", VStr "ETHUSDT")]);
        ("1", VObj [("symbol", VStr "BNBUSDT")])].

(** The state after the sample order has been prepared. *)
Definition prepared_state : State :=
  snd (prepareDataToPlace sample_runtime sample_leverages sample_markets
         sample_exchange (sample_intent 2000) empty_state).

(** * Properties *)

(** ** Numbers *)

Lemma Qc_leb_le (x y : Qc) : Qc_leb x y = true <-> (x <= y)%Qc.
Proof. unfold Qc_leb, Qcle. apply Qle_bool_iff. Qed.

Lemma Qc_ltb_lt (x y : Qc) : Qc_ltb x y = true <-> (x < y)%Qc.
Proof.
  unfold Qc_ltb. rewrite negb_true_iff, <- not_true_iff_false.
  fold (Qc_leb y x). rewrite Qc_leb_le. split.
  - apply Qcnot_le_lt.
  - apply Qclt_not_le.
Qed.

Lemma Qc_eqb_eq (x y : Qc) : Qc_eqb x y = true <-> x = y.
Proof.
  unfold Qc_eqb. rewrite Qeq_bool_iff. split.
  - apply Qc_is_canon.
  - intros ->. reflexivity.
Qed.

Lemma Qc_eqb_neq (x y : Qc) : Qc_eqb x y = false <-> x <> y.
Proof. rewrite <- Qc_eqb_eq. symmetry. apply not_true_iff_false. Qed.

Lemma qz_0 : qz 0 = 0%Qc.
Proof. apply Z2Qc_inj_0. Qed.

Lemma Qc_integer_qz (n : Z) : Qc_integer (qz n) = Some n.
Proof. reflexivity. Qed.

Lemma Qcpower_nonzero (x : Qc) (n : nat) : x <> 0%Qc -> (x ^ n)%Qc <> 0%Qc.
Proof.
  intros Hx. induction n as [|n IH]; simpl.
  - apply Q_apart_0_1.
  - intros H. destruct (Qcmult_integral _ _ H); contradiction.
Qed.

Lemma qz_10_nonzero : qz 10 <> 0%Qc.
Proof. intros H. apply Qc_eqb_eq in H. discriminate H. Qed.

Lemma pow10_nonzero (z : Z) : pow10 z <> 0%Qc.
Proof.
  destruct z as [|p|p]; simpl.
  - intros H. apply Qc_eqb_eq in H. discriminate H.
  - apply Qcpower_nonzero, qz_10_nonzero.
  - intros H.
    apply (Qcpower_nonzero (qz 10) (Pos.to_nat p) qz_10_nonzero).
    rewrite <- (Qcmult_1_l (qz 10 ^ Pos.to_nat p)).
    rewrite <- (Qcmult_inv_l (qz 10 ^ Pos.to_nat p)) at 1
      by (apply Qcpower_nonzero, qz_10_nonzero).
    rewrite H. ring.
Qed.

Lemma pow10_pos (z : Z) : (0 < pow10 z)%Qc.
Proof.
  assert (H10 : (0 < qz 10)%Qc) by now apply Qc_ltb_lt.
  assert (Hpow : forall n : nat, (0 < qz 10 ^ n)%Qc).
  { induction n as [|n IH]; simpl.
    - now apply Qc_ltb_lt.
    - now apply Qcmult_pos_pos. }
  destruct z as [|p|p]; simpl.
  - now apply Qc_ltb_lt.
  - apply Hpow.
  - apply Qcinv_pos, Hpow.
Qed.

(** The floor of a rational that is not negative is its numerator over its
    denominator, truncated toward zero. *)
Lemma Qfloor_truncates (x : Qc) :
  (0 <= x)%Qc -> Qfloor x = Z.quot (Qnum x) (Zpos (Qden x)).
Proof.
  intros Hx. destruct x as [[a d] Hc]. simpl in *.
  unfold Qcle, Qle in Hx. simpl in Hx.
  symmetry. apply Z.quot_div_nonneg; lia.
Qed.

Lemma Qc_ltb_false (x y : Qc) : Qc_ltb x y = false <-> (y <= x)%Qc.
Proof.
  rewrite <- not_true_iff_false, Qc_ltb_lt. split.
  - apply Qcnot_lt_le.
  - apply Qcle_not_lt.
Qed.

Lemma Qc_leb_false (x y : Qc) : Qc_leb x y = false <-> (y < x)%Qc.
Proof.
  rewrite <- not_true_iff_false, Qc_leb_le. split.
  - apply Qcnot_le_lt.
  - apply Qclt_not_le.
Qed.

Lemma Qsgn_pos (x : Qc) : (qz 0 < x)%Qc -> Qsgn x = 1.
Proof.
  unfold Qsgn, Qclt, Qlt. simpl. intros H.
  apply Z.sgn_pos. lia.
Qed.

(** A truthy number that is not [<= 0] is above 0. *)
Lemma num_accepted_pos (q : number) :
  negb (num_truthy q) || num_le q (num 0) = false ->
  num_lt (num 0) q = true.
Proof.
  intros H. apply orb_false_elim in H as [Ht Hle].
  destruct q as [| | |x]; simpl in *; try discriminate; try reflexivity.
  apply Qc_ltb_lt. now apply Qc_leb_false.
Qed.

Lemma num_lt_trans (a b c : number) :
  num_lt a b = true -> num_lt b c = true -> num_lt a c = true.
Proof.
  destruct a as [| | |x], b as [| | |y], c as [| | |z]; simpl;
    try discriminate; try reflexivity.
  rewrite !Qc_ltb_lt. apply Qclt_trans.
Qed.

Lemma num_le_lt_le (a b c : number) :
  num_le a b = true -> num_lt b c = true -> num_le a c = true.
Proof.
  destruct a as [| | |x], b as [| | |y], c as [| | |z]; simpl;
    try discriminate; try reflexivity.
  rewrite !Qc_leb_le, Qc_ltb_lt. intros H1 H2.
  apply Qclt_le_weak. now apply Qcle_lt_trans with y.
Qed.

(** Two numbers of which neither is [NaN] are comparable. *)
Lemma num_not_lt_le (a b : number) :
  a <> NaN -> b <> NaN -> num_lt a b = false -> num_le b a = true.
Proof.
  destruct a as [| | |x], b as [| | |y]; simpl;
    try discriminate; try reflexivity; try congruence.
  intros _ _. rewrite Qc_leb_le. apply Qc_ltb_false.
Qed.

(** *** Rounding keeps the sign *)

Lemma pow2_pos (z : Z) : (0 < pow2 z)%Q.
Proof. apply Qpower_0_lt. reflexivity. Qed.

Lemma round_half_even_nonneg (x : Q) :
  (0 <= x)%Q -> 0 <= round_half_even x.
Proof.
  intros Hx. unfold round_half_even.
  assert (Hf : 0 <= Qfloor x) by (apply (Qfloor_resp_le 0 x Hx)).
  destruct (x - inject_Z (Qfloor x) ?= 1 # 2)%Q; [destruct (Z.even _)|..];
    lia.
Qed.

Lemma Q2Qc_nonneg (r : Q) : (0 <= r)%Q -> Qc_leb (qz 0) (Q2Qc r) = true.
Proof.
  intros Hr. apply Qle_bool_iff. simpl. now rewrite Qred_correct.
Qed.

Lemma round64_pos_nonneg (x : Q) :
  (0 < x)%Q -> num_le (num 0) (round64_pos x) = true.
Proof.
  intros Hx. unfold round64_pos, rounded.
  destruct (Qle_bool _ _); [reflexivity|].
  apply Q2Qc_nonneg.
  apply Qmult_le_0_compat; [|apply Qlt_le_weak, pow2_pos].
  change 0%Q with (inject_Z 0). rewrite <- Zle_Qle.
  apply round_half_even_nonneg.
  apply Qle_shift_div_l; [apply pow2_pos|].
  rewrite Qmult_0_l. now apply Qlt_le_weak.
Qed.

(** The double nearest to a number that is not negative is not negative:
    it is 0 when the number is too small, an infinity when it is too
    large. *)
Lemma round64_nonneg (x : Qc) :
  (0 <= x)%Qc -> num_le (num 0) (round64 x) = true.
Proof.
  intros Hx. unfold round64.
  destruct (x ?= 0)%Q eqn:E.
  - now apply Qc_leb_le.
  - exfalso. apply Qlt_alt in E. now apply (Qle_not_lt _ _ Hx).
  - apply round64_pos_nonneg. now apply Qgt_alt in E.
Qed.

(** The product of two numbers above 0 is not below 0; it can be 0, when
    the product is too small for a double. *)
Lemma num_mul_nonneg (a b : number) :
  num_lt (num 0) a = true -> num_lt (num 0) b = true ->
  num_le (num 0) (num_mul a b) = true.
Proof.
  destruct a as [| | |x], b as [| | |y]; simpl;
    try discriminate; try reflexivity.
  - rewrite Qc_ltb_lt. intros _ H. now rewrite (Qsgn_pos y H).
  - rewrite Qc_ltb_lt. intros H _. now rewrite (Qsgn_pos x H).
  - rewrite !Qc_ltb_lt, qz_0. intros Hx Hy.
    apply round64_nonneg, Qclt_le_weak. now apply Qcmult_pos_pos.
Qed.

Lemma num_le_lt_lt (a b c : number) :
  num_le a b = true -> num_lt b c = true -> num_lt a c = true.
Proof.
  destruct a as [| | |x], b as [| | |y], c as [| | |z]; simpl;
    try discriminate; try reflexivity.
  rewrite Qc_leb_le, !Qc_ltb_lt. apply Qcle_lt_trans.
Qed.

Lemma num_le_trans (a b c : number) :
  num_le a b = true -> num_le b c = true -> num_le a c = true.
Proof.
  destruct a as [| | |x], b as [| | |y], c as [| | |z]; simpl;
    try discriminate; try reflexivity.
  rewrite !Qc_leb_le. apply Qcle_trans.
Qed.

Lemma num_le_not_NaN (a b : number) :
  num_le a b = true -> a <> NaN /\ b <> NaN.
Proof. destruct a, b; simpl; try discriminate; split; discriminate. Qed.

Lemma num_lt_le_weak (a b : number) :
  num_lt a b = true -> num_le a b = true.
Proof.
  destruct a as [| | |x], b as [| | |y]; simpl;
    try discriminate; try reflexivity.
  rewrite Qc_ltb_lt, Qc_leb_le. apply Qclt_le_weak.
Qed.

Lemma num_lt_not_NaN (a b : number) :
  num_lt a b = true -> a <> NaN /\ b <> NaN.
Proof. destruct a, b; simpl; try discriminate; split; discriminate. Qed.

(** *** Powers of two and the binade of a number *)

Lemma pow2_add (a b : Z) : (pow2 (a + b) == pow2 a * pow2 b)%Q.
Proof. apply Qpower_plus. discriminate. Qed.

Lemma pow2_le (a b : Z) : a <= b -> (pow2 a <= pow2 b)%Q.
Proof. intros H. apply Qpower_le_compat_l; [exact H|discriminate]. Qed.

Lemma pow2_lt_inv (a b : Z) : (pow2 a < pow2 b)%Q -> a < b.
Proof. intros H. apply (Qpower_lt_compat_l_inv 2); [exact H|reflexivity]. Qed.

Lemma pow2_inject (n : Z) : 0 <= n -> (inject_Z (2 ^ n) == pow2 n)%Q.
Proof. intros H. now apply Zpower_Qpower. Qed.

(** [2^(ilog2 x) <= x < 2^(ilog2 x + 1)] *)
Lemma ilog2_spec (x : Q) :
  (0 < x)%Q -> (pow2 (ilog2 x) <= x /\ x < pow2 (ilog2 x + 1))%Q.
Proof.
  intros Hx. destruct x as [a b].
  assert (Ha : 0 < a) by (unfold Qlt in Hx; simpl in Hx; lia).
  unfold ilog2. cbn [Qnum Qden].
  set (la := Z.log2 a). set (lb := Z.log2 (Zpos b)).
  assert (Hla : 0 <= la) by apply Z.log2_nonneg.
  assert (Hlb : 0 <= lb) by apply Z.log2_nonneg.
  destruct (Z.log2_spec a Ha) as [Ha1 Ha2]. fold la in Ha1, Ha2.
  destruct (Z.log2_spec (Zpos b) (Pos2Z.is_pos b)) as [Hb1 Hb2].
  fold lb in Hb1, Hb2.
  assert (Qa1 : (pow2 la <= inject_Z a)%Q).
  { rewrite <- pow2_inject by exact Hla. now rewrite <- Zle_Qle. }
  assert (Qa2 : (inject_Z a < pow2 (la + 1))%Q).
  { rewrite <- pow2_inject by lia. now rewrite <- Zlt_Qlt. }
  assert (Qb1 : (pow2 lb <= inject_Z (Zpos b))%Q).
  { rewrite <- pow2_inject by exact Hlb. now rewrite <- Zle_Qle. }
  assert (Qb2 : (inject_Z (Zpos b) < pow2 (lb + 1))%Q).
  { rewrite <- pow2_inject by lia. now rewrite <- Zlt_Qlt. }
  assert (Hb0 : (0 < inject_Z (Zpos b))%Q) by reflexivity.
  set (k := la - lb).
  assert (E1 : (pow2 la == pow2 (k - 1) * pow2 (lb + 1))%Q).
  { rewrite <- pow2_add. now replace (k - 1 + (lb + 1)) with la by (unfold k; lia). }
  assert (E2 : (pow2 (la + 1) == pow2 (k + 1) * pow2 lb)%Q).
  { rewrite <- pow2_add. now replace (k + 1 + lb) with (la + 1) by (unfold k; lia). }
  pose proof (pow2_pos (k - 1)) as P1. pose proof (pow2_pos (k + 1)) as P2.
  assert (Lo : (pow2 (k - 1) <= a # b)%Q).
  { rewrite (Qmake_Qdiv a b). apply Qle_shift_div_l; [exact Hb0|]. nra. }
  assert (Hi : (a # b < pow2 (k + 1))%Q).
  { rewrite (Qmake_Qdiv a b). apply Qlt_shift_div_r; [exact Hb0|]. nra. }
  destruct (Qle_bool (pow2 k) (a # b)) eqn:E.
  - apply Qle_bool_iff in E. split; [exact E|exact Hi].
  - assert (Hlt : (a # b < pow2 k)%Q).
    { apply Qnot_le_lt. intros H. apply Qle_bool_iff in H. congruence. }
    split; [exact Lo|]. now replace (k - 1 + 1) with k by lia.
Qed.

Lemma ilog2_mono (x y : Q) :
  (0 < x)%Q -> (x <= y)%Q -> ilog2 x <= ilog2 y.
Proof.
  intros Hx Hxy.
  assert (Hy : (0 < y)%Q) by lra.
  destruct (ilog2_spec x Hx) as [Hx1 _].
  destruct (ilog2_spec y Hy) as [_ Hy2].
  assert (H : ilog2 x < ilog2 y + 1) by (apply pow2_lt_inv; lra).
  lia.
Qed.

Lemma round_half_even_bounds (x : Q) :
  Qfloor x <= round_half_even x <= Qfloor x + 1.
Proof.
  unfold round_half_even.
  destruct (x - inject_Z (Qfloor x) ?= 1 # 2)%Q; [destruct (Z.even _)|..];
    lia.
Qed.

Lemma round_half_even_mono (x y : Q) :
  (x <= y)%Q -> round_half_even x <= round_half_even y.
Proof.
  intros Hxy.
  pose proof (Qfloor_resp_le x y Hxy) as Hf.
  pose proof (round_half_even_bounds x) as Bx.
  pose proof (round_half_even_bounds y) as By.
  destruct (Z.eq_dec (Qfloor x) (Qfloor y)) as [E|E]; [|lia].
  unfold round_half_even. rewrite <- E.
  destruct (Qcompare_spec (x - inject_Z (Qfloor x)) (1 # 2)) as [Hx|Hx|Hx],
           (Qcompare_spec (y - inject_Z (Qfloor x)) (1 # 2)) as [Hy|Hy|Hy];
    try (destruct (Z.even (Qfloor x))); try lia; exfalso; lra.
Qed.

Lemma round_half_even_Z (n : Z) : round_half_even (inject_Z n) = n.
Proof.
  unfold round_half_even. rewrite Qfloor_Z.
  destruct (Qcompare_spec (inject_Z n - inject_Z n) (1 # 2)) as [H|H|H];
    try reflexivity; exfalso; lra.
Qed.

Lemma round_half_even_le (x : Q) (n : Z) :
  (x <= inject_Z n)%Q -> round_half_even x <= n.
Proof.
  intros H. rewrite <- (round_half_even_Z n). now apply round_half_even_mono.
Qed.

Lemma round_half_even_ge (x : Q) (n : Z) :
  (inject_Z n <= x)%Q -> n <= round_half_even x.
Proof.
  intros H. rewrite <- (round_half_even_Z n). now apply round_half_even_mono.
Qed.

Lemma rounded_mono (x y : Q) :
  (0 < x)%Q -> (x <= y)%Q -> (rounded x <= rounded y)%Q.
Proof.
  intros Hx Hxy. assert (Hy : (0 < y)%Q) by lra.
  unfold rounded.
  pose proof (ilog2_mono x y Hx Hxy) as Hl.
  set (ex := binade x). set (ey := binade y).
  assert (He : ex <= ey) by (unfold ex, ey, binade; lia).
  pose proof (pow2_pos ex) as Px. pose proof (pow2_pos ey) as Py.
  destruct (Z.eq_dec ex ey) as [E|E].
  - rewrite <- E.
    assert (H : round_half_even (x / pow2 ex) <= round_half_even (y / pow2 ex)).
    { apply round_half_even_mono.
      apply Qmult_le_compat_r; [exact Hxy|].
      apply Qlt_le_weak, Qinv_lt_0_compat, Px. }
    apply Qmult_le_compat_r; [now rewrite <- Zle_Qle|lra].
  - assert (Hlt : ex < ey) by lia.
    destruct (ilog2_spec x Hx) as [_ Hx2].
    destruct (ilog2_spec y Hy) as [Hy1 _].
    assert (Hmx : round_half_even (x / pow2 ex) <= 2 ^ 53).
    { apply round_half_even_le. rewrite (pow2_inject 53) by lia.
      apply Qle_shift_div_r; [exact Px|].
      rewrite <- pow2_add.
      apply Qle_trans with (pow2 (ilog2 x + 1)); [lra|].
      apply pow2_le. unfold ex, binade. lia. }
    assert (Hmy : 2 ^ 52 <= round_half_even (y / pow2 ey)).
    { apply round_half_even_ge. rewrite (pow2_inject 52) by lia.
      apply Qle_shift_div_l; [exact Py|].
      rewrite <- pow2_add.
      apply Qle_trans with (pow2 (ilog2 y)); [|exact Hy1].
      apply pow2_le. unfold ex, ey, binade in *. lia. }
    apply Qle_trans with (pow2 53 * pow2 ex)%Q.
    { apply Qmult_le_compat_r; [|lra].
      rewrite <- (pow2_inject 53) by lia. now rewrite <- Zle_Qle. }
    apply Qle_trans with (pow2 52 * pow2 ey)%Q.
    { rewrite <- !pow2_add. apply pow2_le. lia. }
    apply Qmult_le_compat_r; [|lra].
    rewrite <- (pow2_inject 52) by lia. now rewrite <- Zle_Qle.
Qed.

(** *** Rounding keeps the order *)

(** Order on canonical rationals, as order on fractions. *)
Ltac on_fractions :=
  unfold Qcle, Qclt in *; simpl in *;
  change (inject_Z 0) with 0%Q in *; change (Qred 0) with 0%Q in *;
  rewrite ?Qred_correct in *.

Lemma round64_pos_mono (x y : Q) :
  (0 < x)%Q -> (x <= y)%Q ->
  num_le (round64_pos x) (round64_pos y) = true.
Proof.
  intros Hx Hxy. pose proof (rounded_mono x y Hx Hxy) as Hr.
  unfold round64_pos.
  destruct (Qle_bool (pow2 1024) (rounded x)) eqn:Ex,
           (Qle_bool (pow2 1024) (rounded y)) eqn:Ey; try reflexivity.
  - apply Qle_bool_iff in Ex.
    assert (H : Qle_bool (pow2 1024) (rounded y) = true)
      by (apply Qle_bool_iff; lra).
    congruence.
  - apply Qle_bool_iff. simpl. now rewrite !Qred_correct.
Qed.



Lemma num_neg_le (a b : number) :
  num_le a b = true -> num_le (num_neg b) (num_neg a) = true.
Proof.
  destruct a as [| | |x], b as [| | |y]; simpl;
    try discriminate; try reflexivity.
  rewrite !Qc_leb_le. apply Qcopp_le_compat.
Qed.

Lemma round64_nonpos (x : Qc) :
  (x <= 0)%Qc -> num_le (round64 x) (num 0) = true.
Proof.
  intros Hx. unfold round64.
  destruct (Qcompare_spec x 0) as [E|E|E].
  - now apply Qc_leb_le.
  - assert (H : num_le (num 0) (round64_pos (- x)) = true)
      by (apply round64_pos_nonneg; simpl; lra).
    destruct (round64_pos (- x)) as [| | |y]; simpl in *;
      try discriminate; try reflexivity.
    apply Qc_leb_le in H. apply Qc_leb_le.
    on_fractions. lra.
  - exfalso. on_fractions. lra.
Qed.

(** The double nearest to the larger number is not the smaller double. *)
Lemma round64_mono (x y : Qc) :
  (x <= y)%Qc -> num_le (round64 x) (round64 y) = true.
Proof.
  intros Hxy.
  destruct (Qclt_le_dec y 0) as [Hy|Hy].
  - unfold round64.
    destruct (Qcompare_spec x 0) as [E|E|E]; try (exfalso; on_fractions; lra).
    destruct (Qcompare_spec y 0) as [E'|E'|E'];
      try (exfalso; on_fractions; lra).
    apply num_neg_le, round64_pos_mono; on_fractions; lra.
  - destruct (Qclt_le_dec 0 x) as [Hx|Hx].
    + unfold round64.
      destruct (Qcompare_spec x 0) as [E|E|E];
        try (exfalso; on_fractions; lra).
      destruct (Qcompare_spec y 0) as [E'|E'|E'];
        try (exfalso; on_fractions; lra).
      apply round64_pos_mono; [exact E|exact Hxy].
    + apply num_le_trans with (num 0);
        [now apply round64_nonpos|now apply round64_nonneg].
Qed.

(** *** Rounding is near *)

Lemma round_half_even_near (q : Q) :
  (inject_Z (round_half_even q) - (1 # 2) <= q
   /\ q <= inject_Z (round_half_even q) + (1 # 2))%Q.
Proof.
  unfold round_half_even.
  pose proof (Qfloor_le q) as Hlo. pose proof (Qlt_floor q) as Hhi.
  rewrite inject_Z_plus in Hhi. change (inject_Z 1) with 1%Q in Hhi.
  destruct (Qcompare_spec (q - inject_Z (Qfloor q)) (1 # 2)) as [H|H|H];
    [destruct (Z.even (Qfloor q))|..];
    rewrite ?inject_Z_plus; change (inject_Z 1) with 1%Q; lra.
Qed.

Lemma rounded_near (x : Q) :
  (rounded x - pow2 (binade x) * (1 # 2) <= x
   /\ x <= rounded x + pow2 (binade x) * (1 # 2))%Q.
Proof.
  unfold rounded.
  pose proof (pow2_pos (binade x)) as HP.
  set (P := pow2 (binade x)) in *.
  destruct (round_half_even_near (x / P)) as [H1 H2].
  set (m := inject_Z (round_half_even (x / P))) in *.
  assert (E : (x / P * P == x)%Q) by (field; lra).
  nra.
Qed.

Lemma binade_normal (x : Q) :
  (pow2 (-1022) <= x)%Q -> (pow2 (binade x) * pow2 52 <= x)%Q.
Proof.
  intros Hx.
  assert (H0 : (0 < x)%Q) by (pose proof (pow2_pos (-1022)); lra).
  destruct (ilog2_spec x H0) as [Hlo Hhi].
  assert (Hl : -1022 < ilog2 x + 1) by (apply pow2_lt_inv; lra).
  unfold binade. rewrite Z.max_l by lia.
  rewrite <- pow2_add. now replace (ilog2 x - 52 + 52) with (ilog2 x) by lia.
Qed.

(** The relative error of rounding a number that is not subnormal is at
    most [2^-53]. *)
Lemma rounded_relative (x : Q) :
  (pow2 (-1022) <= x)%Q ->
  (x * (1 - pow2 (-53)) <= rounded x /\ rounded x <= x * (1 + pow2 (-53)))%Q.
Proof.
  intros Hx.
  pose proof (binade_normal x Hx) as Hb.
  destruct (rounded_near x) as [H1 H2].
  pose proof (pow2_pos (binade x)) as HP.
  set (P := pow2 (binade x)) in *.
  assert (E52 : (pow2 52 == 4503599627370496)%Q) by reflexivity.
  assert (E53 : (pow2 (-53) == 1 # 9007199254740992)%Q) by reflexivity.
  rewrite E52 in Hb. rewrite E53.
  lra.
Qed.

Lemma round64_relative (x y : Qc) :
  (pow2 (-1022) <= x)%Q -> round64 x = Fin y ->
  (x * (1 - pow2 (-53)) <= y /\ y <= x * (1 + pow2 (-53)))%Q.
Proof.
  intros Hx H.
  assert (H0 : (0 < x)%Q) by (pose proof (pow2_pos (-1022)); lra).
  unfold round64 in H.
  destruct (Qcompare_spec x 0) as [E|E|E]; try (exfalso; lra).
  unfold round64_pos in H.
  destruct (Qle_bool _ _); [discriminate|].
  injection H as <-. simpl. rewrite Qred_correct.
  now apply rounded_relative.
Qed.

Lemma Qcpower_ge_1 (n : nat) : (1 <= qz 10 ^ n)%Qc.
Proof.
  induction n as [|n IH]; simpl.
  - apply Qcle_refl.
  - apply Qcle_trans with (1 * (qz 10 ^ n))%Qc.
    + now rewrite Qcmult_1_l.
    + apply Qcmult_le_compat_r; [now apply Qc_leb_le|].
      apply Qcle_trans with 1%Qc; [now apply Qc_leb_le|exact IH].
Qed.

Lemma pow10_ge_1 (n : Z) : 0 <= n -> (1 <= pow10 n)%Qc.
Proof.
  destruct n as [|k|k]; simpl; intros H.
  - now apply Qc_leb_le.
  - apply Qcpower_ge_1.
  - lia.
Qed.

Lemma pow10_mono (n n' : Z) :
  0 <= n <= n' -> (pow10 n <= pow10 n')%Qc.
Proof.
  intros [H0 H].
  assert (Hnat : forall a b : nat, (a <= b)%nat -> (qz 10 ^ a <= qz 10 ^ b)%Qc).
  { intros a b Hab. induction Hab as [|b Hab IH]; [apply Qcle_refl|].
    apply Qcle_trans with (qz 10 ^ b)%Qc; [exact IH|]. simpl.
    apply Qcle_trans with (1 * (qz 10 ^ b))%Qc.
    - rewrite Qcmult_1_l. apply Qcle_refl.
    - apply Qcmult_le_compat_r; [now apply Qc_leb_le|].
      apply Qcle_trans with 1%Qc; [now apply Qc_leb_le|apply Qcpower_ge_1]. }
  destruct n as [|k|k], n' as [|k'|k']; simpl; try lia.
  - apply Qcle_refl.
  - apply Qcle_trans with 1%Qc; [now apply Qc_leb_le|apply Qcpower_ge_1].
  - apply Hnat. lia.
Qed.

(** *** The operations keep the order *)



Lemma Qc_eqb_pos (p : Qc) : (0 < p)%Qc -> Qc_eqb p (qz 0) = false.
Proof.
  intros Hp. apply Qc_eqb_neq. rewrite qz_0.
  intros ->. now apply Qclt_not_eq in Hp.
Qed.

Lemma Qsgn_pos' (p : Qc) : (0 < p)%Qc -> Qsgn p = 1.
Proof. intros Hp. apply Qsgn_pos. now rewrite qz_0. Qed.









(** *** The error of the sizing formula *)

Lemma this_mul (x y : Qc) : (this (x * y)%Qc == x * y)%Q.
Proof. simpl. apply Qred_correct. Qed.

Lemma this_div (x y : Qc) : (this (x / y)%Qc == x * / y)%Q.
Proof. unfold Qcdiv. simpl. now rewrite !Qred_correct. Qed.

Lemma this_qz (z : Z) : (this (qz z) == inject_Z z)%Q.
Proof. reflexivity. Qed.

Section Algebra.

Local Open Scope Q_scope.

Lemma product_ge_50 (c l : Q) : 50 <= c -> 1 <= l -> 50 <= c * l.
Proof.
  intros Hc Hl.
  assert (H1 : 0 <= (c - 50) * (l - 1)) by (apply Qmult_le_0_compat; lra).
  lra.
Qed.

Lemma normal_product (c l tiny : Q) :
  50 <= c -> 1 <= l -> 4 * tiny <= 1 -> 4 * tiny <= c * l.
Proof.
  intros Hc Hl Htiny.
  assert (H1 : 0 <= (c - 50) * (l - 1)) by (apply Qmult_le_0_compat; lra).
  lra.
Qed.

Lemma normal_quotient (a t ip tiny : Q) :
  50 <= a -> a * (1 - u53) <= t -> 0 < tiny -> tiny <= ip ->
  25 * tiny <= t * ip.
Proof.
  unfold u53. intros Ha Ht Htiny Hip.
  assert (H2 : 0 <= (t - 25) * ip) by (apply Qmult_le_0_compat; lra).
  lra.
Qed.

Lemma normal_scaled (x q m tiny : Q) :
  25 * tiny <= x -> x * (1 - u53) <= q -> 0 < tiny -> 1 <= m ->
  4 * tiny <= q * m.
Proof.
  unfold u53. intros Hx Hq Htiny Hm.
  assert (H2 : 0 <= q * (m - 1)) by (apply Qmult_le_0_compat; lra).
  lra.
Qed.

Lemma normal_unit (K im small tiny : Q) :
  1 <= K -> small <= im -> 0 < small -> 4 * tiny <= small ->
  4 * tiny <= K * im.
Proof.
  intros HK Him Hsmall Htiny.
  assert (H1 : 0 <= (K - 1) * im) by (apply Qmult_le_0_compat; lra).
  lra.
Qed.

Lemma sizing_algebra (a ip im m t q s K r : Q) :
  0 <= a -> 0 < ip -> 0 < im -> m * im == 1 ->
  a * (1 - u53) <= t -> t <= a * (1 + u53) ->
  t * ip * (1 - u53) <= q -> q <= t * ip * (1 + u53) ->
  q * m * (1 - u53) <= s -> s <= q * m * (1 + u53) ->
  K <= s -> s < K + 1 ->
  K * im * (1 - u53) <= r -> r <= K * im * (1 + u53) ->
  a * ip * (1 - u50) - im < r /\ r <= a * ip * (1 + u50).
Proof.
  intros Ha Hip Him Em F1l F1u F2l F2u F3l F3u F4l F4u F5l F5u.
  assert (G2l : a * (1 - u53) * ip <= t * ip)
    by (apply Qmult_le_compat_r; [exact F1l|lra]).
  assert (G2u : t * ip <= a * (1 + u53) * ip)
    by (apply Qmult_le_compat_r; [exact F1u|lra]).
  assert (G3u : s * im <= q * m * (1 + u53) * im)
    by (apply Qmult_le_compat_r; [exact F3u|lra]).
  assert (G3l : q * m * (1 - u53) * im <= s * im)
    by (apply Qmult_le_compat_r; [exact F3l|lra]).
  assert (Eq1 : q * m * (1 + u53) * im == q * (1 + u53) * (m * im)) by ring.
  assert (Eq2 : q * m * (1 - u53) * im == q * (1 - u53) * (m * im)) by ring.
  rewrite Eq1, Em in G3u. rewrite Eq2, Em in G3l.
  assert (G4l : K * im <= s * im)
    by (apply Qmult_le_compat_r; [exact F4l|lra]).
  assert (G4u : s * im < (K + 1) * im)
    by (apply Qmult_lt_compat_r; [exact Him|exact F4u]).
  assert (H0 : 0 <= a * ip) by (apply Qmult_le_0_compat; lra).
  unfold u53, u50 in *. split; lra.
Qed.

Lemma notional_algebra (s l il c p ip q : Q) :
  0 < l -> l * il == 1 -> 0 < p -> p * ip == 1 -> 0 <= s ->
  c <= s * il * (1 + u53) ->
  q <= c * l * ip * (1 + u50) ->
  q * p <= s * (1 + (1 # 562949953421312)).
Proof.
  intros Hl El Hp Ep Hs Hc Hq.
  assert (H1 : q * p <= c * l * ip * (1 + u50) * p)
    by (apply Qmult_le_compat_r; [exact Hq|lra]).
  assert (E1 : c * l * ip * (1 + u50) * p == c * l * (1 + u50) * (p * ip))
    by ring.
  rewrite E1, Ep in H1.
  assert (H2 : c * l <= s * il * (1 + u53) * l)
    by (apply Qmult_le_compat_r; [exact Hc|lra]).
  assert (E2 : s * il * (1 + u53) * l == s * (1 + u53) * (l * il)) by ring.
  rewrite E2, El in H2.
  unfold u53, u50 in *. lra.
Qed.

End Algebra.

Lemma round64_1 : round64 (qz 1) = Fin (qz 1).
Proof. vm_compute. apply (f_equal Fin), Qc_is_canon. reflexivity. Qed.

(** A collateral that rounds to 50 or more is a quotient of 1 or more. *)
Lemma collateral_normal (x c : Qc) :
  round64 x = Fin c -> (qz 50 <= c)%Qc -> (1 <= x)%Q.
Proof.
  intros Hx Hc.
  destruct (Qlt_le_dec x 1) as [H|H]; [exfalso|exact H].
  assert (Hle : (x <= qz 1)%Qc) by (apply Qlt_le_weak; exact H).
  apply round64_mono in Hle. rewrite Hx, round64_1 in Hle.
  simpl in Hle. apply Qc_leb_le in Hle.
  assert (H1 : (qz 50 <= qz 1)%Qc) by now apply Qcle_trans with c.
  apply Qc_leb_le in H1. discriminate H1.
Qed.


Lemma num_div_Fin_inv (a : number) (p r : Qc) :
  (0 < p)%Qc -> num_div a (Fin p) = Fin r ->
  exists x, a = Fin x /\ round64 (x / p) = Fin r.
Proof.
  intros Hp.
  destruct a as [| | |x]; simpl;
    rewrite ?(Qsgn_pos' p Hp), ?(Qc_eqb_pos p Hp); simpl;
    try discriminate.
  eauto.
Qed.

Lemma num_mul_Fin_inv (a : number) (m r : Qc) :
  (0 < m)%Qc -> num_mul a (Fin m) = Fin r ->
  exists x, a = Fin x /\ round64 (x * m) = Fin r.
Proof.
  intros Hm.
  destruct a as [| | |x]; simpl; rewrite ?(Qsgn_pos' m Hm); simpl;
    try discriminate.
  eauto.
Qed.

Lemma Math_floor_Fin_inv (a : number) (r : Qc) :
  Math_floor a = Fin r -> exists x, a = Fin x /\ r = qz (Qfloor x).
Proof. destruct a as [| | |x]; simpl; try discriminate. intros [= <-]. eauto. Qed.

(** The formula is accurate to [2^-50] of the exact quantity, and falls
    short of it by less than one unit of the last place kept besides. *)
Lemma formula_accuracy (c p leverage r : Qc) (n : Z) :
  (qz 50 <= c)%Qc -> (0 < p)%Qc -> (p <= pow2 1024)%Q ->
  0 <= n <= 22 -> (1 <= leverage)%Qc ->
  num_div
    (Math_floor
       (num_mul (num_div (num_mul (Fin c) (Fin leverage)) (Fin p))
          (Fin (pow10 n))))
    (Fin (pow10 n)) = Fin r ->
  let exact := (c * leverage / p)%Q in
  (exact * (1 - pow2 (-50)) - / pow10 n < r /\
   r <= exact * (1 + pow2 (-50)))%Q.
Proof.
  intros H50 Hp0 Hpmax Hrange Hl1 Hr exact.
  pose proof (pow10_pos n) as Hm0.
  pose proof (pow10_ge_1 n (proj1 Hrange)) as Hm1.
  pose proof (pow10_mono n 22 Hrange) as Hm22.
  set (m := pow10 n) in *.
  apply (num_div_Fin_inv _ _ _ Hm0) in Hr as (k & Hk & Hr).
  apply Math_floor_Fin_inv in Hk as (s & Hs & ->).
  apply (num_mul_Fin_inv _ _ _ Hm0) in Hs as (q & Hq & Hs).
  apply (num_div_Fin_inv _ _ _ Hp0) in Hq as (t & Ht & Hq).
  simpl in Ht.
  (* the facts, on fractions *)
  assert (HC : (50 <= c)%Q) by exact H50.
  assert (HL : (1 <= leverage)%Q) by exact Hl1.
  assert (HP0 : (0 < p)%Q) by exact Hp0.
  assert (HM0 : (0 < m)%Q) by exact Hm0.
  assert (HM1 : (1 <= m)%Q) by exact Hm1.
  assert (HM22 : (m <= 10000000000000000000000)%Q) by exact Hm22.
  clear H50 Hl1 Hp0 Hm0 Hm1 Hm22.
  pose proof (Qinv_lt_0_compat p HP0) as Hip.
  pose proof (Qinv_lt_0_compat m HM0) as Him.
  assert (Ep : (p * / p == 1)%Q) by (apply Qmult_inv_r; lra).
  assert (Em : (m * / m == 1)%Q) by (apply Qmult_inv_r; lra).
  assert (Hu : (pow2 (-53) == u53)%Q) by reflexivity.
  assert (E50 : (pow2 (-50) == u50)%Q) by reflexivity.
  assert (Htiny : (0 < pow2 (-1024))%Q) by apply pow2_pos.
  assert (Htiny4 : (4 * pow2 (-1024) <= 1)%Q) by (vm_compute; discriminate).
  assert (E1022 : (pow2 (-1022) == 4 * pow2 (-1024))%Q) by reflexivity.
  assert (E1024 : (pow2 1024 * pow2 (-1024) == 1)%Q) by reflexivity.
  assert (Hsmall : (4 * pow2 (-1024) <= 1 # 10000000000000000000000)%Q)
    by (vm_compute; discriminate).
  assert (Hip' : (pow2 (-1024) <= / p)%Q).
  { assert (H1 : (p * pow2 (-1024) <= pow2 1024 * pow2 (-1024))%Q)
      by (apply Qmult_le_compat_r; [exact Hpmax|lra]).
    rewrite E1024, <- Ep in H1.
    apply Qmult_le_l in H1; [exact H1|exact HP0]. }
  assert (Him' : ((1 # 10000000000000000000000) <= / m)%Q).
  { assert (H1 : (m * (1 # 10000000000000000000000)
                  <= 10000000000000000000000
                     * (1 # 10000000000000000000000))%Q)
      by (apply Qmult_le_compat_r; [exact HM22|discriminate]).
    assert (E : (10000000000000000000000
                 * (1 # 10000000000000000000000) == 1)%Q) by reflexivity.
    rewrite E, <- Em in H1.
    apply Qmult_le_l in H1; [exact H1|exact HM0]. }
  unfold exact, Qdiv. rewrite E50. clear exact E50 Hpmax E1024 HM22.
  (* the four roundings *)
  destruct (round64_relative (c * leverage) t) as [F1l F1u]; [|exact Ht|].
  { rewrite this_mul, E1022. now apply normal_product. }
  rewrite this_mul, Hu in F1l, F1u.
  assert (N2 : (25 * pow2 (-1024) <= t * / p)%Q).
  { apply (normal_quotient (c * leverage)); try assumption.
    now apply product_ge_50. }
  destruct (round64_relative (t / p) q) as [F2l F2u]; [|exact Hq|].
  { rewrite this_div, E1022. lra. }
  rewrite this_div, Hu in F2l, F2u.
  destruct (round64_relative (q * m) s) as [F3l F3u]; [|exact Hs|].
  { rewrite this_mul, E1022.
    now apply (normal_scaled (t * / p)). }
  rewrite this_mul, Hu in F3l, F3u.
  pose proof (Qfloor_le s) as F4l. pose proof (Qlt_floor s) as F4u.
  rewrite inject_Z_plus in F4u. change (inject_Z 1) with 1%Q in F4u.
  assert (Hs0 : (0 <= s)%Q).
  { apply Qle_trans with (q * m * (1 - u53))%Q; [|exact F3l].
    assert (Hqm : (4 * pow2 (-1024) <= q * m)%Q)
      by now apply (normal_scaled (t * / p)).
    apply Qmult_le_0_compat; [lra|discriminate]. }
  assert (Hk0 : 0 <= Qfloor s) by apply (Qfloor_resp_le 0 s Hs0).
  assert (F5 : (inject_Z (Qfloor s) * / m * (1 - u53) <= r /\
                r <= inject_Z (Qfloor s) * / m * (1 + u53))%Q).
  { destruct (Z.eq_dec (Qfloor s) 0) as [E0|E0].
    - rewrite E0 in *. unfold round64 in Hr.
      assert (Ez : (this (qz 0 / m)%Qc == 0)%Q).
      { rewrite this_div. change (this (qz 0)) with 0%Q. lra. }
      destruct (Qcompare_spec (qz 0 / m)%Qc 0) as [E|E|E];
        try (exfalso; lra).
      injection Hr as <-. rewrite Ez. change (inject_Z 0) with 0%Q. lra.
    - destruct (round64_relative (qz (Qfloor s) / m) r) as [F5l F5u];
        [|exact Hr|].
      + rewrite this_div, this_qz, E1022.
        apply (normal_unit _ _ (1 # 10000000000000000000000));
          [|assumption|reflexivity|assumption].
        change 1%Q with (inject_Z 1). rewrite <- Zle_Qle. lia.
      + rewrite this_div, this_qz, Hu in F5l, F5u.
        split; assumption. }
  destruct F5 as [F5l F5u].
  apply (sizing_algebra (c * leverage) (/ p) (/ m) m t q s
           (inject_Z (Qfloor s)) r); try assumption.
  apply Qle_trans with (4 * pow2 (-1024))%Q; [lra|].
  now apply normal_product.
Qed.

(** ** [helpers.js] *)

(** C9. [getBinanceSide] on the four combinations of its two booleans:
    opening a long buys, closing a long sells, opening a short sells and
    closing a short buys; being a function on [bool * bool] with these four
    values, it has a result on every input. *)
Theorem getBinanceSide_table :
  getBinanceSide true false = BUY /\
  getBinanceSide true true = SELL /\
  getBinanceSide false false = SELL /\
  getBinanceSide false true = BUY /\
  (forall isLong isClosed : bool,
     getBinanceSide isLong isClosed = BUY \/
     getBinanceSide isLong isClosed = SELL).
Proof.
  repeat split.
  intros [] []; simpl; auto.
Qed.

Section Sizing.

Variable rt : Runtime.
Variable defaultLeverages : value.

Local Notation calculateSize :=
  (calculateSizeInMarketToken rt defaultLeverages).
Local Notation Number := (ToNumber rt).

(** C5. A collateral below 50 gives 0 whatever the price and the precision
    are, and so does a collateral or a price that is non-numeric or not
    above 0. *)
Theorem calculateSize_rejects (collateral price precision : value) :
  num_lt (Number collateral) (num 50) = true \/
  non_numeric rt collateral \/ num_le (Number collateral) (num 0) = true \/
  non_numeric rt price \/ num_le (Number price) (num 0) = true ->
  fst (calculateSize collateral price precision) = num 0.
Proof.
  unfold non_numeric, calculateSizeInMarketToken, MIN_COLLATERAL.
  fold (non_numeric rt).
  intros H.
  destruct (negb (num_truthy (Number collateral)) || isNaN (Number collateral)
            || num_le (Number collateral) (num 0)) eqn:Hc; [reflexivity|].
  destruct (negb (num_truthy (Number price)) || isNaN (Number price)
            || num_le (Number price) (num 0)) eqn:Hp; [reflexivity|].
  destruct (num_lt (Number collateral) (num 50)) eqn:Hmin; [reflexivity|].
  exfalso.
  apply orb_false_elim in Hc as [Hc Hc0]. apply orb_false_elim in Hc as [_ Hcn].
  apply orb_false_elim in Hp as [Hp Hp0]. apply orb_false_elim in Hp as [_ Hpn].
  destruct H as [H|[H|[H|[H|H]]]]; try congruence.
  - rewrite H in Hcn. discriminate.
  - rewrite H in Hpn. discriminate.
Qed.

Lemma accepted_collateral (c : Qc) :
  (qz 50 <= c)%Qc ->
  negb (num_truthy (Fin c)) || isNaN (Fin c) || num_le (Fin c) (num 0) = false
  /\ num_lt (Fin c) MIN_COLLATERAL = false.
Proof.
  intros Hc.
  assert (H0 : (qz 0 < c)%Qc).
  { apply Qclt_le_trans with (qz 50); [|exact Hc]. now apply Qc_ltb_lt. }
  simpl. split.
  - rewrite !orb_false_r. apply orb_false_intro.
    + apply negb_false_iff, negb_true_iff, Qc_eqb_neq.
      intros ->. now apply Qclt_not_eq in H0.
    + apply not_true_iff_false. rewrite Qc_leb_le.
      now apply Qclt_not_le.
  - apply not_true_iff_false. rewrite Qc_ltb_lt.
    now apply Qcle_not_lt.
Qed.

Lemma accepted_price (p : Qc) :
  (0 < p)%Qc ->
  negb (num_truthy (Fin p)) || isNaN (Fin p) || num_le (Fin p) (num 0) = false
  /\ Qc_eqb p (qz 0) = false.
Proof.
  intros Hp. rewrite <- qz_0 in Hp.
  assert (Hne : Qc_eqb p (qz 0) = false).
  { apply Qc_eqb_neq. intros ->. now apply Qclt_not_eq in Hp. }
  split; [|exact Hne]. simpl.
  rewrite !orb_false_r. apply orb_false_intro.
  - now rewrite Hne.
  - apply not_true_iff_false. rewrite Qc_leb_le.
    now apply Qclt_not_le.
Qed.

(** A result above 0 has been computed from a price above 0. *)
Lemma calculateSize_pos_price (collateral price precision : value) :
  num_lt (num 0) (fst (calculateSize collateral price precision)) = true ->
  num_lt (num 0) (Number price) = true.
Proof.
  unfold calculateSizeInMarketToken.
  destruct (negb (num_truthy (Number collateral)) || isNaN (Number collateral)
            || num_le (Number collateral) (num 0)); [discriminate|].
  destruct (negb (num_truthy (Number price)) || isNaN (Number price)
            || num_le (Number price) (num 0)) eqn:Hp; [discriminate|].
  intros _. apply num_accepted_pos.
  apply orb_false_elim in Hp as [Hp Hp0]. apply orb_false_elim in Hp as [Hp _].
  now rewrite Hp, Hp0.
Qed.

(** A number that is not below 0 is [Infinity] or a rational that is not
    below 0. *)
Lemma nonneg_cases (a : number) :
  num_le (num 0) a = true ->
  a = PosInf \/ exists y, a = Fin y /\ (0 <= y)%Qc.
Proof.
  destruct a as [| | |y]; simpl; try discriminate; auto.
  rewrite Qc_leb_le, qz_0. eauto.
Qed.

(** The quantity before it is scaled, for a collateral above 0, a leverage
    that is not below 0 and a price above 0. *)
Lemma quantity_nonneg (c l p : Qc) :
  (0 < c)%Qc -> (0 <= l)%Qc -> (0 < p)%Qc ->
  num_le (num 0) (num_div (num_mul (Fin c) (Fin l)) (Fin p)) = true.
Proof.
  intros Hc Hl Hp.
  assert (Hp0 : Qc_eqb p (qz 0) = false).
  { apply Qc_eqb_neq. rewrite qz_0. intros ->. now apply Qclt_not_eq in Hp. }
  assert (Ht : num_le (num 0) (num_mul (Fin c) (Fin l)) = true).
  { apply round64_nonneg, Qcmult_nonneg_nonneg;
      [now apply Qclt_le_weak|exact Hl]. }
  destruct (nonneg_cases _ Ht) as [->|(t & -> & Ht0)]; simpl.
  - rewrite <- qz_0 in Hp. now rewrite (Qsgn_pos p Hp).
  - rewrite Hp0. apply round64_nonneg.
    unfold Qcdiv. apply Qcmult_nonneg_nonneg; [exact Ht0|].
    now apply Qclt_le_weak, Qcinv_pos.
Qed.

(** Past its guards the function computes its formula. *)
Lemma calculateSize_computes (collateral price precision : value)
    (c p : Qc) :
  Number collateral = Fin c -> (qz 50 <= c)%Qc ->
  Number price = Fin p -> (0 < p)%Qc ->
  fst (calculateSize collateral price precision)
  = let multiplier := Math_pow10 rt (Number precision) in
    num_div
      (Math_floor
         (num_mul
            (num_div
               (num_mul (Fin c) (Number (DEFAULT_LEVERAGE defaultLeverages)))
               (Fin p))
            multiplier))
      multiplier.
Proof.
  intros Hc Hc50 Hp Hp0.
  destruct (accepted_collateral c Hc50) as [Hc1 Hc2].
  destruct (accepted_price p Hp0) as [Hp1 Hp2].
  unfold calculateSizeInMarketToken.
  rewrite Hc, Hp, Hc1, Hp1, Hc2. reflexivity.
Qed.

(** The powers of ten that are doubles. *)
Lemma Math_pow10_exact (n : Z) :
  0 <= n <= 22 -> Math_pow10 rt (Fin (qz n)) = Fin (pow10 n).
Proof.
  intros Hn. unfold Math_pow10. rewrite Qc_integer_qz.
  destruct (Z.leb_spec 0 n), (Z.leb_spec n 22); try lia. reflexivity.
Qed.

(** A size above 0 has passed the three guards. *)
Lemma calculateSize_pos_inv (collateral price precision : value) :
  num_lt (num 0) (fst (calculateSize collateral price precision)) = true ->
  num_lt (num 0) (Number price) = true /\
  num_lt (Number collateral) (num 50) = false /\
  Number collateral <> NaN /\
  fst (calculateSize collateral price precision)
  = let multiplier := Math_pow10 rt (Number precision) in
    num_div
      (Math_floor
         (num_mul
            (num_div
               (num_mul (Number collateral)
                  (Number (DEFAULT_LEVERAGE defaultLeverages)))
               (Number price))
            multiplier))
      multiplier.
Proof.
  intros Hpos.
  pose proof (calculateSize_pos_price _ _ _ Hpos) as Hp.
  revert Hpos. unfold calculateSizeInMarketToken, MIN_COLLATERAL.
  destruct (negb (num_truthy (Number collateral)) || isNaN (Number collateral)
            || num_le (Number collateral) (num 0)) eqn:Hc; [discriminate|].
  destruct (negb (num_truthy (Number price)) || isNaN (Number price)
            || num_le (Number price) (num 0)); [discriminate|].
  destruct (num_lt (Number collateral) (num 50)) eqn:Hmin; [discriminate|].
  intros _. repeat split; try assumption.
  intros E. rewrite E in Hc. discriminate Hc.
Qed.

(** C3, as the code has it. For a collateral of at least 50 and a price
    above 0 the result is [Math.floor(quantity * multiplier) / multiplier]
    with [quantity = collateral * LEVERAGE / price] and
    [multiplier = Math.pow(10, precision)], every operation giving the
    nearest double. For a precision [n] from 0 to 22 the multiplier is
    [10^n] itself, the result is the double nearest to [k / 10^n] for the
    integer [k] that is the floor of the scaled quantity, and that floor is
    the truncation toward zero when the leverage is not negative. The
    leverage is the property [binance] of [defaultLeverages] when that is
    truthy, and 20 otherwise. *)
Theorem calculateSize_formula (collateral price precision : value)
    (c p : Qc) :
  Number collateral = Fin c -> (qz 50 <= c)%Qc ->
  Number price = Fin p -> (0 < p)%Qc ->
  let LEVERAGE := Number (DEFAULT_LEVERAGE defaultLeverages) in
  let multiplier := Math_pow10 rt (Number precision) in
  let scaled :=
    num_mul (num_div (num_mul (Fin c) LEVERAGE) (Fin p)) multiplier in
  let result := fst (calculateSize collateral price precision) in
  result = num_div (Math_floor scaled) multiplier /\
  (forall n : Z,
     Number precision = Fin (qz n) -> 0 <= n <= 22 ->
     multiplier = Fin (pow10 n) /\
     (forall s, scaled = Fin s ->
        result = round64 (qz (Qfloor s) / pow10 n)%Qc /\
        (forall l, LEVERAGE = Fin l -> (0 <= l)%Qc ->
           Qfloor s = Z.quot (Qnum s) (Zpos (Qden s))))) /\
  (forall fields,
     defaultLeverages = VObj fields ->
     DEFAULT_LEVERAGE defaultLeverages
     = if truthy (assoc "binance" fields) then assoc "binance" fields
       else VNum (num 20)) /\
  ((forall fields, defaultLeverages <> VObj fields) ->
   DEFAULT_LEVERAGE defaultLeverages = VNum (num 20)).
Proof.
  intros Hc Hc50 Hp Hp0 LEVERAGE multiplier scaled result.
  assert (Hres : result = num_div (Math_floor scaled) multiplier)
    by now apply calculateSize_computes.
  split; [exact Hres|]. split; [|split].
  - intros n Hn Hrange.
    assert (Hm : multiplier = Fin (pow10 n)).
    { unfold multiplier. rewrite Hn. now apply Math_pow10_exact. }
    split; [exact Hm|]. intros s Hs. split.
    + rewrite Hres, Hs, Hm. simpl.
      assert (Hz : Qc_eqb (pow10 n) (qz 0) = false).
      { apply Qc_eqb_neq. rewrite qz_0. apply pow10_nonzero. }
      now rewrite Hz.
    + intros l Hl Hl0. apply Qfloor_truncates.
      assert (H0c : (0 < c)%Qc).
      { apply Qclt_le_trans with (qz 50); [|exact Hc50]. now apply Qc_ltb_lt. }
      pose proof (quantity_nonneg c l p H0c Hl0 Hp0) as Hq.
      unfold scaled in Hs. rewrite Hl, Hm in Hs.
      destruct (nonneg_cases _ Hq) as [E|(q & E & Hq0)]; rewrite E in Hs.
      * simpl in Hs. rewrite (Qsgn_pos (pow10 n)) in Hs; [discriminate|].
        rewrite qz_0. apply pow10_pos.
      * assert (Hs0 : num_le (num 0) (num_mul (Fin q) (Fin (pow10 n))) = true).
        { apply round64_nonneg, Qcmult_nonneg_nonneg; [exact Hq0|].
          apply Qclt_le_weak, pow10_pos. }
        rewrite Hs in Hs0. simpl in Hs0.
        apply Qc_leb_le in Hs0. now rewrite qz_0 in Hs0.
  - intros fields ->. reflexivity.
  - intros Hno. unfold DEFAULT_LEVERAGE, configured_leverage.
    destruct defaultLeverages; try reflexivity.
    now destruct (Hno fields).
Qed.

(** C4, as the code has it. A collateral of 0.5 at a price of 100000 with a
    precision of 4 is below the minimum of 50 and gives 0, whatever the
    leverage; the formula of the sizing,
    [floor(0.5 * 20 / 100000 * 10^4) / 10^4], has the value 0.0001 there. *)
Theorem calculateSize_half_unit :
  fst (calculateSize (VNum (Fin (qfrac 1 2))) (VNum (num 100000))
         (VNum (num 4))) = num 0 /\
  (qz (Qfloor (qfrac 1 2 * qz 20 / qz 100000 * pow10 4)%Qc) / pow10 4)%Qc
  = qfrac 1 10000.
Proof.
  split.
  - reflexivity.
  - apply Qc_is_canon. vm_compute. reflexivity.
Qed.

End Sizing.

(** ** What a computation does to [unsupportedMarkets] *)

Section Frames.

Variable R : relation (gset string).
Context `{!PreOrder R}.

Lemma framed_ret {A : Type} (a : A) : framed R (ret a).
Proof. intros st. reflexivity. Qed.

Lemma framed_throw {A : Type} (e : exn) : framed R (@throw A e).
Proof. intros st. reflexivity. Qed.

Lemma framed_lift {A : Type} (r : result A) : framed R (lift r).
Proof. intros st. reflexivity. Qed.

Lemma framed_bind {A B : Type} (m : M A) (k : A -> M B) :
  framed R m -> (forall a, framed R (k a)) -> framed R (bind m k).
Proof.
  intros Hm Hk st. unfold bind.
  specialize (Hm st). destruct (m st) as [[a|e] st1]; simpl in *.
  - etransitivity; [exact Hm|]. apply Hk.
  - exact Hm.
Qed.

Lemma framed_try_catch {A : Type} (m : M A) (h : exn -> M A) :
  framed R m -> (forall e, framed R (h e)) -> framed R (try_catch m h).
Proof.
  intros Hm Hh st. unfold try_catch.
  specialize (Hm st). destruct (m st) as [[a|e] st1]; simpl in *.
  - exact Hm.
  - etransitivity; [exact Hm|]. apply Hh.
Qed.

Lemma framed_console_log text args : framed R (console_log text args).
Proof. intros st. reflexivity. Qed.

Lemma framed_console_error text args : framed R (console_error text args).
Proof. intros st. reflexivity. Qed.

Lemma framed_await client (c : call) : framed R (await client c).
Proof. intros st. reflexivity. Qed.

Lemma framed_saveConfig symbol objValue : framed R (saveConfig symbol objValue).
Proof.
  intros st. unfold saveConfig.
  destruct (savedConfigSymbols st !! symbol); reflexivity.
Qed.

Lemma framed_if {A : Type} (b : bool) (m1 m2 : M A) :
  framed R m1 -> framed R m2 -> framed R (if b then m1 else m2).
Proof. destruct b; auto. Qed.

Lemma console_lines_unsupported (lines : list log_entry) (st : State) :
  unsupportedMarkets (fold_left (fun s e => push_console e s) lines st)
  = unsupportedMarkets st.
Proof.
  revert st. induction lines as [|e lines IH]; intros st; simpl.
  - reflexivity.
  - now rewrite IH.
Qed.

Lemma framed_run_calculateSize rt leverages collateral price precision :
  framed R (run_calculateSize rt leverages collateral price precision).
Proof.
  intros st. unfold run_calculateSize.
  destruct (calculateSizeInMarketToken _ _ _ _ _) as [q lines]. simpl.
  now rewrite console_lines_unsupported.
Qed.

End Frames.

Create HintDb frames.

#[local] Hint Resolve framed_ret framed_throw framed_lift framed_console_log
  framed_console_error framed_await framed_saveConfig
  framed_run_calculateSize : frames.

(** Takes a computation apart along its binds and conditionals. *)
Ltac frame_steps :=
  repeat first
    [ apply framed_bind; [typeclasses eauto| |intros ?]
    | apply framed_try_catch; [typeclasses eauto| |intros ?]
    | apply framed_if
    | solve [eauto with frames typeclass_instances] ].

(** ** Reading a run backwards *)

Lemma bind_Ok_inv {A B : Type} (m : M A) (k : A -> M B) st b st' :
  bind m k st = (Ok b, st') ->
  exists a st1, m st = (Ok a, st1) /\ k a st1 = (Ok b, st').
Proof.
  unfold bind. destruct (m st) as [[a|e] st1]; [eauto|discriminate].
Qed.

Lemma ret_Ok_inv {A : Type} (a b : A) st st' :
  ret a st = (Ok b, st') -> a = b /\ st' = st.
Proof. unfold ret. intros [= -> ->]. auto. Qed.

Lemma lift_Ok_inv {A : Type} (r : result A) (a : A) st st' :
  lift r st = (Ok a, st') -> r = Ok a /\ st' = st.
Proof. unfold lift. intros [= -> ->]. auto. Qed.

Lemma await_Ok_inv client (c : call) (a : value) st st' :
  await client c st = (Ok a, st') ->
  client (requests st) c = Ok a /\ st' = push_request c st.
Proof. unfold await. intros [= -> <-]. auto. Qed.

Lemma run_calculateSize_inv rt leverages collateral price precision q st st' :
  run_calculateSize rt leverages collateral price precision st = (Ok q, st') ->
  q = fst (calculateSizeInMarketToken rt leverages collateral price precision)
  /\ requests st' = requests st.
Proof.
  unfold run_calculateSize.
  destruct (calculateSizeInMarketToken _ _ _ _ _) as [q' lines]. simpl.
  intros [= -> <-]. split; [reflexivity|].
  generalize st. induction lines as [|e lines IH]; intros s; simpl.
  - reflexivity.
  - now rewrite IH.
Qed.

(** ** Running a computation forwards *)

Lemma await_run client (c : call) (a : value) st :
  client (requests st) c = Ok a ->
  await client c st = (Ok a, push_request c st).
Proof. unfold await. now intros ->. Qed.

Lemma run_calculateSize_run rt leverages collateral price precision st :
  exists st',
    run_calculateSize rt leverages collateral price precision st
    = (Ok (fst (calculateSizeInMarketToken rt leverages collateral price
                  precision)), st') /\
    unsupportedMarkets st' = unsupportedMarkets st /\
    requests st' = requests st.
Proof.
  destruct (run_calculateSize rt leverages collateral price precision st)
    as [r st'] eqn:Hrun.
  pose proof (framed_run_calculateSize eq rt leverages collateral price
                precision st) as Hset.
  rewrite Hrun in Hset. simpl in Hset.
  unfold run_calculateSize in Hrun.
  destruct (calculateSizeInMarketToken _ _ _ _ _) as [q lines] eqn:Hq.
  injection Hrun as <- Hst.
  exists st'. split; [reflexivity|]. split; [now symmetry|].
  rewrite <- Hst. clear. generalize st.
  induction lines as [|e lines IH]; intros s; simpl.
  - reflexivity.
  - now rewrite IH.
Qed.

Section Pipeline.

Variable rt : Runtime.
Variable defaultLeverages : value.
Variable mapBinanceMarkets : string -> option table_entry.
Variable usdmClient : list call -> call -> result value.

Local Notation prepare :=
  (prepareDataToPlace rt defaultLeverages mapBinanceMarkets usdmClient).
Local Notation prepare_block :=
  (prepare_try rt defaultLeverages usdmClient).
Local Notation place := (placeNewOrder rt usdmClient).
Local Notation convert := (convertMarketToBinanceMarket mapBinanceMarkets).
Local Notation Number := (ToNumber rt).
Local Notation LEVERAGE := (DEFAULT_LEVERAGE defaultLeverages).
Local Notation calculateSize :=
  (calculateSizeInMarketToken rt defaultLeverages).

Lemma add_unsupported_grows market : framed (⊆) (add_unsupported market).
Proof.
  intros st. unfold add_unsupported.
  destruct (decide (market ∈ unsupportedMarkets st)); simpl; set_solver.
Qed.

Lemma add_unsupported_elem market st :
  market ∈ unsupportedMarkets (snd (add_unsupported market st)).
Proof.
  unfold add_unsupported.
  destruct (decide (market ∈ unsupportedMarkets st)); simpl; set_solver.
Qed.

Lemma prepare_block_grows intent symbol :
  framed (⊆) (prepare_block intent symbol).
Proof.
  unfold prepare_try. frame_steps; apply add_unsupported_grows.
Qed.

Lemma prepare_grows intent : framed (⊆) (prepare intent).
Proof.
  intros st. unfold prepareDataToPlace.
  destruct (decide (market intent ∈ unsupportedMarkets st)); [reflexivity|].
  destruct (convert (market intent)) as [symbol|].
  - refine (framed_try_catch (⊆) _ _ _ _ st).
    + apply prepare_block_grows.
    + intros e. unfold prepare_catch.
      frame_steps; apply add_unsupported_grows.
  - refine (framed_bind (⊆) _ _ _ _ st).
    + apply add_unsupported_grows.
    + intros a. frame_steps.
Qed.

Lemma place_keeps side symbol quantity :
  framed eq (place side symbol quantity).
Proof.
  unfold placeNewOrder.
  frame_steps. intros st. reflexivity.
Qed.

Lemma later_grows st0 st :
  later rt defaultLeverages mapBinanceMarkets usdmClient st0 st ->
  unsupportedMarkets st0 ⊆ unsupportedMarkets st.
Proof.
  induction 1 as [|intent st1 _ IH|side symbol quantity st1 _ IH].
  - reflexivity.
  - etransitivity; [exact IH|]. apply prepare_grows.
  - etransitivity; [exact IH|]. now rewrite (place_keeps side symbol quantity st1).
Qed.

Lemma prepare_block_returns intent sym st d st' :
  prepare_block intent sym st = (Ok (Some d), st') ->
  exists exchangeInfo marketInfo minQty minNotional priceInfo binancePrice
         precision,
    usdmClient (requests st) getExchangeInfo = Ok exchangeInfo /\
    find_marketInfo sym exchangeInfo = Ok marketInfo /\
    minimums rt marketInfo = Ok (minQty, minNotional) /\
    usdmClient (getExchangeInfo :: requests st)
      (getMarkPrice (markPrice_params sym)) = Ok priceInfo /\
    getProp priceInfo "markPrice" = Ok binancePrice /\
    getProp marketInfo "quantityPrecision" = Ok precision /\
    symbol d = sym /\
    side d = getBinanceSide (isLong intent) (default false (isClosed intent)) /\
    quantity d
    = fst (calculateSize (VNum (collateral_of rt defaultLeverages intent))
             binancePrice precision) /\
    negb (num_truthy (quantity d)) || num_le (quantity d) (num 0) = false /\
    num_gt minQty (num 0) && num_lt (quantity d) minQty = false /\
    num_gt minNotional (num 0)
    && num_lt (num_mul (quantity d) (Number binancePrice)) minNotional = false.
Proof.
  unfold prepare_try. intros H.
  apply bind_Ok_inv in H as (exchangeInfo & s1 & H1 & H).
  apply await_Ok_inv in H1 as [H1 ->].
  apply bind_Ok_inv in H as (marketInfo & s2 & H2 & H).
  apply lift_Ok_inv in H2 as [H2 ->].
  destruct (negb (truthy marketInfo)).
  { apply bind_Ok_inv in H as (? & ? & _ & H).
    apply ret_Ok_inv in H as [H _]. discriminate H. }
  apply bind_Ok_inv in H as ([minQty minNotional] & s3 & H3 & H).
  apply lift_Ok_inv in H3 as [H3 ->].
  cbv zeta in H. cbn [fst snd] in H.
  apply bind_Ok_inv in H as (priceInfo & s4 & H4 & H).
  apply await_Ok_inv in H4 as [H4 ->].
  apply bind_Ok_inv in H as (binancePrice & s5 & H5 & H).
  apply lift_Ok_inv in H5 as [H5 ->].
  apply bind_Ok_inv in H as (precision & s6 & H6 & H).
  apply lift_Ok_inv in H6 as [H6 ->].
  apply bind_Ok_inv in H as (q & s7 & H7 & H).
  apply run_calculateSize_inv in H7 as [-> _].
  set (q := fst (calculateSize _ _ _)) in *.
  destruct (negb (num_truthy q) || num_le q (num 0)) eqn:Hq.
  { apply ret_Ok_inv in H as [H _]. discriminate H. }
  destruct (num_gt minQty (num 0) && num_lt q minQty) eqn:HminQty.
  { apply bind_Ok_inv in H as (? & ? & _ & H).
    apply ret_Ok_inv in H as [H _]. discriminate H. }
  destruct (num_gt minNotional (num 0)
            && num_lt (num_mul q (Number binancePrice)) minNotional)
    eqn:HminNotional.
  { apply bind_Ok_inv in H as (? & ? & _ & H).
    apply ret_Ok_inv in H as [H _]. discriminate H. }
  do 6 (apply bind_Ok_inv in H as (? & ? & _ & H)).
  apply ret_Ok_inv in H as [[= <-] _]. simpl.
  exists exchangeInfo, marketInfo, minQty, minNotional, priceInfo,
    binancePrice, precision.
  repeat split; assumption.
Qed.

Lemma prepare_returns intent st d st' :
  prepare intent st = (Ok (Some d), st') ->
  convert (market intent) = Some (symbol d) /\
  prepare_block intent (symbol d) st = (Ok (Some d), st').
Proof.
  unfold prepareDataToPlace.
  destruct (decide (market intent ∈ unsupportedMarkets st)); [discriminate|].
  destruct (convert (market intent)) as [sym|].
  - unfold try_catch.
    destruct (prepare_block intent sym st) as [[r|e] st1] eqn:Hblock.
    + intros [= -> ->].
      destruct (prepare_block_returns _ _ _ _ _ Hblock)
        as (? & ? & ? & ? & ? & ? & ? & _ & _ & _ & _ & _ & _ & <- & _).
      auto.
    + unfold prepare_catch. intros H.
      do 2 (apply bind_Ok_inv in H as (? & ? & _ & H)).
      apply ret_Ok_inv in H as [H _]. discriminate H.
  - intros H. apply bind_Ok_inv in H as (? & ? & _ & H).
    apply ret_Ok_inv in H as [H _]. discriminate H.
Qed.

(** What [find] returns on the filters of a symbol. *)
Lemma find_first_of_kind kind filters fields :
  first_of_kind kind filters fields ->
  find_first (filterType_is kind) filters = Ok (VObj fields).
Proof.
  intros (before & after & -> & Hkind & Hbefore).
  induction Hbefore as [|g before Hg _ IH]; simpl.
  - unfold filterType_is. simpl. rewrite Hkind. simpl.
    now rewrite String.eqb_refl.
  - assert (Hpass : filterType_is kind g = Ok false).
    { unfold filterType_is.
      destruct g as [| | | | | |gf]; simpl in *; try contradiction;
        try reflexivity.
      destruct (assoc "filterType" gf) as [| | | |t| |]; try reflexivity.
      simpl. destruct (String.eqb_spec t kind) as [->|]; [|reflexivity].
      now destruct Hg. }
    now rewrite Hpass.
Qed.

Lemma find_none_of_kind kind filters :
  none_of_kind kind filters ->
  find_first (filterType_is kind) filters = Ok VUndefined.
Proof.
  induction 1 as [|g rest Hg _ IH]; simpl; [reflexivity|].
  assert (Hpass : filterType_is kind g = Ok false).
  { unfold filterType_is.
    destruct g as [| | | | | |gf]; simpl in *; try contradiction;
      try reflexivity.
    destruct (assoc "filterType" gf) as [| | | |t| |]; try reflexivity.
    simpl. destruct (String.eqb_spec t kind) as [->|]; [|reflexivity].
    now destruct Hg. }
  now rewrite Hpass.
Qed.

(** The two minimums, by the filters that [find] has returned. *)
Lemma minimums_inv marketInfo minQty minNotional declared :
  minimums rt marketInfo = Ok (minQty, minNotional) ->
  getProp marketInfo "filters" = Ok declared ->
  exists lot mn,
    Array_find (filterType_is "LOT_SIZE") (filters_or_empty declared)
    = Ok lot /\
    Array_find (filterType_is "MIN_NOTIONAL") (filters_or_empty declared)
    = Ok mn /\
    (truthy lot = false -> minQty = num 0) /\
    (forall fields, lot = VObj fields ->
       minQty = parseFloat rt (assoc "minQty" fields)) /\
    (truthy mn = false -> minNotional = num 0) /\
    (forall fields, mn = VObj fields ->
       minNotional
       = parseFloat rt (if truthy (assoc "notional" fields)
                        then assoc "notional" fields
                        else assoc "minNotional" fields)).
Proof.
  unfold minimums. intros H Hd. rewrite Hd in H. cbn [rbind] in H.
  cbv zeta in H.
  destruct (Array_find (filterType_is "LOT_SIZE") _) as [lot|] eqn:Hlot;
    [|discriminate]. cbn [rbind] in H.
  destruct (Array_find (filterType_is "MIN_NOTIONAL") _) as [mn|] eqn:Hmn;
    [|discriminate]. cbn [rbind] in H.
  exists lot, mn. split; [reflexivity|]. split; [reflexivity|].
  destruct (if truthy lot then _ else _) as [q|] eqn:Hq; [|discriminate].
  cbn [rbind] in H.
  destruct (if truthy mn then _ else _) as [n|] eqn:Hn; [|discriminate].
  cbn [rbind] in H. injection H as <- <-.
  repeat split.
  - intros E. rewrite E in Hq. now injection Hq.
  - intros fields ->. simpl in Hq. now injection Hq.
  - intros E. rewrite E in Hn. now injection Hn.
  - intros fields ->. simpl in Hn.
    destruct (truthy (assoc "notional" fields)); simpl in Hn;
      now injection Hn.
Qed.

(** A check [min > 0 && x < min] that does not fire leaves [min <= x], for
    [x] not below 0 and [min] a number. *)
Lemma minimum_respected (x min : number) :
  num_le (num 0) x = true ->
  num_gt min (num 0) && num_lt x min = false ->
  min <> NaN -> num_le min x = true.
Proof.
  intros Hx Hcheck Hmin.
  destruct (num_le_not_NaN _ _ Hx) as [H0 Hx'].
  apply andb_false_iff in Hcheck as [Hpos|Hlt].
  - apply num_le_trans with (num 0); [|exact Hx].
    now apply num_not_lt_le.
  - now apply num_not_lt_le.
Qed.

(** C2, as the code has it. An order descriptor that [prepareDataToPlace]
    returns has a quantity above 0. Its [minQty] is what [parseFloat] makes
    of the property [minQty] of the first [LOT_SIZE] filter of the symbol in
    the exchange information the call has fetched, its [minNotional] what
    [parseFloat] makes of [notional], or of [minNotional], of the first
    [MIN_NOTIONAL] filter; each is 0 when the symbol has no filter of the
    kind or no list of filters. The quantity is at least [minQty] and the
    quantity times the mark price at least [minNotional] whenever that
    minimum is a number; a minimum that is [NaN] is not enforced. *)
Theorem prepared_quantity_meets_minimums (intent : TradeIntent)
    (st : State) (d : OrderDescriptor) (st' : State) :
  prepare intent st = (Ok (Some d), st') ->
  exists exchangeInfo marketInfo minQty minNotional priceInfo binancePrice,
    usdmClient (requests st) getExchangeInfo = Ok exchangeInfo /\
    find_marketInfo (symbol d) exchangeInfo = Ok marketInfo /\
    minimums rt marketInfo = Ok (minQty, minNotional) /\
    (forall declared, getProp marketInfo "filters" = Ok declared ->
       (truthy declared = false ->
        minQty = num 0 /\ minNotional = num 0) /\
       (forall filters, declared = VArr filters ->
          (forall lot, first_of_kind "LOT_SIZE" filters lot ->
             minQty = parseFloat rt (assoc "minQty" lot)) /\
          (none_of_kind "LOT_SIZE" filters -> minQty = num 0) /\
          (forall mn, first_of_kind "MIN_NOTIONAL" filters mn ->
             minNotional
             = parseFloat rt (if truthy (assoc "notional" mn)
                              then assoc "notional" mn
                              else assoc "minNotional" mn)) /\
          (none_of_kind "MIN_NOTIONAL" filters -> minNotional = num 0))) /\
    usdmClient (getExchangeInfo :: requests st)
      (getMarkPrice (markPrice_params (symbol d))) = Ok priceInfo /\
    getProp priceInfo "markPrice" = Ok binancePrice /\
    num_lt (num 0) (quantity d) = true /\
    (minQty <> NaN -> num_le minQty (quantity d) = true) /\
    (minNotional <> NaN ->
     num_le minNotional (num_mul (quantity d) (Number binancePrice)) = true).
Proof.
  intros H. apply prepare_returns in H as [_ H].
  apply prepare_block_returns in H
    as (exchangeInfo & marketInfo & minQty & minNotional & priceInfo
        & binancePrice & precision & Hinfo & Hfind & Hmins & Hprice & Hmark
        & _ & _ & _ & Hq & Hpos & HminQty & HminNotional).
  exists exchangeInfo, marketInfo, minQty, minNotional, priceInfo, binancePrice.
  apply num_accepted_pos in Hpos.
  assert (Hp : num_lt (num 0) (Number binancePrice) = true).
  { rewrite Hq in Hpos. now apply calculateSize_pos_price in Hpos. }
  split; [exact Hinfo|]. split; [exact Hfind|]. split; [exact Hmins|].
  split; [|split; [exact Hprice|split; [exact Hmark|split; [exact Hpos|]]]].
  - intros declared Hd.
    destruct (minimums_inv _ _ _ _ Hmins Hd)
      as (lot & mn & Hlot & Hmn & Hlot0 & Hlot1 & Hmn0 & Hmn1).
    split.
    + intros Hfalsy. unfold filters_or_empty in Hlot, Hmn.
      rewrite Hfalsy in Hlot, Hmn. simpl in Hlot, Hmn.
      injection Hlot as <-. injection Hmn as <-. auto.
    + intros filters ->. unfold filters_or_empty in Hlot, Hmn.
      simpl in Hlot, Hmn. repeat split.
      * intros fields Hfirst.
        rewrite (find_first_of_kind _ _ _ Hfirst) in Hlot.
        injection Hlot as <-. now apply Hlot1.
      * intros Hnone. rewrite (find_none_of_kind _ _ Hnone) in Hlot.
        injection Hlot as <-. now apply Hlot0.
      * intros fields Hfirst.
        rewrite (find_first_of_kind _ _ _ Hfirst) in Hmn.
        injection Hmn as <-. now apply Hmn1.
      * intros Hnone. rewrite (find_none_of_kind _ _ Hnone) in Hmn.
        injection Hmn as <-. now apply Hmn0.
  - split.
    + intros Hnum. apply minimum_respected; [|assumption..].
      now apply num_lt_le_weak.
    + intros Hnum. apply minimum_respected; [|assumption..].
      now apply num_mul_nonneg.
Qed.

(** C7. When the exchange information and the mark price have been fetched
    and the quantity computed from them is not above 0 (it is [<= 0], or
    [NaN]), is below [minQty], or gives a notional below [minNotional], then
    [prepareDataToPlace] returns [null] and [unsupportedMarkets] is what it
    was; the two fetches are the only requests sent. *)
Theorem sizing_rejection_keeps_markets (intent : TradeIntent) (st : State)
    (sym : table_entry)
    (exchangeInfo marketInfo priceInfo binancePrice precision : value)
    (minQty minNotional : number) :
  market intent ∉ unsupportedMarkets st ->
  convert (market intent) = Some sym ->
  usdmClient (requests st) getExchangeInfo = Ok exchangeInfo ->
  find_marketInfo sym exchangeInfo = Ok marketInfo ->
  truthy marketInfo = true ->
  minimums rt marketInfo = Ok (minQty, minNotional) ->
  usdmClient (getExchangeInfo :: requests st)
    (getMarkPrice (markPrice_params sym)) = Ok priceInfo ->
  getProp priceInfo "markPrice" = Ok binancePrice ->
  getProp marketInfo "quantityPrecision" = Ok precision ->
  let quantity :=
    fst (calculateSize (VNum (collateral_of rt defaultLeverages intent))
           binancePrice precision) in
  num_le quantity (num 0) = true \/ quantity = NaN \/
  num_lt quantity minQty = true \/
  num_lt (num_mul quantity (Number binancePrice)) minNotional = true ->
  exists st',
    prepare intent st = (Ok None, st') /\
    unsupportedMarkets st' = unsupportedMarkets st /\
    requests st'
    = getMarkPrice (markPrice_params sym) :: getExchangeInfo :: requests st.
Proof.
  intros Hnot Hsym Hinfo Hfind Htruthy Hmins Hprice Hmark Hprec quantity Hrej.
  set (st2 := push_request (getMarkPrice (markPrice_params sym))
                (push_request getExchangeInfo st)).
  destruct (run_calculateSize_run rt defaultLeverages
              (VNum (collateral_of rt defaultLeverages intent))
              binancePrice precision st2) as (st3 & Hrun & Hset & Hreq).
  fold quantity in Hrun.
  assert (Hblock : forall r : M (option OrderDescriptor),
    (if negb (num_truthy quantity) || num_le quantity (num 0)
     then ret None
     else if num_gt minQty (num 0) && num_lt quantity minQty
     then console_log "Quantity is less than minimum"
            [VNum quantity; VNum minQty; entry_value sym] ;; ret None
     else if num_gt minNotional (num 0)
             && num_lt (num_mul quantity (Number binancePrice)) minNotional
     then console_log "Notional value is less than minimum"
            [VNum (num_mul quantity (Number binancePrice)); VNum minNotional;
             entry_value sym] ;; ret None
     else r) st3
    = (Ok None, snd ((if negb (num_truthy quantity)
                         || num_le quantity (num 0)
     then ret None
     else if num_gt minQty (num 0) && num_lt quantity minQty
     then console_log "Quantity is less than minimum"
            [VNum quantity; VNum minQty; entry_value sym] ;; ret None
     else console_log "Notional value is less than minimum"
            [VNum (num_mul quantity (Number binancePrice)); VNum minNotional;
             entry_value sym] ;; ret (@None OrderDescriptor)) st3))).
  { intros r.
    destruct (negb (num_truthy quantity) || num_le quantity (num 0)) eqn:Hq;
      [reflexivity|].
    destruct (num_gt minQty (num 0) && num_lt quantity minQty) eqn:HminQty;
      [reflexivity|].
    destruct (num_gt minNotional (num 0)
              && num_lt (num_mul quantity (Number binancePrice)) minNotional)
      eqn:HminNotional; [reflexivity|].
    exfalso.
    pose proof (num_accepted_pos _ Hq) as Hpos.
    apply orb_false_elim in Hq as [Hq1 Hq2].
    destruct Hrej as [H|[H|[H|H]]].
    - congruence.
    - rewrite H in Hq1. discriminate.
    - apply andb_false_iff in HminQty as [H'|H']; [|congruence].
      unfold num_gt in H'. rewrite (num_lt_trans _ _ _ Hpos H) in H'.
      discriminate.
    - apply andb_false_iff in HminNotional as [H'|H']; [|congruence].
      assert (Hp : num_lt (num 0) (Number binancePrice) = true)
        by now apply (calculateSize_pos_price rt defaultLeverages _ _ _ Hpos).
      unfold num_gt in H'.
      rewrite (num_le_lt_lt _ _ _ (num_mul_nonneg _ _ Hpos Hp) H) in H'.
      discriminate. }
  eexists. split; [|split].
  - unfold prepareDataToPlace.
    destruct (decide (market intent ∈ unsupportedMarkets st));
      [contradiction|].
    rewrite Hsym. unfold try_catch, prepare_try.
    unfold bind at 1. rewrite (await_run _ _ _ _ Hinfo).
    unfold bind at 1, lift at 1. rewrite Hfind, Htruthy. cbn [negb].
    unfold bind at 1, lift at 1. rewrite Hmins. cbv zeta. cbn [fst snd].
    unfold bind at 1.
    rewrite (await_run usdmClient _ _ (push_request getExchangeInfo st) Hprice).
    fold st2.
    unfold bind at 1, lift at 1. rewrite Hmark.
    unfold bind at 1, lift at 1. rewrite Hprec.
    unfold bind at 1. rewrite Hrun.
    rewrite Hblock. reflexivity.
  - transitivity (unsupportedMarkets st3); [|now rewrite Hset].
    destruct (negb (num_truthy quantity) || num_le quantity (num 0));
      [reflexivity|].
    destruct (num_gt minQty (num 0) && num_lt quantity minQty); reflexivity.
  - transitivity (requests st3); [|now rewrite Hreq].
    destruct (negb (num_truthy quantity) || num_le quantity (num 0));
      [reflexivity|].
    destruct (num_gt minQty (num 0) && num_lt quantity minQty); reflexivity.
Qed.

(** C1. [prepareDataToPlace] returns, for every intent and from every
    state, an order descriptor or [null], and never throws; and when the
    block under its [try] throws, whatever step of it did, the call returns
    [null] and the market is in [unsupportedMarkets] afterwards. *)
Theorem prepare_never_raises (intent : TradeIntent) (st : State) :
  (exists r st', prepare intent st = (Ok r, st')) /\
  (forall symbol e st1,
     market intent ∉ unsupportedMarkets st ->
     convert (market intent) = Some symbol ->
     prepare_block intent symbol st = (Raise e, st1) ->
     exists st', prepare intent st = (Ok None, st') /\
       market intent ∈ unsupportedMarkets st').
Proof.
  split.
  - unfold prepareDataToPlace.
    destruct (decide (market intent ∈ unsupportedMarkets st)); [eauto|].
    destruct (convert (market intent)) as [symbol|].
    + unfold try_catch.
      destruct (prepare_block intent symbol st) as [[r|e] st1]; [eauto|].
      unfold prepare_catch, bind, console_error, ret.
      destruct (add_unsupported _ _) as [[[]|e'] st2] eqn:Hadd; [eauto|].
      unfold add_unsupported in Hadd.
      destruct (decide _) in Hadd; discriminate.
    + unfold bind, ret, add_unsupported.
      destruct (decide _); eauto.
  - intros symbol e st1 Hnot Hsym Hblock.
    unfold prepareDataToPlace.
    destruct (decide (market intent ∈ unsupportedMarkets st)); [contradiction|].
    rewrite Hsym. unfold try_catch. rewrite Hblock.
    unfold prepare_catch, bind, console_error, ret.
    pose proof (add_unsupported_elem (market intent)
      (push_console (Entry Error "Error in prepareDataToPlace for"
         [entry_value symbol; exn_value e]) st1)) as Hin.
    destruct (add_unsupported _ _) as [[[]|e'] st2] eqn:Hadd.
    + eauto.
    + unfold add_unsupported in Hadd.
      destruct (decide _) in Hadd; discriminate.
Qed.

(** C6. Once a market is in [unsupportedMarkets], every later call of
    [prepareDataToPlace] for it returns [null] and leaves the state as it
    was, the list of requests sent to the exchange included, for as long as
    the reset has not run; the reset empties the set. *)
Theorem unsupported_short_circuit (intent : TradeIntent) (st0 st : State) :
  market intent ∈ unsupportedMarkets st0 ->
  later rt defaultLeverages mapBinanceMarkets usdmClient st0 st ->
  prepare intent st = (Ok None, st) /\
  requests (snd (prepare intent st)) = requests st /\
  unsupportedMarkets (clear_unsupportedMarkets st) = ∅.
Proof.
  intros Hin Hlater.
  assert (Hrun : prepare intent st = (Ok None, st)).
  { unfold prepareDataToPlace.
    destruct (decide (market intent ∈ unsupportedMarkets st)) as [|Hn];
      [reflexivity|].
    exfalso. apply Hn. now apply (later_grows st0 st Hlater). }
  rewrite Hrun. repeat split.
Qed.

(** C10. [placeNewOrder] with a quantity that is missing, zero or negative
    (as a number, or as anything [Number] makes zero or a negative number
    of) prints the error, returns [undefined] and sends nothing to the
    exchange: it does not throw, and the list of requests is as it was. *)
Theorem placeNewOrder_invalid_quantity (side symbol quantity : value)
    (st : State) :
  quantity = VUndefined \/ Number quantity = num 0 \/
  num_lt (Number quantity) (num 0) = true ->
  place side symbol quantity st
  = (Ok VUndefined,
     push_console (Entry Error "Invalid quantity:" [quantity]) st) /\
  requests (snd (place side symbol quantity st)) = requests st.
Proof.
  intros H.
  assert (Hcond : negb (truthy quantity)
                  || num_le (Number quantity) (num 0) = true).
  { destruct H as [->|[H|H]].
    - reflexivity.
    - rewrite H. apply orb_true_r.
    - rewrite (num_lt_le_weak _ _ H). apply orb_true_r. }
  unfold placeNewOrder. rewrite Hcond. split; reflexivity.
Qed.

End Pipeline.

(** ** [class BinanceWebSocket] *)

(** C8. With the counter at 5 or above, [reconnect] prints the error and
    does nothing else: the object and the timers are as they were. Below 5,
    it adds one to the counter and sets a timer for [connect] after 1000
    times the new counter, in milliseconds. A socket that keeps failing is
    retried after 1000, 2000, 3000, 4000 and 5000 ms, and not after that. *)
Theorem reconnect_linear_backoff (w : World) :
  (WS_MAX_RECONNECT_ATTEMPTS <= reconnectAttempts (fst w) ->
   reconnect w
   = print Error
       "Max reconnection attempts reached. Please check your connection."
       [] w /\
   fst (reconnect w) = fst w /\
   timeouts (snd (reconnect w)) = timeouts (snd w)) /\
  (reconnectAttempts (fst w) < WS_MAX_RECONNECT_ATTEMPTS ->
   reconnectAttempts (fst (reconnect w)) = reconnectAttempts (fst w) + 1 /\
   timeouts (snd (reconnect w))
   = (1000 * (reconnectAttempts (fst w) + 1), call_connect)
     :: timeouts (snd w)) /\
  reconnect_delays
    (Nat.iter 6 failed_connection (connect true new_BinanceWebSocket))
  = [1000; 2000; 3000; 4000; 5000] /\
  reconnect_delays
    (Nat.iter 7 failed_connection (connect true new_BinanceWebSocket))
  = [1000; 2000; 3000; 4000; 5000].
Proof.
  destruct w as [o lp]. unfold reconnect. simpl fst.
  split; [|split; [|split]].
  - intros H. apply Z.leb_le in H. rewrite H. repeat split.
  - intros H. apply Z.leb_gt in H. rewrite H. split; reflexivity.
  - reflexivity.
  - reflexivity.
Qed.

(** ** The theorems on a run of the samples *)

(** Two numbers are the same when their fractions are. *)
Ltac same_number :=
  vm_compute; apply (f_equal Fin), Qc_is_canon; reflexivity.

(** 2000 of notional on a long: the four requests, the leverage of the
    account corrected from 10 to the default, and a purchase. *)
Example sample_run_requests :
  let run :=
    prepareDataToPlace sample_runtime sample_leverages sample_markets
      sample_exchange (sample_intent 2000) empty_state in
  requests (snd run)
  = [setLeverage (leverage_params sample_leverages (Symbol "BTCUSDT"));
     getFuturesSymbolConfig (symbol_params (Symbol "BTCUSDT"));
     getMarkPrice (markPrice_params (Symbol "BTCUSDT"));
     getExchangeInfo] /\
  savedConfigSymbols (snd run) !! Symbol "BTCUSDT" = Some {["leverage" := true]} /\
  option_map side (match fst run with Ok r => r | Raise _ => None end)
  = Some BUY.
Proof. vm_compute. repeat split. Qed.

(** A request is rejected under [try]: the market ends up marked. *)
Lemma prepare_never_raises_witness :
  exists st',
    prepareDataToPlace sample_runtime sample_leverages sample_markets
      failing_exchange (sample_intent 2000) empty_state = (Ok None, st') /\
    "BTC-USD" ∈ unsupportedMarkets st'.
Proof.
  eapply (proj2 (prepare_never_raises sample_runtime sample_leverages
                   sample_markets failing_exchange (sample_intent 2000)
                   empty_state)).
  - simpl. apply not_elem_of_empty.
  - reflexivity.
  - reflexivity.
Defined.

(** 2000 of notional on BTC at 50000: 0.04 BTC, above both minimums. *)
Lemma prepared_quantity_meets_minimums_witness :
  exists d st',
    prepareDataToPlace sample_runtime sample_leverages sample_markets
      sample_exchange (sample_intent 2000) empty_state = (Ok (Some d), st') /\
    num_lt (num 0) (quantity d) = true /\
    exists minQty minNotional,
      num_le minQty (quantity d) = true /\
      num_le minNotional (num_mul (quantity d) (num 50000)) = true.
Proof.
  destruct (prepareDataToPlace sample_runtime sample_leverages sample_markets
              sample_exchange (sample_intent 2000) empty_state)
    as [[[d|]|e] st'] eqn:Hrun; try (vm_compute in Hrun; discriminate Hrun).
  exists d, st'. split; [reflexivity|].
  destruct (prepared_quantity_meets_minimums sample_runtime sample_leverages
              sample_markets sample_exchange (sample_intent 2000) empty_state
              d st' Hrun)
    as (exchangeInfo & marketInfo & minQty & minNotional & priceInfo
        & binancePrice & Hinfo & Hfind & Hmins & _ & Hprice & Hmark & Hpos
        & HminQty & HminNotional).
  split; [exact Hpos|].
  exists minQty, minNotional.
  assert (Hd : symbol d = Symbol "BTCUSDT").
  { vm_compute in Hrun. now injection Hrun as <- _. }
  rewrite Hd in *.
  injection Hinfo as <-. injection Hprice as <-. injection Hmark as <-.
  vm_compute in Hfind. injection Hfind as <-.
  vm_compute in Hmins. injection Hmins as <- <-.
  split.
  - apply HminQty. discriminate.
  - apply HminNotional. discriminate.
Defined.

(** C2, as the claim has it, fails. The symbol has a [LOT_SIZE] filter that
    names no quantity: the minimum read off it is [NaN], the order is
    prepared all the same, and its quantity is not at least that minimum. *)
Lemma prepared_quantity_without_minimum :
  exists d st',
    prepareDataToPlace sample_runtime sample_leverages sample_markets
      unquantified_exchange (sample_intent 2000) empty_state
    = (Ok (Some d), st') /\
    find_marketInfo (symbol d) (VObj [("symbols", VArr [unquantified_marketInfo])])
    = Ok unquantified_marketInfo /\
    first_of_kind "LOT_SIZE" [VObj [("filterType", VStr "LOT_SIZE")]]
      [("filterType", VStr "LOT_SIZE")] /\
    minimums sample_runtime unquantified_marketInfo = Ok (NaN, num 0) /\
    num_le NaN (quantity d) = false.
Proof.
  destruct (prepareDataToPlace sample_runtime sample_leverages sample_markets
              unquantified_exchange (sample_intent 2000) empty_state)
    as [[[d|]|e] st'] eqn:Hrun; try (vm_compute in Hrun; discriminate Hrun).
  exists d, st'. split; [reflexivity|].
  assert (Hd : symbol d = Symbol "BTCUSDT").
  { vm_compute in Hrun. now injection Hrun as <- _. }
  rewrite Hd. split; [reflexivity|]. split; [|split; reflexivity].
  exists [], []. repeat split. constructor.
Qed.

(** A collateral of 10 at a price of 50000. *)
Lemma calculateSize_rejects_witness :
  fst (calculateSizeInMarketToken sample_runtime sample_leverages
         (VNum (num 10)) (VStr "50000") (VNum (num 3))) = num 0.
Proof.
  apply (calculateSize_rejects sample_runtime sample_leverages).
  left. reflexivity.
Defined.

(** A collateral of 100 at a price of 50000, to 3 decimals, leverage 20:
    the double nearest to 40 / 1000. *)
Lemma calculateSize_formula_witness :
  fst (calculateSizeInMarketToken sample_runtime sample_leverages
         (VNum (num 100)) (VStr "50000") (VNum (num 3)))
  = round64 (qz 40 / pow10 3)%Qc.
Proof.
  destruct (calculateSize_formula sample_runtime sample_leverages
              (VNum (num 100)) (VStr "50000") (VNum (num 3))
              (qz 100) (qz 50000))
    as (_ & Hprecision & _).
  - reflexivity.
  - apply Qc_leb_le. reflexivity.
  - same_number.
  - apply Qc_ltb_lt. reflexivity.
  - destruct (Hprecision 3 eq_refl ltac:(lia)) as [_ Hscaled].
    destruct (Hscaled (qz 40)) as [-> _]; [same_number|reflexivity].
Defined.

(** C3, as the claim has it, fails. A collateral of 51 at a price of 100 to
    2 decimals, leverage 20: the claim gives 10.2, and the result is the
    double nearest to 10.19, because the double nearest to 10.2, times 100,
    is the double below 1020. And the result for a collateral of 56 at a
    price of 2000, the double nearest to 0.56, times 100 is no integer: it
    is [56 + 2^-47]. *)
Lemma calculateSize_formula_not_exact :
  let result (collateral price : Z) :=
    fst (calculateSizeInMarketToken sample_runtime sample_leverages
           (VNum (num collateral)) (VNum (num price)) (VNum (num 2))) in
  stated_quantity (qz 51) (qz 20) (qz 100) 2 = qfrac 51 5 /\
  result 51 100 = round64 (qfrac 1019 100) /\
  result 51 100 <> round64 (qfrac 51 5) /\
  num_mul (result 56 2000) (Fin (pow10 2))
  = Fin (qfrac 7881299347898369 140737488355328).
Proof.
  intros result. split; [|split; [|split]].
  - apply Qc_is_canon. vm_compute. reflexivity.
  - vm_compute. reflexivity.
  - intros H. vm_compute in H. discriminate H.
  - same_number.
Qed.

(** C4, as the claim has it, fails: the result is 0, not 0.0001. *)
Lemma calculateSize_half_unit_is_not_0_0001 :
  fst (calculateSizeInMarketToken sample_runtime sample_leverages
         (VNum (Fin (qfrac 1 2))) (VNum (num 100000)) (VNum (num 4)))
  <> Fin (qfrac 1 10000).
Proof.
  intros H. vm_compute in H. discriminate H.
Qed.

(** The market is marked, another market is asked for in between. *)
Lemma unsupported_short_circuit_witness :
  let st :=
    snd (prepareDataToPlace sample_runtime sample_leverages sample_markets
           sample_exchange
           {| isLong := false; market := "DOGE-USD"; size := VNum (num 500);
              isClosed := Some true |} marked_state) in
  prepareDataToPlace sample_runtime sample_leverages sample_markets
    sample_exchange (sample_intent 2000) st = (Ok None, st).
Proof.
  intros st.
  apply (unsupported_short_circuit sample_runtime sample_leverages
           sample_markets sample_exchange (sample_intent 2000)
           marked_state st).
  - simpl. apply elem_of_singleton. reflexivity.
  - apply later_prepare, later_now.
Defined.

(** 100 of notional is a collateral of 5: a sizing rejection. *)
Lemma sizing_rejection_keeps_markets_witness :
  exists st',
    prepareDataToPlace sample_runtime sample_leverages sample_markets
      sample_exchange (sample_intent 100) empty_state = (Ok None, st') /\
    unsupportedMarkets st' = ∅.
Proof.
  edestruct (sizing_rejection_keeps_markets sample_runtime sample_leverages
               sample_markets sample_exchange (sample_intent 100) empty_state
               (Symbol "BTCUSDT"))
    as (st' & Hrun & Hset & _).
  - simpl. apply not_elem_of_empty.
  - reflexivity.
  - reflexivity.
  - reflexivity.
  - reflexivity.
  - reflexivity.
  - reflexivity.
  - reflexivity.
  - reflexivity.
  - left. reflexivity.
  - exists st'. split; [exact Hrun|exact Hset].
Defined.

(** A quantity of -3. *)
Lemma placeNewOrder_invalid_quantity_witness :
  placeNewOrder sample_runtime sample_exchange (VStr "BUY") (VStr "BTCUSDT")
    (VNum (num (-3))) empty_state
  = (Ok VUndefined,
     push_console (Entry Error "Invalid quantity:" [VNum (num (-3))])
       empty_state).
Proof.
  apply (placeNewOrder_invalid_quantity sample_runtime sample_exchange
           (VStr "BUY") (VStr "BTCUSDT") (VNum (num (-3))) empty_state).
  right. right. reflexivity.
Defined.

(** The third reconnection is set 3000 ms ahead, and there is no sixth. *)
Lemma reconnect_linear_backoff_witness :
  timeouts (snd (reconnect (socket_after 2))) = [(3000, call_connect)] /\
  timeouts (snd (reconnect (socket_after 5))) = [].
Proof.
  split.
  - apply (proj1 (proj2 (reconnect_linear_backoff (socket_after 2)))).
    reflexivity.
  - apply (proj1 (reconnect_linear_backoff (socket_after 5))).
    discriminate.
Defined.

(** * More of the code *)

Set Warnings "-clear-no-such-hyp".

(** ** The order of the sizes *)

Section Sizes.

Variable rt : Runtime.
Variable defaultLeverages : value.

Local Notation calculateSize :=
  (calculateSizeInMarketToken rt defaultLeverages).
Local Notation Number := (ToNumber rt).

(** X1. For a collateral of at least 50, a price above 0 (and, as every
    double, at most [2^1024]), a leverage of at least 1 and a precision [n]
    from 0 to 22, a size that is finite is accurate: it exceeds the exact
    quantity [collateral * LEVERAGE / price] by no more than [2^-50] of it,
    and it falls short of it by less than one unit of the last place kept,
    [10^-n], and [2^-50] of it. *)
Theorem calculateSize_accuracy (collateral price precision : value)
    (c p leverage r : Qc) (n : Z) :
  Number collateral = Fin c -> (qz 50 <= c)%Qc ->
  Number price = Fin p -> (0 < p)%Qc -> (p <= pow2 1024)%Q ->
  Number precision = Fin (qz n) -> 0 <= n <= 22 ->
  Number (DEFAULT_LEVERAGE defaultLeverages) = Fin leverage ->
  (1 <= leverage)%Qc ->
  fst (calculateSize collateral price precision) = Fin r ->
  let exact := (c * leverage / p)%Q in
  (exact * (1 - pow2 (-50)) - / pow10 n < r /\
   r <= exact * (1 + pow2 (-50)))%Q.
Proof.
  intros Hc H50 Hp Hp0 Hpmax Hn Hrange Hl Hl1 Hr.
  rewrite (calculateSize_computes rt defaultLeverages _ _ _ c p) in Hr
    by assumption.
  rewrite Hn, (Math_pow10_exact rt n Hrange), Hl in Hr. cbv zeta in Hr.
  now apply formula_accuracy.
Qed.


End Sizes.

(** ** What the calls keep of the state *)

Section Steps.

Variable P : relation State.
Context `{!PreOrder P}.

Hypothesis P_request : forall c st, P st (push_request c st).
Hypothesis P_console : forall e st, P st (push_console e st).

Lemma steps_ret {A : Type} (a : A) : steps P (ret a).
Proof. intros st. reflexivity. Qed.

Lemma steps_throw {A : Type} (e : exn) : steps P (@throw A e).
Proof. intros st. reflexivity. Qed.

Lemma steps_lift {A : Type} (r : result A) : steps P (lift r).
Proof. intros st. reflexivity. Qed.

Lemma steps_bind {A B : Type} (m : M A) (k : A -> M B) :
  steps P m -> (forall a, steps P (k a)) -> steps P (bind m k).
Proof.
  intros Hm Hk st. unfold bind.
  specialize (Hm st). destruct (m st) as [[a|e] st1]; simpl in *.
  - etransitivity; [exact Hm|]. apply Hk.
  - exact Hm.
Qed.

Lemma steps_try_catch {A : Type} (m : M A) (h : exn -> M A) :
  steps P m -> (forall e, steps P (h e)) -> steps P (try_catch m h).
Proof.
  intros Hm Hh st. unfold try_catch.
  specialize (Hm st). destruct (m st) as [[a|e] st1]; simpl in *.
  - exact Hm.
  - etransitivity; [exact Hm|]. apply Hh.
Qed.

Lemma steps_if {A : Type} (b : bool) (m1 m2 : M A) :
  steps P m1 -> steps P m2 -> steps P (if b then m1 else m2).
Proof. destruct b; auto. Qed.

Lemma steps_console_log text args : steps P (console_log text args).
Proof. intros st. apply P_console. Qed.

Lemma steps_console_error text args : steps P (console_error text args).
Proof. intros st. apply P_console. Qed.

Lemma steps_await client (c : call) : steps P (await client c).
Proof. intros st. apply P_request. Qed.

Lemma steps_run_calculateSize rt leverages collateral price precision :
  steps P (run_calculateSize rt leverages collateral price precision).
Proof.
  intros st. unfold run_calculateSize.
  destruct (calculateSizeInMarketToken _ _ _ _ _) as [q lines]. simpl.
  revert st. induction lines as [|e lines IH]; intros st; simpl.
  - reflexivity.
  - etransitivity; [apply P_console|]. apply IH.
Qed.

End Steps.

Create HintDb steps.

#[local] Hint Resolve steps_ret steps_throw steps_lift steps_console_log
  steps_console_error steps_await steps_run_calculateSize : steps.

(** Takes a computation apart along its binds and conditionals, with the
    two facts on [P] at hand. *)
Ltac steps_through Hreq Hcon :=
  repeat first
    [ apply steps_bind; [typeclasses eauto| |intros ?]
    | apply steps_try_catch; [typeclasses eauto| |intros ?]
    | apply steps_if
    | solve [eauto using Hreq, Hcon with steps typeclass_instances]
    | assumption ].

Section KeptByTheCalls.

Variable rt : Runtime.
Variable defaultLeverages : value.
Variable mapBinanceMarkets : string -> option table_entry.
Variable usdmClient : list call -> call -> result value.

Variable P : relation State.
Context `{!PreOrder P}.

Hypothesis P_request : forall c st, P st (push_request c st).
Hypothesis P_console : forall e st, P st (push_console e st).

(** A relation that the history and the console do not break is kept by
    [placeNewOrder], [getPrecision] and [getBinancePrice]. *)
Lemma steps_placeNewOrder side symbol quantity :
  steps P (placeNewOrder rt usdmClient side symbol quantity).
Proof.
  unfold placeNewOrder.
  steps_through P_request P_console. intros st. reflexivity.
Qed.

Lemma steps_getPrecision symbol : steps P (getPrecision rt usdmClient symbol).
Proof.
  unfold getPrecision.
  steps_through P_request P_console.
  destruct a; steps_through P_request P_console.
Qed.

Lemma steps_getBinancePrice symbol : steps P (getBinancePrice usdmClient symbol).
Proof.
  unfold getBinancePrice. steps_through P_request P_console.
Qed.

(** If the two flags [saveConfig] is called with and the marking of the
    market of the intent do not break it either, it is kept by
    [prepareDataToPlace]. *)
Lemma steps_prepareDataToPlace intent :
  (forall symbol flag, steps P (saveConfig symbol {[flag := true]})) ->
  steps P (add_unsupported (market intent)) ->
  steps P (prepareDataToPlace rt defaultLeverages mapBinanceMarkets
             usdmClient intent).
Proof.
  intros Hsave Hmark st. unfold prepareDataToPlace.
  destruct (decide (market intent ∈ unsupportedMarkets st)); [reflexivity|].
  destruct (convertMarketToBinanceMarket _ _) as [symbol|].
  - refine (steps_try_catch P _ _ _ _ st).
    + unfold prepare_try. steps_through P_request P_console.
    + intros e. unfold prepare_catch. steps_through P_request P_console.
  - refine (steps_bind P _ _ _ _ st).
    + exact Hmark.
    + intros a. apply steps_ret. typeclasses eauto.
Qed.

End KeptByTheCalls.

#[local] Instance marks_only_preorder (market : string) :
  PreOrder (fun st st' : State =>
              marks_only market (unsupportedMarkets st)
                (unsupportedMarkets st')).
Proof.
  split.
  - intros st. unfold marks_only. set_solver.
  - intros st1 st2 st3. unfold marks_only. set_solver.
Qed.

#[local] Instance memo_grows_preorder : PreOrder memo_grows.
Proof.
  split.
  - intros st symbol flag H. exact H.
  - intros st1 st2 st3 H12 H23 symbol flag H. apply H23, H12, H.
Qed.

#[local] Instance stores_kept_preorder :
  PreOrder (fun st st' : State =>
              unsupportedMarkets st' = unsupportedMarkets st /\
              savedConfigSymbols st' = savedConfigSymbols st).
Proof.
  split.
  - intros st. auto.
  - intros st1 st2 st3 [H1 H2] [H3 H4]. split; congruence.
Qed.

#[local] Instance history_grows_preorder : PreOrder history_grows.
Proof.
  split.
  - intros st. now exists [].
  - intros st1 st2 st3 [n1 H1] [n2 H2]. exists (n2 ++ n1)%list.
    now rewrite H2, H1, app_assoc.
Qed.

Lemma saveConfig_true_grows symbol flag :
  steps memo_grows (saveConfig symbol {[flag := true]}).
Proof.
  intros st symbol' flag' (o & Ho & Hflag).
  unfold saveConfig.
  destruct (savedConfigSymbols st !! symbol) as [old|] eqn:Hold; simpl.
  - destruct (decide (symbol = symbol')) as [<-|Hne].
    + rewrite lookup_insert_eq. eexists. split; [reflexivity|].
      unfold spread. rewrite Hold in Ho. injection Ho as ->.
      destruct (decide (flag = flag')) as [<-|Hf].
      * apply lookup_union_Some_l. apply lookup_singleton_eq.
      * rewrite lookup_union_r; [exact Hflag|].
        now apply lookup_singleton_ne.
    + rewrite lookup_insert_ne by exact Hne. eauto.
  - destruct (decide (symbol = symbol')) as [<-|Hne].
    + congruence.
    + rewrite lookup_insert_ne by exact Hne. eauto.
Qed.

Lemma add_unsupported_keeps_memo market :
  steps memo_grows (add_unsupported market).
Proof.
  intros st symbol flag H. unfold add_unsupported.
  destruct (decide _); exact H.
Qed.

Section Stores.

Variable rt : Runtime.
Variable defaultLeverages : value.
Variable mapBinanceMarkets : string -> option table_entry.
Variable usdmClient : list call -> call -> result value.

Local Notation prepare :=
  (prepareDataToPlace rt defaultLeverages mapBinanceMarkets usdmClient).

(** X3. A call of [prepareDataToPlace] leaves [unsupportedMarkets] as it
    was or adds the market of its intent to it: it never removes a market
    and never marks another one. *)
Theorem prepare_marks_only_its_market (intent : TradeIntent) (st : State) :
  let st' := snd (prepare intent st) in
  unsupportedMarkets st' = unsupportedMarkets st \/
  unsupportedMarkets st' = {[market intent]} ∪ unsupportedMarkets st.
Proof.
  intros st'.
  assert (H : marks_only (market intent) (unsupportedMarkets st)
                (unsupportedMarkets st')).
  { apply (steps_prepareDataToPlace rt defaultLeverages mapBinanceMarkets
             usdmClient
             (fun s s' => marks_only (market intent) (unsupportedMarkets s)
                            (unsupportedMarkets s'))).
    - intros c s. unfold marks_only. simpl. set_solver.
    - intros e s. unfold marks_only. simpl. set_solver.
    - intros symbol flag s. unfold saveConfig, marks_only.
      destruct (_ !! _); simpl; set_solver.
    - intros s. unfold add_unsupported, marks_only.
      destruct (decide _); simpl; set_solver. }
  destruct H as [H1 H2].
  destruct (decide (market intent ∈ unsupportedMarkets st')).
  - right. set_solver.
  - left. set_solver.
Qed.

(** X4. A flag that [savedConfigSymbols] holds for a symbol is still there
    after any further calls of [prepareDataToPlace] and [placeNewOrder]: the
    memo of the corrections is only added to. *)
Theorem memo_only_grows (st0 st : State) :
  later rt defaultLeverages mapBinanceMarkets usdmClient st0 st ->
  forall symbol flag o,
    savedConfigSymbols st0 !! symbol = Some o -> o !! flag = Some true ->
    exists o', savedConfigSymbols st !! symbol = Some o' /\
               o' !! flag = Some true.
Proof.
  intros Hlater.
  assert (H : memo_grows st0 st).
  { induction Hlater as [|intent st1 _ IH|side symbol quantity st1 _ IH].
    - reflexivity.
    - etransitivity; [exact IH|].
      apply (steps_prepareDataToPlace rt defaultLeverages mapBinanceMarkets
               usdmClient memo_grows).
      + intros c s symbol flag H. exact H.
      + intros e s symbol flag H. exact H.
      + apply saveConfig_true_grows.
      + apply add_unsupported_keeps_memo.
    - etransitivity; [exact IH|].
      apply (steps_placeNewOrder rt usdmClient memo_grows).
      + intros c s symbol' flag H. exact H.
      + intros e s symbol' flag H. exact H. }
  intros symbol flag o Ho Hflag. apply H. eauto.
Qed.

(** X5. [placeNewOrder], [getPrecision] and [getBinancePrice] leave
    [unsupportedMarkets] and [savedConfigSymbols] as they were, whatever the
    exchange answers: an order that fails does not mark its market. *)
Theorem stores_kept_outside_prepare (st : State) :
  (forall side symbol quantity,
     let st' := snd (placeNewOrder rt usdmClient side symbol quantity st) in
     unsupportedMarkets st' = unsupportedMarkets st /\
     savedConfigSymbols st' = savedConfigSymbols st) /\
  (forall symbol,
     let st' := snd (getPrecision rt usdmClient symbol st) in
     unsupportedMarkets st' = unsupportedMarkets st /\
     savedConfigSymbols st' = savedConfigSymbols st) /\
  (forall symbol,
     let st' := snd (getBinancePrice usdmClient symbol st) in
     unsupportedMarkets st' = unsupportedMarkets st /\
     savedConfigSymbols st' = savedConfigSymbols st).
Proof.
  split; [|split]; intros.
  - apply (steps_placeNewOrder rt usdmClient
             (fun s s' => unsupportedMarkets s' = unsupportedMarkets s /\
                          savedConfigSymbols s' = savedConfigSymbols s));
      intros; split; reflexivity.
  - apply (steps_getPrecision rt usdmClient
             (fun s s' => unsupportedMarkets s' = unsupportedMarkets s /\
                          savedConfigSymbols s' = savedConfigSymbols s));
      intros; split; reflexivity.
  - apply (steps_getBinancePrice usdmClient
             (fun s s' => unsupportedMarkets s' = unsupportedMarkets s /\
                          savedConfigSymbols s' = savedConfigSymbols s));
      intros; split; reflexivity.
Qed.

End Stores.

(** ** The requests of [prepareDataToPlace] *)

Lemma emits_weaken {A : Type} (plan plan' : list call) (m : M A) :
  plan `sublist_of` plan' -> emits plan m -> emits plan' m.
Proof.
  intros Hsub Hm st. destruct (Hm st) as (new & Hreq & Hnew).
  exists new. split; [exact Hreq|]. now transitivity plan.
Qed.

Lemma emits_bind {A B : Type} (plan1 plan2 : list call) (m : M A)
    (k : A -> M B) :
  emits plan1 m -> (forall a, emits plan2 (k a)) ->
  emits (plan1 ++ plan2) (bind m k).
Proof.
  intros Hm Hk st. unfold bind.
  destruct (Hm st) as (new1 & Hreq1 & Hnew1).
  destruct (m st) as [[a|e] st1]; simpl in *.
  - destruct (Hk a st1) as (new2 & Hreq2 & Hnew2).
    exists (new2 ++ new1)%list. split.
    + now rewrite Hreq2, Hreq1, app_assoc.
    + rewrite rev_app_distr. now apply sublist_app.
  - exists new1. split; [exact Hreq1|]. now apply sublist_inserts_r.
Qed.

Lemma emits_try_catch {A : Type} (plan1 plan2 : list call) (m : M A)
    (h : exn -> M A) :
  emits plan1 m -> (forall e, emits plan2 (h e)) ->
  emits (plan1 ++ plan2) (try_catch m h).
Proof.
  intros Hm Hh st. unfold try_catch.
  destruct (Hm st) as (new1 & Hreq1 & Hnew1).
  destruct (m st) as [[a|e] st1]; simpl in *.
  - exists new1. split; [exact Hreq1|]. now apply sublist_inserts_r.
  - destruct (Hh e st1) as (new2 & Hreq2 & Hnew2).
    exists (new2 ++ new1)%list. split.
    + now rewrite Hreq2, Hreq1, app_assoc.
    + rewrite rev_app_distr. now apply sublist_app.
Qed.

(** A computation that keeps the history sends nothing. *)
Lemma emits_nothing {A : Type} (plan : list call) (m : M A) :
  (forall st, requests (snd (m st)) = requests st) -> emits plan m.
Proof.
  intros H st. exists []. split; [apply H|]. apply sublist_nil_l.
Qed.

Lemma emits_silent_bind {A B : Type} (plan : list call) (m : M A)
    (k : A -> M B) :
  (forall st, requests (snd (m st)) = requests st) ->
  (forall a, emits plan (k a)) -> emits plan (bind m k).
Proof.
  intros Hm Hk.
  apply (emits_bind [] plan); [now apply emits_nothing|exact Hk].
Qed.

Lemma emits_await_bind {B : Type} (plan : list call) client (c : call)
    (k : value -> M B) :
  (forall a, emits plan (k a)) -> emits (c :: plan) (bind (await client c) k).
Proof.
  intros Hk. apply (emits_bind [c] plan); [|exact Hk].
  intros st. exists [c]. split; reflexivity.
Qed.

Lemma emits_if {A : Type} (plan : list call) (b : bool) (m1 m2 : M A) :
  emits plan m1 -> emits plan m2 -> emits plan (if b then m1 else m2).
Proof. destruct b; auto. Qed.

Lemma silent_saveConfig symbol o st :
  requests (snd (saveConfig symbol o st)) = requests st.
Proof. unfold saveConfig. destruct (_ !! _); reflexivity. Qed.

Lemma silent_add_unsupported market st :
  requests (snd (add_unsupported market st)) = requests st.
Proof. unfold add_unsupported. destruct (decide _); reflexivity. Qed.

Lemma silent_run_calculateSize rt leverages collateral price precision st :
  requests (snd (run_calculateSize rt leverages collateral price precision st))
  = requests st.
Proof.
  destruct (run_calculateSize_run rt leverages collateral price precision st)
    as (st' & Hrun & _ & Hreq).
  now rewrite Hrun.
Qed.

(** The steps that send nothing, then the others. *)
Ltac emit_steps :=
  repeat first
    [ apply emits_silent_bind;
      [first [ reflexivity
             | apply silent_saveConfig
             | apply silent_add_unsupported
             | apply silent_run_calculateSize ]
      |intros ?]
    | apply emits_if
    | apply emits_nothing;
      first [ reflexivity
            | apply silent_saveConfig
            | apply silent_add_unsupported ] ].

Section Requests.

Variable rt : Runtime.
Variable defaultLeverages : value.
Variable mapBinanceMarkets : string -> option table_entry.
Variable usdmClient : list call -> call -> result value.

Local Notation prepare :=
  (prepareDataToPlace rt defaultLeverages mapBinanceMarkets usdmClient).
Local Notation convert := (convertMarketToBinanceMarket mapBinanceMarkets).

Lemma prepare_try_emits intent symbol :
  emits (request_plan defaultLeverages symbol)
    (prepare_try rt defaultLeverages usdmClient intent symbol).
Proof.
  unfold prepare_try, request_plan.
  apply emits_await_bind. intros exchangeInfo.
  emit_steps.
  apply emits_await_bind. intros priceInfo.
  emit_steps.
  apply emits_await_bind. intros symbolConfig.
  emit_steps.
  apply (emits_bind [setLeverage (leverage_params defaultLeverages symbol)]
           [setMarginType (marginType_params symbol)]).
  - apply emits_if; [|emit_steps].
    apply emits_await_bind. intros ?. emit_steps.
  - intros []. apply (emits_bind [setMarginType (marginType_params symbol)] []).
    + apply emits_if; [|emit_steps].
      apply emits_await_bind. intros ?. emit_steps.
    + intros []. emit_steps.
Qed.

(** X6. What a call of [prepareDataToPlace] sends is added in front of the
    history and is, in this order and each at most once, taken from:
    [getExchangeInfo], [getMarkPrice], [getFuturesSymbolConfig],
    [setLeverage], [setMarginType], for the symbol of the market. It sends
    at most five requests, never [submitNewOrder], and nothing at all for a
    market that has no symbol. *)
Theorem prepare_request_plan (intent : TradeIntent) (st : State) :
  exists new,
    requests (snd (prepare intent st)) = (new ++ requests st)%list /\
    (length new <= 5)%nat /\
    (forall params, submitNewOrder params ∉ new) /\
    match convert (market intent) with
    | Some symbol => rev new `sublist_of` request_plan defaultLeverages symbol
    | None => new = []
    end.
Proof.
  assert (H : exists new,
    requests (snd (prepare intent st)) = (new ++ requests st)%list /\
    match convert (market intent) with
    | Some symbol => rev new `sublist_of` request_plan defaultLeverages symbol
    | None => new = []
    end).
  { unfold prepareDataToPlace.
    destruct (decide (market intent ∈ unsupportedMarkets st)).
    - exists []. split; [reflexivity|].
      destruct (convert (market intent)); [apply sublist_nil_l|reflexivity].
    - destruct (convert (market intent)) as [symbol|].
      + assert (He : emits (request_plan defaultLeverages symbol ++ [])
                  (try_catch
                     (prepare_try rt defaultLeverages usdmClient intent symbol)
                     (prepare_catch intent symbol))).
        { apply emits_try_catch; [apply prepare_try_emits|].
          intros e. unfold prepare_catch. emit_steps. }
        rewrite app_nil_r in He. apply He.
      + exists []. split; [|reflexivity].
        unfold bind, ret, add_unsupported. destruct (decide _); reflexivity. }
  destruct H as (new & Hreq & Hplan).
  exists new. split; [exact Hreq|].
  assert (Hsub : exists symbol,
            rev new `sublist_of` request_plan defaultLeverages symbol).
  { destruct (convert (market intent)) as [symbol|].
    - eauto.
    - exists (Symbol ""). subst new. apply sublist_nil_l. }
  destruct Hsub as [symbol Hsub].
  split; [|split; [|exact Hplan]].
  - apply sublist_length in Hsub. rewrite length_rev in Hsub. exact Hsub.
  - intros params Hin.
    assert (Hin' : submitNewOrder params ∈ request_plan defaultLeverages symbol).
    { eapply sublist_subseteq; [exact Hsub|].
      apply list_elem_of_In, in_rev. rewrite rev_involutive.
      now apply list_elem_of_In. }
    unfold request_plan in Hin'.
    repeat (apply elem_of_cons in Hin' as [Hin'|Hin']; [discriminate|]).
    now apply elem_of_nil in Hin'.
Qed.

End Requests.

(** ** The paths of [prepareDataToPlace] *)

Lemma console_lines_stores (lines : list log_entry) (st : State) :
  let st' := fold_left (fun s e => push_console e s) lines st in
  requests st' = requests st /\
  savedConfigSymbols st' = savedConfigSymbols st /\
  unsupportedMarkets st' = unsupportedMarkets st.
Proof.
  revert st. induction lines as [|e lines IH]; intros st; simpl.
  - auto.
  - destruct (IH (push_console e st)) as (H1 & H2 & H3). auto.
Qed.

Lemma run_calculateSize_stores rt leverages collateral price precision q
    st st' :
  run_calculateSize rt leverages collateral price precision st = (Ok q, st') ->
  requests st' = requests st /\
  savedConfigSymbols st' = savedConfigSymbols st /\
  unsupportedMarkets st' = unsupportedMarkets st.
Proof.
  unfold run_calculateSize.
  destruct (calculateSizeInMarketToken _ _ _ _ _) as [q' lines].
  intros [= _ <-]. apply console_lines_stores.
Qed.

Lemma saveConfig_inv symbol o st u st' :
  saveConfig symbol o st = (Ok u, st') ->
  requests st' = requests st /\
  unsupportedMarkets st' = unsupportedMarkets st /\
  savedConfigSymbols st'
  = <[symbol := match savedConfigSymbols st !! symbol with
                 | Some old => spread old o
                 | None => o
                 end]> (savedConfigSymbols st).
Proof.
  unfold saveConfig. destruct (_ !! _); intros [= _ <-]; auto.
Qed.

Lemma saveConfig_records symbol flag st u st' :
  saveConfig symbol {[flag := true]} st = (Ok u, st') ->
  exists o, savedConfigSymbols st' !! symbol = Some o /\
            o !! flag = Some true.
Proof.
  unfold saveConfig.
  destruct (savedConfigSymbols st !! symbol) as [old|];
    intros [= _ <-]; simpl; rewrite lookup_insert_eq;
    eexists; (split; [reflexivity|]).
  - unfold spread. apply lookup_union_Some_l, lookup_singleton_eq.
  - apply lookup_singleton_eq.
Qed.

Section Paths.

Variable rt : Runtime.
Variable defaultLeverages : value.
Variable mapBinanceMarkets : string -> option table_entry.
Variable usdmClient : list call -> call -> result value.

Local Notation prepare :=
  (prepareDataToPlace rt defaultLeverages mapBinanceMarkets usdmClient).
Local Notation prepare_block :=
  (prepare_try rt defaultLeverages usdmClient).
Local Notation convert := (convertMarketToBinanceMarket mapBinanceMarkets).
Local Notation Number := (ToNumber rt).
Local Notation LEVERAGE := (DEFAULT_LEVERAGE defaultLeverages).

(** X7. A market for which [mapBinanceMarkets[market]] is [undefined] (the
    table has no entry of this name, own or inherited) or the empty string
    makes [prepareDataToPlace] return [null] and leave the market in
    [unsupportedMarkets]; nothing is sent to the exchange and nothing is
    printed. *)
Theorem prepare_unmapped_market (intent : TradeIntent) (st : State) :
  mapBinanceMarkets (market intent) = None \/
  mapBinanceMarkets (market intent) = Some (Symbol "") ->
  exists st',
    prepare intent st = (Ok None, st') /\
    market intent ∈ unsupportedMarkets st' /\
    requests st' = requests st /\
    console st' = console st /\
    savedConfigSymbols st' = savedConfigSymbols st.
Proof.
  intros H.
  assert (Hc : convert (market intent) = None).
  { unfold convertMarketToBinanceMarket. now destruct H as [->| ->]. }
  unfold prepareDataToPlace.
  destruct (decide (market intent ∈ unsupportedMarkets st)) as [Hin|Hn].
  - exists st. auto.
  - rewrite Hc. unfold bind, ret, add_unsupported.
    destruct (decide (market intent ∈ unsupportedMarkets st)); [contradiction|].
    eexists. split; [reflexivity|]. simpl. repeat split. set_solver.
Qed.

(** X8. When the exchange information does not list the symbol of the
    market, [prepareDataToPlace] returns [null] and marks the market after
    the one request, without printing anything. *)
Theorem prepare_unlisted_symbol (intent : TradeIntent) (st : State)
    (sym : table_entry) (exchangeInfo : value) :
  market intent ∉ unsupportedMarkets st ->
  convert (market intent) = Some sym ->
  usdmClient (requests st) getExchangeInfo = Ok exchangeInfo ->
  find_marketInfo sym exchangeInfo = Ok VUndefined ->
  exists st',
    prepare intent st = (Ok None, st') /\
    unsupportedMarkets st' = {[market intent]} ∪ unsupportedMarkets st /\
    requests st' = getExchangeInfo :: requests st /\
    console st' = console st.
Proof.
  intros Hn Hsym Hinfo Hfind.
  unfold prepareDataToPlace.
  destruct (decide (market intent ∈ unsupportedMarkets st)); [contradiction|].
  rewrite Hsym. unfold try_catch, prepare_try.
  unfold bind at 1. rewrite (await_run _ _ _ _ Hinfo).
  unfold bind at 1, lift at 1. rewrite Hfind. cbn [truthy negb].
  unfold bind, ret, add_unsupported. cbn [unsupportedMarkets push_request].
  destruct (decide (market intent ∈ unsupportedMarkets st)); [contradiction|].
  eexists. split; [reflexivity|]. auto.
Qed.

Lemma find_first_inherited member items v :
  find_first (symbol_is (Inherited member)) items = Ok v -> v = VUndefined.
Proof.
  induction items as [|s items IH]; simpl; [now intros [= <-]|].
  unfold symbol_is at 1.
  destruct (getProp s "symbol") as [name|e]; simpl; [|discriminate].
  assert (E : strict_eq name (VObj []) = false) by now destruct name.
  rewrite E. exact IH.
Qed.

(** X28. A market whose name finds a member that the table inherits
    ([constructor] in a plain object, say) is not taken for unmapped: the
    member is truthy, so [prepareDataToPlace] asks for the exchange
    information, and since no symbol of a response is identical to the
    member, it returns [null] with the market marked after this one request,
    whatever the exchange answers. *)
Theorem prepare_inherited_member (intent : TradeIntent) (st : State)
    (member : string) :
  market intent ∉ unsupportedMarkets st ->
  mapBinanceMarkets (market intent) = Some (Inherited member) ->
  exists st',
    prepare intent st = (Ok None, st') /\
    unsupportedMarkets st' = {[market intent]} ∪ unsupportedMarkets st /\
    requests st' = getExchangeInfo :: requests st /\
    savedConfigSymbols st' = savedConfigSymbols st.
Proof.
  intros Hn Hentry.
  unfold prepareDataToPlace, convertMarketToBinanceMarket.
  destruct (decide (market intent ∈ unsupportedMarkets st)); [contradiction|].
  rewrite Hentry. cbn [entry_value truthy].
  unfold try_catch, prepare_try.
  unfold bind at 1, await at 1.
  assert (Hmark : forall (lines : list log_entry),
    let st1 := mkState (unsupportedMarkets st) (savedConfigSymbols st)
                 (getExchangeInfo :: requests st) lines in
    exists st',
      (add_unsupported (market intent) ;; ret (@None OrderDescriptor)) st1
      = (Ok None, st') /\
      unsupportedMarkets st' = {[market intent]} ∪ unsupportedMarkets st /\
      requests st' = getExchangeInfo :: requests st /\
      savedConfigSymbols st' = savedConfigSymbols st).
  { intros lines st1. unfold bind, ret, add_unsupported. simpl.
    destruct (decide (market intent ∈ unsupportedMarkets st));
      [contradiction|].
    eexists. split; [reflexivity|]. auto. }
  assert (Hcatch : forall e,
    exists st',
      prepare_catch intent (Inherited member) e
        (push_request getExchangeInfo st) = (Ok None, st') /\
      unsupportedMarkets st' = {[market intent]} ∪ unsupportedMarkets st /\
      requests st' = getExchangeInfo :: requests st /\
      savedConfigSymbols st' = savedConfigSymbols st).
  { intros e. unfold prepare_catch.
    unfold bind at 1, console_error at 1. apply Hmark. }
  destruct (usdmClient (requests st) getExchangeInfo) as [info|e];
    [|apply Hcatch].
  unfold bind at 1, lift at 1.
  destruct (find_marketInfo (Inherited member) info) as [marketInfo|e] eqn:Hfind;
    [|apply Hcatch].
  assert (marketInfo = VUndefined) as ->.
  { unfold find_marketInfo in Hfind.
    destruct (getProp info "symbols") as [symbols|]; [|discriminate].
    simpl in Hfind.
    destruct symbols; try discriminate.
    now apply find_first_inherited in Hfind. }
  cbn [truthy negb].
  destruct (Hmark (console st)) as (st' & Hrun & Hrest).
  exists st'. split; [|exact Hrest].
  cbv zeta in Hrun. unfold push_request. now rewrite Hrun.
Qed.

Lemma prepare_block_tail intent sym st d st' :
  prepare_block intent sym st = (Ok (Some d), st') ->
  exists symbolConfig first leverage marginType st3 st4 st5,
    requests st3
    = getMarkPrice (markPrice_params sym) :: getExchangeInfo :: requests st /\
    savedConfigSymbols st3 = savedConfigSymbols st /\
    usdmClient (requests st3) (getFuturesSymbolConfig (symbol_params sym))
    = Ok symbolConfig /\
    getIndex0 symbolConfig = Ok first /\
    getProp first "leverage" = Ok leverage /\
    getProp first "marginType" = Ok marginType /\
    st4 = push_request (getFuturesSymbolConfig (symbol_params sym)) st3 /\
    (if negb (strict_eq leverage LEVERAGE)
     then exists u,
            saveConfig sym {["leverage" := true]}
              (push_request (setLeverage (leverage_params defaultLeverages sym))
                 st4) = (Ok u, st5)
     else st5 = st4) /\
    (if negb (strict_eq marginType (VStr "ISOLATED"))
     then exists u,
            saveConfig sym {["marginType" := true]}
              (push_request (setMarginType (marginType_params sym)) st5)
            = (Ok u, st')
     else st' = st5).
Proof.
  unfold prepare_try. intros H.
  apply bind_Ok_inv in H as (exchangeInfo & s1 & H1 & H).
  apply await_Ok_inv in H1 as [H1 ->].
  apply bind_Ok_inv in H as (marketInfo & s2 & H2 & H).
  apply lift_Ok_inv in H2 as [H2 ->].
  destruct (negb (truthy marketInfo)).
  { apply bind_Ok_inv in H as (? & ? & _ & H).
    apply ret_Ok_inv in H as [H _]. discriminate H. }
  apply bind_Ok_inv in H as ([minQty minNotional] & s3 & H3 & H).
  apply lift_Ok_inv in H3 as [H3 ->].
  cbv zeta in H. cbn [fst snd] in H.
  apply bind_Ok_inv in H as (priceInfo & s4 & H4 & H).
  apply await_Ok_inv in H4 as [H4 ->].
  apply bind_Ok_inv in H as (binancePrice & s5 & H5 & H).
  apply lift_Ok_inv in H5 as [H5 ->].
  apply bind_Ok_inv in H as (precision & s6 & H6 & H).
  apply lift_Ok_inv in H6 as [H6 ->].
  apply bind_Ok_inv in H as (q & st3 & H7 & H).
  apply run_calculateSize_stores in H7 as (Hreq & Hmemo & _).
  destruct (negb (num_truthy q) || num_le q (num 0)).
  { apply ret_Ok_inv in H as [H _]. discriminate H. }
  destruct (num_gt minQty (num 0) && num_lt q minQty).
  { apply bind_Ok_inv in H as (? & ? & _ & H).
    apply ret_Ok_inv in H as [H _]. discriminate H. }
  destruct (num_gt minNotional (num 0)
            && num_lt (num_mul q (ToNumber rt binancePrice)) minNotional).
  { apply bind_Ok_inv in H as (? & ? & _ & H).
    apply ret_Ok_inv in H as [H _]. discriminate H. }
  apply bind_Ok_inv in H as (symbolConfig & st4 & H8 & H).
  apply await_Ok_inv in H8 as [H8 ->].
  apply bind_Ok_inv in H as (first & s9 & H9 & H).
  apply lift_Ok_inv in H9 as [H9 ->].
  apply bind_Ok_inv in H as (leverage & s10 & H10 & H).
  apply lift_Ok_inv in H10 as [H10 ->].
  apply bind_Ok_inv in H as (marginType & s11 & H11 & H).
  apply lift_Ok_inv in H11 as [H11 ->].
  apply bind_Ok_inv in H as (u1 & st5 & Hlev & H).
  apply bind_Ok_inv in H as (u2 & st6 & Hmar & H).
  apply ret_Ok_inv in H as [_ ->].
  exists symbolConfig, first, leverage, marginType, st3,
    (push_request (getFuturesSymbolConfig (symbol_params sym)) st3), st5.
  repeat split; try assumption.
  - destruct (negb (strict_eq leverage LEVERAGE)).
    + apply bind_Ok_inv in Hlev as (a & s & Ha & Hs).
      apply await_Ok_inv in Ha as [_ ->]. eauto.
    + now apply ret_Ok_inv in Hlev as [_ ->].
  - destruct (negb (strict_eq marginType (VStr "ISOLATED"))).
    + apply bind_Ok_inv in Hmar as (a & s & Ha & Hs).
      apply await_Ok_inv in Ha as [_ ->]. eauto.
    + now apply ret_Ok_inv in Hmar as [_ ->].
Qed.

(** X9. When [prepareDataToPlace] returns a descriptor, it has asked for
    the configuration of the symbol after the two fetches, and it has then
    sent [setLeverage] exactly when the leverage of the account is not
    [DEFAULT_LEVERAGE] and [setMarginType] exactly when its margin type is
    not ["ISOLATED"], in this order; each correction is recorded for the
    symbol in [savedConfigSymbols], which is unchanged when there is
    none. *)
Theorem prepare_corrects_drift (intent : TradeIntent) (st : State)
    (d : OrderDescriptor) (st' : State) :
  prepare intent st = (Ok (Some d), st') ->
  exists symbolConfig first leverage marginType,
    usdmClient
      (getMarkPrice (markPrice_params (symbol d)) :: getExchangeInfo
       :: requests st)
      (getFuturesSymbolConfig (symbol_params (symbol d))) = Ok symbolConfig /\
    getIndex0 symbolConfig = Ok first /\
    getProp first "leverage" = Ok leverage /\
    getProp first "marginType" = Ok marginType /\
    let leverage_drifts := negb (strict_eq leverage LEVERAGE) in
    let margin_drifts := negb (strict_eq marginType (VStr "ISOLATED")) in
    requests st'
    = ((if margin_drifts
        then [setMarginType (marginType_params (symbol d))] else []) ++
       (if leverage_drifts
        then [setLeverage (leverage_params defaultLeverages (symbol d))]
        else []) ++
       [getFuturesSymbolConfig (symbol_params (symbol d));
        getMarkPrice (markPrice_params (symbol d));
        getExchangeInfo] ++ requests st)%list /\
    (leverage_drifts = true ->
     exists o, savedConfigSymbols st' !! symbol d = Some o /\
               o !! "leverage" = Some true) /\
    (margin_drifts = true ->
     exists o, savedConfigSymbols st' !! symbol d = Some o /\
               o !! "marginType" = Some true) /\
    (leverage_drifts = false -> margin_drifts = false ->
     savedConfigSymbols st' = savedConfigSymbols st).
Proof.
  intros H. apply prepare_returns in H as [_ H].
  apply prepare_block_tail in H
    as (symbolConfig & first & leverage & marginType & st3 & st4 & st5
        & Hreq & Hmemo & Hconfig & Hfirst & Hlev & Hmar & -> & H5 & H6).
  exists symbolConfig, first, leverage, marginType.
  rewrite Hreq in Hconfig.
  repeat (split; [assumption|]).
  intros leverage_drifts margin_drifts.
  fold leverage_drifts in H5. fold margin_drifts in H6.
  destruct leverage_drifts, margin_drifts.
  - destruct H5 as [u5 H5]. destruct H6 as [u6 H6].
    pose proof (saveConfig_records _ _ _ _ _ H5) as Hl.
    pose proof (saveConfig_records _ _ _ _ _ H6) as Hm.
    pose proof (saveConfig_true_grows (symbol d) "marginType"
                  (push_request (setMarginType (marginType_params (symbol d)))
                     st5) (symbol d) "leverage") as Hkeep.
    rewrite H6 in Hkeep.
    apply saveConfig_inv in H5 as (R5 & _ & _).
    apply saveConfig_inv in H6 as (R6 & _ & _).
    cbn [requests push_request] in R5, R6. rewrite R6, R5, Hreq.
    split; [reflexivity|]. split; [|split].
    + intros _. apply Hkeep. exact Hl.
    + intros _. exact Hm.
    + discriminate.
  - destruct H5 as [u5 H5]. subst st'.
    pose proof (saveConfig_records _ _ _ _ _ H5) as Hl.
    apply saveConfig_inv in H5 as (R5 & _ & _).
    cbn [requests push_request] in R5. rewrite R5, Hreq.
    split; [reflexivity|]. split; [|split].
    + intros _. exact Hl.
    + discriminate.
    + discriminate.
  - subst st5. destruct H6 as [u6 H6].
    pose proof (saveConfig_records _ _ _ _ _ H6) as Hm.
    apply saveConfig_inv in H6 as (R6 & _ & _).
    cbn [requests push_request] in R6. rewrite R6, Hreq.
    split; [reflexivity|]. split; [|split].
    + discriminate.
    + intros _. exact Hm.
    + discriminate.
  - subst st5 st'. cbn [requests push_request]. rewrite Hreq.
    split; [reflexivity|]. split; [discriminate|]. split; [discriminate|].
    intros _ _. exact Hmemo.
Qed.

End Paths.

(** ** [placeNewOrder] past its guard *)

Section Orders.

Variable rt : Runtime.
Variable defaultLeverages : value.
Variable mapBinanceMarkets : string -> option table_entry.
Variable usdmClient : list call -> call -> result value.

Local Notation prepare :=
  (prepareDataToPlace rt defaultLeverages mapBinanceMarkets usdmClient).
Local Notation place := (placeNewOrder rt usdmClient).
Local Notation Number := (ToNumber rt).
Local Notation params := (orderParams rt).

Lemma place_accepted_sends side symbol quantity st :
  accepted rt quantity ->
  requests (snd (place side symbol quantity st))
  = submitNewOrder (params side symbol quantity st) :: requests st.
Proof.
  intros [Ht Hle]. unfold placeNewOrder. rewrite Ht, Hle. cbn [negb orb].
  match goal with
  | |- context [try_catch ?b ?h] => set (body := b); set (handler := h)
  end.
  assert (Hbody : requests (snd (body st))
                  = submitNewOrder (params side symbol quantity st)
                    :: requests st).
  { unfold body, bind, await, lift, ret, console_log, orderParams.
    cbn [requests push_console push_request fst snd].
    destruct (usdmClient _ _) as [response|e]; [|reflexivity].
    destruct (getProp response "orderId"); [|reflexivity].
    destruct (getProp response "status"); [|reflexivity].
    destruct (getProp response "executedQty"); [|reflexivity].
    destruct (getProp response "avgPrice"); reflexivity. }
  assert (Hhandler : forall e s, requests (snd (handler e s)) = requests s).
  { intros e s. unfold handler, bind, lift, console_error, throw.
    destruct (getProp (exn_value e) "message"); [|reflexivity].
    destruct (getProp (exn_value e) "body"); reflexivity. }
  unfold try_catch. destruct (body st) as [[a|e] s]; cbn [snd] in *.
  - exact Hbody.
  - now rewrite Hhandler.
Qed.

Lemma getProp_object (v : value) (k : string) :
  v <> VUndefined -> v <> VNull -> exists x, getProp v k = Ok x.
Proof. destruct v; simpl; eauto; congruence. Qed.

(** X10. A quantity that passes the guard is sent as one [MARKET] order,
    and when the exchange resolves the request with a response (an object,
    or anything but [undefined] and [null]), [placeNewOrder] returns that
    response, having printed the attempt and the success. *)
Theorem place_returns_response (side symbol quantity response : value)
    (st : State) :
  accepted rt quantity ->
  usdmClient (requests st) (submitNewOrder (params side symbol quantity st))
  = Ok response ->
  response <> VUndefined -> response <> VNull ->
  exists st' placed,
    place side symbol quantity st = (Ok response, st') /\
    requests st'
    = submitNewOrder (params side symbol quantity st) :: requests st /\
    console st'
    = Entry Log "Order placed successfully:" [placed]
      :: Entry Log "Attempting to place order:"
           [params side symbol quantity st]
      :: console st.
Proof.
  intros [Ht Hle] Hresp Hu Hn.
  destruct (getProp_object response "orderId" Hu Hn) as [v1 H1].
  destruct (getProp_object response "status" Hu Hn) as [v2 H2].
  destruct (getProp_object response "executedQty" Hu Hn) as [v3 H3].
  destruct (getProp_object response "avgPrice" Hu Hn) as [v4 H4].
  unfold placeNewOrder. rewrite Ht, Hle. cbn [negb orb].
  unfold try_catch, bind, await, lift, ret, console_log.
  cbn [requests push_console push_request fst snd].
  unfold orderParams in Hresp. rewrite Hresp, H1, H2, H3, H4.
  eexists. eexists. split; [reflexivity|]. split; reflexivity.
Qed.

(** X11. When the exchange rejects the order, [placeNewOrder] prints the
    error and throws what the request was rejected with (an object, or
    anything but [undefined] and [null]) on to its caller; the request
    has been sent once. *)
Theorem place_rethrows (side symbol quantity : value) (e : exn)
    (st : State) :
  accepted rt quantity ->
  usdmClient (requests st) (submitNewOrder (params side symbol quantity st))
  = Raise e ->
  exn_value e <> VUndefined -> exn_value e <> VNull ->
  exists st' report,
    place side symbol quantity st = (Raise e, st') /\
    requests st'
    = submitNewOrder (params side symbol quantity st) :: requests st /\
    console st'
    = Entry Error "Error placing order:" [report]
      :: Entry Log "Attempting to place order:"
           [params side symbol quantity st]
      :: console st.
Proof.
  intros [Ht Hle] Hresp Hu Hn.
  destruct (getProp_object (exn_value e) "message" Hu Hn) as [v1 H1].
  destruct (getProp_object (exn_value e) "body" Hu Hn) as [v2 H2].
  unfold placeNewOrder. rewrite Ht, Hle. cbn [negb orb].
  unfold try_catch, bind, await, lift, ret, console_log, console_error, throw.
  cbn [requests push_console push_request fst snd].
  unfold orderParams in Hresp. rewrite Hresp, H1, H2.
  eexists. eexists. split; [reflexivity|]. split; reflexivity.
Qed.

(** X12. When the exchange resolves the order with [undefined] or [null],
    [placeNewOrder] throws a [TypeError] to its caller although the order
    has been sent. *)
Theorem place_throws_on_empty_response (side symbol quantity response : value)
    (st : State) :
  accepted rt quantity ->
  usdmClient (requests st) (submitNewOrder (params side symbol quantity st))
  = Ok response ->
  response = VUndefined \/ response = VNull ->
  exists msg st',
    place side symbol quantity st = (Raise (TypeError msg), st') /\
    requests st'
    = submitNewOrder (params side symbol quantity st) :: requests st.
Proof.
  intros [Ht Hle] Hresp Hempty.
  unfold placeNewOrder. rewrite Ht, Hle. cbn [negb orb].
  unfold try_catch, bind, await, lift, ret, console_log, console_error, throw.
  cbn [requests push_console push_request fst snd].
  unfold orderParams in Hresp. rewrite Hresp.
  destruct Hempty as [-> | ->]; cbn;
    eexists; eexists; (split; reflexivity).
Qed.

(** X13. The descriptor that [prepareDataToPlace] returns passes the guard
    of [placeNewOrder]: handed over, in any state, it is sent to the
    exchange as one order, whatever becomes of it. *)
Theorem prepared_order_is_sent (intent : TradeIntent) (st : State)
    (d : OrderDescriptor) (st1 : State) :
  prepare intent st = (Ok (Some d), st1) ->
  forall st2,
    requests
      (snd (place (side_value (side d)) (entry_value (symbol d)) (VNum (quantity d))
              st2))
    = submitNewOrder
        (params (side_value (side d)) (entry_value (symbol d)) (VNum (quantity d))
           st2)
      :: requests st2.
Proof.
  intros H st2. apply prepare_returns in H as [_ H].
  apply prepare_block_returns in H
    as (? & ? & ? & ? & ? & ? & ? & _ & _ & _ & _ & _ & _ & _ & _ & _
        & Hpos & _).
  apply place_accepted_sends.
  apply orb_false_elim in Hpos as [Ht Hle].
  split; [|exact Hle]. now apply negb_false_iff in Ht.
Qed.

End Orders.

(** ** The worth of a prepared order *)

Section Notional.

Variable rt : Runtime.
Variable defaultLeverages : value.
Variable mapBinanceMarkets : string -> option table_entry.
Variable usdmClient : list call -> call -> result value.

Local Notation prepare :=
  (prepareDataToPlace rt defaultLeverages mapBinanceMarkets usdmClient).
Local Notation Number := (ToNumber rt).
Local Notation LEVERAGE := (DEFAULT_LEVERAGE defaultLeverages).

(** X14. When [prepareDataToPlace] returns a descriptor with a finite
    quantity for a numeric size and a leverage that is a number of at least
    1, then for a precision from 0 to 22 and a numeric mark price (at most
    [2^1024], as every double) the quantity is above 0 and is worth, at the
    mark price, at most the size of the trade and [2^-49] of it: the
    roundings of the division by the leverage and of the sizing formula add
    no more. *)
Theorem prepared_notional_near_size (intent : TradeIntent) (st : State)
    (d : OrderDescriptor) (st' : State) (s leverage q : Qc) :
  prepare intent st = (Ok (Some d), st') ->
  Number (size intent) = Fin s ->
  LEVERAGE = VNum (Fin leverage) -> (1 <= leverage)%Qc ->
  quantity d = Fin q ->
  exists exchangeInfo marketInfo priceInfo binancePrice precision,
    usdmClient (requests st) getExchangeInfo = Ok exchangeInfo /\
    find_marketInfo (symbol d) exchangeInfo = Ok marketInfo /\
    getProp marketInfo "quantityPrecision" = Ok precision /\
    usdmClient (getExchangeInfo :: requests st)
      (getMarkPrice (markPrice_params (symbol d))) = Ok priceInfo /\
    getProp priceInfo "markPrice" = Ok binancePrice /\
    forall (n : Z) (p : Qc),
      Number precision = Fin (qz n) -> 0 <= n <= 22 ->
      Number binancePrice = Fin p -> (p <= pow2 1024)%Q ->
      (0 < q /\ q * p <= s * (1 + pow2 (-49)))%Q.
Proof.
  intros H Hs Hl Hl1 Hfin.
  apply prepare_returns in H as [_ H].
  apply prepare_block_returns in H
    as (exchangeInfo & marketInfo & minQty & minNotional & priceInfo
        & binancePrice & precision & Hinfo & Hfind & _ & Hprice & Hmark
        & Hprec & _ & _ & Hq & Hpos & _ & _).
  exists exchangeInfo, marketInfo, priceInfo, binancePrice, precision.
  repeat (split; [assumption|]).
  intros n p Hn Hrange Hp Hpmax.
  apply num_accepted_pos in Hpos.
  assert (Hq0 : (0 < q)%Q).
  { rewrite Hfin in Hpos. simpl in Hpos. now apply Qc_ltb_lt in Hpos. }
  split; [exact Hq0|].
  rewrite Hq in Hpos, Hfin.
  destruct (calculateSize_pos_inv rt defaultLeverages _ _ _ Hpos)
    as (Hp0 & Hmin & Hnan & Hformula).
  rewrite Hformula in Hfin. clear Hformula Hpos Hq.
  assert (Hl' : Number LEVERAGE = Fin leverage) by now rewrite Hl.
  assert (Hl0 : (0 < leverage)%Qc).
  { apply Qclt_le_trans with 1%Qc; [reflexivity|exact Hl1]. }
  rewrite Hp in Hp0. simpl in Hp0. apply Qc_ltb_lt in Hp0.
  rewrite qz_0 in Hp0.
  pose proof (pow10_pos n) as Hm0.
  rewrite Hn, (Math_pow10_exact rt n Hrange), Hl', Hp in Hfin.
  cbv zeta in Hfin.
  cbn [ToNumber] in Hfin, Hmin, Hnan.
  unfold collateral_of in Hfin, Hmin, Hnan.
  rewrite Hs, Hl' in Hfin, Hmin, Hnan.
  simpl num_div in Hmin, Hnan.
  rewrite (Qc_eqb_pos leverage Hl0) in Hmin, Hnan.
  destruct (round64 (s / leverage)) as [| | |c] eqn:Ec.
  - now destruct Hnan.
  - exfalso. revert Hfin. simpl.
    rewrite (Qc_eqb_pos leverage Hl0), Ec. simpl.
    rewrite (Qsgn_pos' leverage Hl0). simpl.
    rewrite (Qsgn_pos' p Hp0). simpl.
    rewrite (Qsgn_pos' _ Hm0). simpl.
    rewrite (Qsgn_pos' _ Hm0). discriminate.
  - discriminate Hmin.
  - simpl in Hmin. apply Qc_ltb_false in Hmin.
    assert (Hc : num_div (Fin s) (Fin leverage) = Fin c).
    { simpl. now rewrite (Qc_eqb_pos leverage Hl0). }
    rewrite Hc in Hfin.
    destruct (formula_accuracy c p leverage q n Hmin Hp0 Hpmax Hrange Hl1 Hfin)
      as [_ Hupper].
    pose proof (collateral_normal _ _ Ec Hmin) as Hx.
    destruct (round64_relative (s / leverage) c) as [_ Hcu]; [|exact Ec|].
    { apply Qle_trans with 1%Q; [discriminate|exact Hx]. }
    rewrite this_div in Hx, Hcu.
    assert (Hu : (pow2 (-53) == u53)%Q) by reflexivity.
    assert (E50 : (pow2 (-50) == u50)%Q) by reflexivity.
    assert (E49 : (pow2 (-49) == 1 # 562949953421312)%Q) by reflexivity.
    rewrite Hu in Hcu. rewrite E50 in Hupper. rewrite E49.
    assert (HL0 : (0 < leverage)%Q) by exact Hl0.
    assert (HP0 : (0 < p)%Q) by exact Hp0.
    pose proof (Qinv_lt_0_compat leverage HL0) as Hil.
    apply (notional_algebra s leverage (/ leverage) c p (/ p) q);
      try assumption.
    + apply Qmult_inv_r. lra.
    + apply Qmult_inv_r. lra.
    + assert (H0 : (0 <= s * / leverage * leverage)%Q) by nra.
      assert (E : (s * / leverage * leverage == s)%Q) by (field; lra).
      now rewrite E in H0.
Qed.

End Notional.

(** ** After the reset, and the filters of a symbol *)

Lemma try_await_history {A : Type} client (c : call) (k : value -> M A)
    (h : exn -> M A) :
  (forall a, steps history_grows (k a)) ->
  (forall e, steps history_grows (h e)) ->
  forall st, exists new,
    requests (snd (try_catch (bind (await client c) k) h st))
    = (new ++ c :: requests st)%list.
Proof.
  intros Hk Hh st. unfold try_catch, bind, await.
  destruct (client (requests st) c) as [a|e].
  - destruct (Hk a (push_request c st)) as [n1 H1].
    destruct (k a (push_request c st)) as [[b|e] st1]; simpl in *.
    + exists n1. exact H1.
    + destruct (Hh e st1) as [n2 H2]. exists (n2 ++ n1)%list.
      now rewrite H2, H1, app_assoc.
  - destruct (Hh e (push_request c st)) as [n2 H2]. exists n2. exact H2.
Qed.

Lemma history_request c st : history_grows st (push_request c st).
Proof. now exists [c]. Qed.

Lemma history_console e st : history_grows st (push_console e st).
Proof. now exists []. Qed.

Lemma history_saveConfig symbol o : steps history_grows (saveConfig symbol o).
Proof. intros st. exists []. apply silent_saveConfig. Qed.

Lemma history_add_unsupported market :
  steps history_grows (add_unsupported market).
Proof. intros st. exists []. apply silent_add_unsupported. Qed.

Section Reset.

Variable rt : Runtime.
Variable defaultLeverages : value.
Variable mapBinanceMarkets : string -> option table_entry.
Variable usdmClient : list call -> call -> result value.

Local Notation prepare :=
  (prepareDataToPlace rt defaultLeverages mapBinanceMarkets usdmClient).
Local Notation convert := (convertMarketToBinanceMarket mapBinanceMarkets).

(** X15. After the reset of [unsupportedMarkets], a call for a market that
    has a symbol asks the exchange again, whatever had been marked: its
    first request is [getExchangeInfo]. *)
Theorem reset_reopens_market (intent : TradeIntent) (st : State)
    (sym : table_entry) :
  convert (market intent) = Some sym ->
  exists new,
    requests (snd (prepare intent (clear_unsupportedMarkets st)))
    = (new ++ getExchangeInfo :: requests st)%list.
Proof.
  intros Hsym. unfold prepareDataToPlace.
  destruct (decide _) as [Hin|_].
  { simpl in Hin. now apply not_elem_of_empty in Hin. }
  rewrite Hsym. unfold prepare_try.
  change (requests st) with (requests (clear_unsupportedMarkets st)).
  apply (try_await_history usdmClient getExchangeInfo).
  - intros exchangeInfo.
    steps_through history_request history_console;
      first [apply history_add_unsupported | apply history_saveConfig].
  - intros e. unfold prepare_catch.
    steps_through history_request history_console.
    apply history_add_unsupported.
Qed.

(** X16. A symbol whose [filters] are missing or falsy has both minimums
    at 0; one whose [filters] are truthy without being an array makes the
    reading of the minimums throw a [TypeError], which in
    [prepareDataToPlace] marks the market. *)
Theorem minimums_without_filter_list (marketInfo declared : value) :
  getProp marketInfo "filters" = Ok declared ->
  (truthy declared = false -> minimums rt marketInfo = Ok (num 0, num 0)) /\
  (truthy declared = true -> (forall items, declared <> VArr items) ->
   exists msg, minimums rt marketInfo = Raise (TypeError msg)).
Proof.
  intros Hd. unfold minimums, filters_or_empty. rewrite Hd. cbn [rbind].
  split.
  - intros ->. reflexivity.
  - intros -> Hna.
    destruct declared; try discriminate; cbn; eauto.
    now destruct (Hna items).
Qed.

End Reset.

(** ** [getPrecision] and [getBinancePrice] *)

Lemma assoc_key (k : string) (fields : list (string * value)) :
  assoc k fields <> VUndefined -> In k (map fst fields).
Proof.
  induction fields as [|[k' v] fields IH]; simpl.
  - congruence.
  - destruct (String.eqb k k') eqn:E.
    + apply String.eqb_eq in E. auto.
    + auto.
Qed.

(** No more keys of the form [0], [1], ... in a row than there are keys. *)
Lemma counted_keys (fields : list (string * value)) :
  ~ (forall j : nat, (j <= length fields)%nat ->
       In (pretty j) (map fst fields)).
Proof.
  intros H.
  assert (Hsub : (pretty <$> seq 0 (S (length fields))) ⊆+ map fst fields).
  { apply NoDup_submseteq.
    - apply (NoDup_fmap_2 _). apply NoDup_seq.
    - intros x Hx. apply list_elem_of_fmap in Hx as (j & -> & Hj).
      apply elem_of_seq in Hj. apply list_elem_of_In, H. lia. }
  apply submseteq_length in Hsub.
  rewrite length_fmap, length_seq, length_map in Hsub. lia.
Qed.

Section Precision.

Variable rt : Runtime.
Variable usdmClient : list call -> call -> result value.

Local Notation Number := (ToNumber rt).

Lemma precision_loop_None (fuel : nat) (symbols : value) (symbol : string)
    (i : nat) :
  precision_loop rt fuel symbols symbol i = None ->
  forall j, (i <= j < i + fuel)%nat ->
    exists len item name,
      getLength symbols = Ok len /\
      num_lt (num (Z.of_nat j)) (Number len) = true /\
      getIndex symbols j = Ok item /\
      getProp item "symbol" = Ok name.
Proof.
  revert i. induction fuel as [|fuel IH]; intros i H j Hj; [lia|].
  cbn [precision_loop] in H.
  destruct (getLength symbols) as [len|] eqn:Hlen; [|discriminate H].
  destruct (num_lt (num (Z.of_nat i)) (Number len)) eqn:Hlt;
    [|discriminate H].
  destruct (getIndex symbols i) as [item|] eqn:Hitem; [|discriminate H].
  cbn [rbind] in H.
  destruct (getProp item "symbol") as [name|] eqn:Hname; [|discriminate H].
  cbn [rbind] in H.
  destruct (loose_eq_string rt name symbol); [discriminate H|].
  destruct (decide (j = i)) as [->|Hne].
  - exists len, item, name. auto.
  - apply (IH (S i) H). lia.
Qed.

Lemma not_below_itself (n : nat) :
  num_lt (num (Z.of_nat n)) (num (Z.of_nat n)) = false.
Proof.
  simpl. apply Qc_ltb_false. apply Qcle_refl.
Qed.

(** One round more than [scan_rounds] is enough for the loop. *)
Lemma precision_loop_ends (symbols : value) (symbol : string) :
  precision_loop rt (S (scan_rounds symbols)) symbols symbol 0 <> None.
Proof.
  intros H.
  pose proof (precision_loop_None _ _ _ _ H) as Hlive.
  destruct symbols as [| |b|x|s|items|fields]; try discriminate H.
  - destruct (Hlive (String.length s)) as (len & item & name & Hl & Hlt & _);
      [simpl; lia|].
    injection Hl as <-. cbn [ToNumber] in Hlt.
    now rewrite not_below_itself in Hlt.
  - destruct (Hlive (length items)) as (len & item & name & Hl & Hlt & _);
      [simpl; lia|].
    injection Hl as <-. cbn [ToNumber] in Hlt.
    now rewrite not_below_itself in Hlt.
  - apply (counted_keys fields). intros j Hj.
    destruct (Hlive j) as (len & item & name & _ & _ & Hitem & Hname);
      [simpl; lia|].
    injection Hitem as <-. apply assoc_key.
    intros E. rewrite E in Hname. discriminate Hname.
Qed.

Lemma precision_loop_more (fuel fuel' : nat) (symbols : value)
    (symbol : string) (i : nat) (r : result (option value)) :
  precision_loop rt fuel symbols symbol i = Some r ->
  (fuel <= fuel')%nat ->
  precision_loop rt fuel' symbols symbol i = Some r.
Proof.
  revert fuel' i. induction fuel as [|fuel IH]; intros fuel' i H Hle;
    [discriminate|].
  destruct fuel' as [|fuel']; [lia|].
  cbn [precision_loop] in *.
  destruct (getLength symbols); [|exact H].
  destruct (num_lt _ _); [|exact H].
  destruct (let? item := getIndex symbols i in _) as [[item name]|];
    [|exact H].
  destruct (loose_eq_string rt name symbol); [exact H|].
  apply IH; [exact H|lia].
Qed.

(** X17. The loop of [getPrecision] ends on every value of [symbols], an
    array, a string or an object with a [length] of its own, be it
    [Infinity]: after at most one round more than the value has elements it
    has returned, thrown or run out, and further rounds change nothing. *)
Theorem getPrecision_loop_ends (symbols : value) (symbol : string)
    (fuel : nat) :
  (S (scan_rounds symbols) <= fuel)%nat ->
  precision_loop rt fuel symbols symbol 0
  = Some (scan_symbols rt symbols symbol).
Proof.
  intros Hfuel. unfold scan_symbols.
  destruct (precision_loop rt (S (scan_rounds symbols)) symbols symbol 0)
    as [r|] eqn:H.
  - now apply (precision_loop_more _ _ _ _ _ _ H).
  - now apply precision_loop_ends in H.
Qed.

Lemma below_length (i n : nat) :
  (i < n)%nat -> num_lt (num (Z.of_nat i)) (num (Z.of_nat n)) = true.
Proof.
  intros H. simpl. apply Qc_ltb_lt.
  apply (proj1 (Z2Qc_inj_lt (Z.of_nat i) (Z.of_nat n))). lia.
Qed.

(** On an array of well-formed entries the loop is [find]. *)
Lemma precision_loop_find (symbol : string) (rest pre : list value)
    (fuel : nat) :
  well_listed rest -> (length rest < fuel)%nat ->
  precision_loop rt fuel (VArr (pre ++ rest)) symbol (length pre)
  = Some (let? found := find_first (symbol_is (Symbol symbol)) rest in
          if truthy found then
            let? precision := getProp found "quantityPrecision" in
            Ok (Some precision)
          else Ok None).
Proof.
  revert pre fuel. induction rest as [|item rest IH]; intros pre fuel Hw Hf.
  - destruct fuel as [|fuel]; [simpl in Hf; lia|].
    cbn [precision_loop getLength ToNumber].
    rewrite app_nil_r, not_below_itself. reflexivity.
  - destruct fuel as [|fuel]; [simpl in Hf; lia|].
    inversion Hw as [|? ? (fields & name & -> & Hname) Hw']; subst.
    cbn [precision_loop getLength ToNumber getIndex].
    rewrite below_length by (rewrite length_app; simpl; lia).
    rewrite nth_middle.
    cbn [rbind getProp find_first]. unfold symbol_is at 1.
    cbn [rbind getProp]. rewrite Hname.
    cbn [loose_eq_string strict_eq entry_value].
    destruct (String.eqb name symbol).
    + reflexivity.
    + specialize (IH (pre ++ [VObj fields])%list fuel Hw').
      rewrite <- app_assoc, length_app in IH. simpl in IH.
      rewrite Nat.add_1_r in IH. apply IH. simpl in Hf. lia.
Qed.

(** X18. On exchange information whose [symbols] is an array of entries
    that are objects naming their symbol with a string, [getPrecision]
    returns the [quantityPrecision] of the entry that
    [prepareDataToPlace] picks for the symbol, the first of that name, and
    -1 when there is none; it prints nothing. *)
Theorem getPrecision_agrees_with_find (symbol : string) (st : State)
    (exchangeInfo : value) (items : list value) :
  usdmClient (requests st) getExchangeInfo = Ok exchangeInfo ->
  getProp exchangeInfo "symbols" = Ok (VArr items) ->
  well_listed items ->
  exists marketInfo,
    find_marketInfo (Symbol symbol) exchangeInfo = Ok marketInfo /\
    getPrecision rt usdmClient symbol st
    = (Ok (match marketInfo with
           | VObj fields => assoc "quantityPrecision" fields
           | _ => VNum (num (-1))
           end),
       push_request getExchangeInfo st).
Proof.
  intros Hinfo Hsymbols Hw.
  assert (Hscan : scan_symbols rt (VArr items) symbol
                  = let? found := find_first (symbol_is (Symbol symbol)) items in
                    if truthy found then
                      let? precision := getProp found "quantityPrecision" in
                      Ok (Some precision)
                    else Ok None).
  { unfold scan_symbols.
    now rewrite (precision_loop_find symbol items [] _ Hw)
      by (simpl; lia). }
  assert (Hfound : exists found,
            find_first (symbol_is (Symbol symbol)) items = Ok found /\
            (found = VUndefined \/ exists fields, found = VObj fields)).
  { clear Hscan Hsymbols. induction Hw as [|item rest Hitem _ IH]; simpl.
    - eauto.
    - destruct Hitem as (fields & name & -> & Hname).
      unfold symbol_is at 1. cbn [rbind getProp]. rewrite Hname.
      destruct (strict_eq _ _); eauto. }
  destruct Hfound as (found & Hfind & Hshape).
  exists found. split.
  { unfold find_marketInfo. rewrite Hsymbols. exact Hfind. }
  unfold getPrecision, try_catch, bind, await, lift, ret.
  rewrite Hinfo. cbv beta iota. rewrite Hsymbols. cbv beta iota.
  rewrite Hscan, Hfind. cbn [rbind].
  destruct Hshape as [->|[fields ->]]; reflexivity.
Qed.

(** X19. When the request for the exchange information is rejected, or
    resolves with [undefined], [null] or something whose [symbols] is
    [undefined] or [null], [getPrecision] prints the error and returns
    -1. *)
Theorem getPrecision_failure (symbol : string) (st : State) :
  (forall e,
     usdmClient (requests st) getExchangeInfo = Raise e ->
     getPrecision rt usdmClient symbol st
     = (Ok (VNum (num (-1))),
        push_console (Entry Error "" [exn_value e])
          (push_request getExchangeInfo st))) /\
  (forall info,
     usdmClient (requests st) getExchangeInfo = Ok info ->
     info = VUndefined \/ info = VNull \/
     getProp info "symbols" = Ok VUndefined \/
     getProp info "symbols" = Ok VNull ->
     exists msg,
       getPrecision rt usdmClient symbol st
       = (Ok (VNum (num (-1))),
          push_console (Entry Error "" [exn_value (TypeError msg)])
            (push_request getExchangeInfo st))).
Proof.
  split.
  - intros e He.
    unfold getPrecision, try_catch, bind, await, lift, console_error, ret.
    now rewrite He.
  - intros info Hinfo Hbad.
    unfold getPrecision, try_catch, bind, await, lift, console_error, ret.
    rewrite Hinfo. cbv beta iota.
    destruct Hbad as [->|[->|[H|H]]]; try rewrite H; cbn;
      eexists; reflexivity.
Qed.

(** X20. [getBinancePrice] never throws and sends its one request; it
    returns the [markPrice] of the response, and [null] after printing the
    error when the request is rejected or resolves with [undefined] or
    [null]. *)
Theorem getBinancePrice_null_on_failure (symbol : value) (st : State) :
  let c := getMarkPrice (VObj [("isIsolated", VStr "TRUE");
                               ("symbol", symbol)]) in
  exists v st',
    getBinancePrice usdmClient symbol st = (Ok v, st') /\
    requests st' = c :: requests st /\
    match usdmClient (requests st) c with
    | Ok response =>
        match getProp response "markPrice" with
        | Ok markPrice => v = markPrice /\ console st' = console st
        | Raise e =>
            v = VNull /\
            (response = VUndefined \/ response = VNull) /\
            console st'
            = Entry Error "Error getting price from Binance:" [exn_value e]
              :: console st
        end
    | Raise e =>
        v = VNull /\
        console st'
        = Entry Error "Error getting price from Binance:" [exn_value e]
          :: console st
    end.
Proof.
  intros c.
  unfold getBinancePrice, try_catch, bind, await, lift, console_error, ret.
  fold c. destruct (usdmClient (requests st) c) as [response|e].
  - cbv beta iota.
    destruct (getProp response "markPrice") as [markPrice|e] eqn:Hm.
    + eexists. eexists. split; [reflexivity|]. auto.
    + eexists. eexists. split; [reflexivity|].
      repeat split. destruct response; try discriminate Hm; auto.
  - eexists. eexists. split; [reflexivity|]. auto.
Qed.

End Precision.

(** ** The socket over its life *)

Lemma reconnect_bounds (w : World) :
  (0 <= reconnectAttempts (fst w) <= 5 /\
   forall d, In (d, call_connect) (timeouts (snd w)) ->
     exists k, 1 <= k <= 5 /\ d = 1000 * k) ->
  0 <= reconnectAttempts (fst (reconnect w)) <= 5 /\
  forall d, In (d, call_connect) (timeouts (snd (reconnect w))) ->
    exists k, 1 <= k <= 5 /\ d = 1000 * k.
Proof.
  destruct w as [[s p k c] lp]. unfold reconnect.
  cbn [fst snd reconnectAttempts]. intros [Hk Ht].
  unfold WS_MAX_RECONNECT_ATTEMPTS, WS_RECONNECT_DELAY.
  destruct (5 <=? k) eqn:E.
  - split; [exact Hk|]. destruct lp. exact Ht.
  - apply Z.leb_gt in E. destruct lp. cbn. split; [lia|].
    intros d [[= <-]|Hin]; [exists (k + 1); lia|auto].
Qed.

Lemma cleanup_view (w : World) :
  reconnectAttempts (fst (cleanup w)) = reconnectAttempts (fst w) /\
  timeouts (snd (cleanup w)) = timeouts (snd w).
Proof. destruct w as [[s [h|] k c] lp]; destruct lp; auto. Qed.

Lemma setupPing_view (w : World) :
  reconnectAttempts (fst (setupPing w)) = reconnectAttempts (fst w) /\
  timeouts (snd (setupPing w)) = timeouts (snd w).
Proof. destruct w as [[s [h|] k c] lp]; destruct lp; auto. Qed.

Lemma print_view l text args (w : World) :
  fst (print l text args w) = fst w /\
  timeouts (snd (print l text args w)) = timeouts (snd w).
Proof. destruct w as [o lp]; destruct lp; auto. Qed.

(** X21. Whatever the order of calls, events and timers, the counter of an
    object stays between 0 and 5, and every timer set for [connect] waits
    1000, 2000, 3000, 4000 or 5000 ms. *)
Theorem socket_backoff_bounded (w : World) :
  reachable w ->
  0 <= reconnectAttempts (fst w) <= 5 /\
  forall d, In (d, call_connect) (timeouts (snd w)) ->
    exists k, 1 <= k <= 5 /\ d = 1000 * k.
Proof.
  induction 1 as [|c w _ IH|w _ IH|w _ IH|w _ IH|w _ IH|w _ IH|m w _ IH
                  |c cb w _ IH|w cl _ IH].
  - cbn. split; [lia|]. intros d [].
  - unfold connect. destruct (isConnecting (fst w)); [exact IH|].
    destruct c.
    + destruct w as [[s p k b] lp]; destruct lp. cbn in *.
      destruct IH as [Hk Ht]. split; [exact Hk|].
      intros d [[=]|Hin]. auto.
    + apply reconnect_bounds.
      destruct w as [[s p k b] lp]; destruct lp. exact IH.
  - destruct (setupPing_view w) as [-> ->]. exact IH.
  - destruct (cleanup_view w) as [-> ->]. exact IH.
  - now apply reconnect_bounds.
  - unfold on_open.
    destruct (setupPing_view
                (set_reconnectAttempts 0
                   (set_isConnecting false
                      (print Log "Binance WebSocket connected" [] w))))
      as [-> ->].
    destruct w as [[s p k b] lp]; destruct lp. cbn in *.
    split; [lia|apply IH].
  - unfold on_close. apply reconnect_bounds.
    destruct (cleanup_view (print Log "Binance WebSocket closed" [] w))
      as [-> ->].
    destruct (print_view Log "Binance WebSocket closed" [] w) as [-> ->].
    exact IH.
  - unfold on_error. apply reconnect_bounds.
    destruct (cleanup_view (print Error "Binance WebSocket error:" [m] w))
      as [-> ->].
    destruct (print_view Error "Binance WebSocket error:" [m] w) as [-> ->].
    exact IH.
  - destruct cb; cbn [fire]; [|  |exact IH].
    + unfold connect. destruct (isConnecting (fst w)); [exact IH|].
      destruct c.
      * destruct w as [[s p k b] lp]; destruct lp. cbn in *.
        destruct IH as [Hk Ht]. split; [exact Hk|].
        intros d [[=]|Hin]. auto.
      * apply reconnect_bounds.
        destruct w as [[s p k b] lp]; destruct lp. exact IH.
    + destruct (isConnecting (fst w)); [|exact IH].
      destruct w as [[[s|] p k b] lp]; destruct lp; exact IH.
  - unfold close. cbn [fst snd].
    destruct (ws (fst w)); [|exact IH].
    cbn [fst]. destruct (cleanup_view w) as [-> ->]. exact IH.
Qed.

Lemma ping_invariant_ext (w w' : World) :
  pingInterval (fst w') = pingInterval (fst w) ->
  intervals (snd w') = intervals (snd w) ->
  cleared (snd w') = cleared (snd w) ->
  ping_invariant w -> ping_invariant w'.
Proof.
  unfold ping_invariant, live_intervals. now intros -> -> ->.
Qed.

Lemma filter_cleared (h : nat) (cl l : list nat) :
  List.filter (fun x => negb (existsb (Nat.eqb x) (h :: cl))) l
  = List.filter (fun x => negb (x =? h)%nat)
      (List.filter (fun x => negb (existsb (Nat.eqb x) cl)) l).
Proof.
  induction l as [|x l IH]; simpl in *; [reflexivity|].
  destruct (x =? h)%nat eqn:E, (existsb (Nat.eqb x) cl); simpl;
    rewrite ?E; simpl; rewrite ?IH; reflexivity.
Qed.

Lemma fresh_handle (n : nat) (cl : list nat) :
  Forall (fun h => (h < n)%nat) cl -> existsb (Nat.eqb n) cl = false.
Proof.
  induction 1 as [|h cl Hh _ IH]; [reflexivity|].
  cbn [existsb]. rewrite IH, orb_false_r. apply Nat.eqb_neq. lia.
Qed.

Lemma held_handle_bound (w : World) (h : nat) :
  ping_invariant w -> pingInterval (fst w) = Some h ->
  (h < length (intervals (snd w)))%nat.
Proof.
  intros (Hlive & Hb & _) Hp. rewrite Hp in Hlive.
  assert (Hin : In h (live_intervals w)) by (rewrite Hlive; now left).
  unfold live_intervals in Hin. apply filter_In in Hin as [Hin _].
  apply in_map_iff in Hin as (t & <- & Ht).
  rewrite Forall_forall in Hb. apply Hb. now apply list_elem_of_In.
Qed.

Lemma cleanup_ping (w : World) : ping_invariant w -> ping_invariant (cleanup w).
Proof.
  intros Hinv. pose proof Hinv as (Hlive & Hb & Hc).
  destruct w as [[s [h|] k c] [t i cl o tm pr]]; [|exact Hinv].
  pose proof (held_handle_bound _ h Hinv eq_refl) as Hh.
  unfold ping_invariant, live_intervals in *.
  cbn [cleanup fst snd pingInterval clearInterval set_pingInterval
       set_isConnecting intervals cleared ws reconnectAttempts isConnecting
       timeouts opened terminated printed] in *.
  rewrite filter_cleared, Hlive.
  cbn [List.filter]. rewrite Nat.eqb_refl. cbn [negb].
  repeat split; [exact Hb|]. constructor; assumption.
Qed.

Lemma setupPing_ping (w : World) :
  ping_invariant w -> ping_invariant (setupPing w).
Proof.
  intros Hinv. pose proof Hinv as (Hlive & Hb & Hc).
  destruct w as [[s p k c] [t i cl o tm pr]].
  assert (Hfresh : existsb (Nat.eqb (length i)) cl = false)
    by now apply fresh_handle.
  assert (Hb' : Forall (fun t0 : nat * Z * callback =>
                          (fst (fst t0) < S (length i))%nat) i).
  { eapply Forall_impl; [exact Hb|]. cbn. intros; lia. }
  assert (Hc' : Forall (fun h => (h < S (length i))%nat) cl).
  { eapply Forall_impl; [exact Hc|]. cbn. intros; lia. }
  destruct p as [h|].
  - pose proof (held_handle_bound _ h Hinv eq_refl) as Hh.
    unfold ping_invariant, live_intervals in *.
    cbn [setupPing fst snd pingInterval clearInterval setInterval_ping
         intervals cleared ws reconnectAttempts isConnecting
         timeouts opened terminated printed length map] in *.
    assert (Hne : (length i =? h)%nat = false) by (apply Nat.eqb_neq; lia).
    rewrite filter_cleared. cbn [List.filter]. rewrite Hfresh.
    cbn [negb List.filter]. rewrite Hne. cbn [negb]. rewrite Hlive.
    cbn [List.filter]. rewrite Nat.eqb_refl. cbn [negb].
    repeat split.
    + constructor; [cbn; lia|exact Hb'].
    + constructor; [lia|exact Hc'].
  - unfold ping_invariant, live_intervals in *.
    cbn [setupPing fst snd pingInterval clearInterval setInterval_ping
         intervals cleared ws reconnectAttempts isConnecting
         timeouts opened terminated printed length map] in *.
    cbn [List.filter]. rewrite Hfresh. cbn [negb]. rewrite Hlive.
    repeat split.
    + constructor; [cbn; lia|exact Hb'].
    + exact Hc'.
Qed.

Lemma reconnect_ping (w : World) :
  ping_invariant w -> ping_invariant (reconnect w).
Proof.
  apply ping_invariant_ext;
    destruct w as [[s p k c] lp]; destruct lp;
    unfold reconnect; cbn [fst snd reconnectAttempts];
    destruct (_ <=? _); reflexivity.
Qed.

Lemma print_ping l text args (w : World) :
  ping_invariant w -> ping_invariant (print l text args w).
Proof.
  apply ping_invariant_ext; destruct w as [o lp]; destruct lp; reflexivity.
Qed.

Lemma connect_ping constructed (w : World) :
  ping_invariant w -> ping_invariant (connect constructed w).
Proof.
  intros H. unfold connect. destruct (isConnecting (fst w)); [exact H|].
  destruct constructed.
  - revert H. apply ping_invariant_ext;
      destruct w as [[s p k c] lp]; destruct lp; reflexivity.
  - apply reconnect_ping. revert H.
    apply ping_invariant_ext;
      destruct w as [[s p k c] lp]; destruct lp; reflexivity.
Qed.

(** X22. Whatever the order of calls, events and timers, the object never
    leaves a ping running that it does not hold: the intervals that were set
    and not cleared are the one in [pingInterval], or none when it is
    [null]. *)
Theorem socket_ping_not_leaked (w : World) :
  reachable w ->
  live_intervals w
  = match pingInterval (fst w) with
    | Some h => [h]
    | None => []
    end.
Proof.
  intros H.
  assert (Hinv : ping_invariant w); [|apply Hinv].
  induction H as [|c w _ IH|w _ IH|w _ IH|w _ IH|w _ IH|w _ IH|m w _ IH
                  |c cb w _ IH|w cl _ IH].
  - repeat split; constructor.
  - now apply connect_ping.
  - now apply setupPing_ping.
  - now apply cleanup_ping.
  - now apply reconnect_ping.
  - unfold on_open. apply setupPing_ping.
    apply print_ping with (l := Log) (text := "Binance WebSocket connected")
      (args := []) in IH.
    revert IH. apply ping_invariant_ext;
      destruct w as [[s p k b] lp]; destruct lp; reflexivity.
  - unfold on_close. now apply reconnect_ping, cleanup_ping, print_ping.
  - unfold on_error. now apply reconnect_ping, cleanup_ping, print_ping.
  - destruct cb; cbn [fire]; [now apply connect_ping| |exact IH].
    destruct (isConnecting (fst w)); [|exact IH].
    revert IH. apply ping_invariant_ext;
      destruct w as [[[s|] p k b] lp]; destruct lp; reflexivity.
  - unfold close. cbn [fst snd].
    destruct (ws (fst w)); [|exact IH]. now apply cleanup_ping.
Qed.

Lemma failed_connection_retries (w : World) :
  reconnectAttempts (fst w) < 5 ->
  reconnectAttempts (fst (failed_connection w))
  = reconnectAttempts (fst w) + 1 /\
  reconnect_delays (failed_connection w)
  = (reconnect_delays w ++ [1000 * (reconnectAttempts (fst w) + 1)])%list.
Proof.
  destruct w as [[s p k c] [t i cl o tm pr]]. cbn [fst reconnectAttempts].
  intros Hk. apply Z.leb_gt in Hk.
  unfold failed_connection, on_close, reconnect, reconnect_delays.
  destruct p as [h|]; cbn;
    unfold WS_MAX_RECONNECT_ATTEMPTS; rewrite Hk; cbn;
    rewrite Nat.leb_refl; cbn; auto.
Qed.

Lemma on_close_at_limit (w : World) :
  5 <= reconnectAttempts (fst w) ->
  reconnectAttempts (fst (on_close w)) = reconnectAttempts (fst w) /\
  timeouts (snd (on_close w)) = timeouts (snd w).
Proof.
  destruct w as [[s p k c] [t i cl o tm pr]]. cbn [fst reconnectAttempts].
  intros Hk. apply Z.leb_le in Hk.
  unfold on_close, reconnect.
  destruct p as [h|]; cbn; unfold WS_MAX_RECONNECT_ATTEMPTS; rewrite Hk;
    cbn; auto.
Qed.

Lemma failed_connection_gives_up (w : World) :
  5 <= reconnectAttempts (fst w) ->
  reconnectAttempts (fst (failed_connection w)) = reconnectAttempts (fst w) /\
  reconnect_delays (failed_connection w) = reconnect_delays w.
Proof.
  intros Hk. destruct (on_close_at_limit w Hk) as [Hk' Ht].
  unfold failed_connection. cbv zeta. rewrite Ht, Nat.ltb_irrefl.
  split; [exact Hk'|]. unfold reconnect_delays. now rewrite Ht.
Qed.

Lemma on_open_counter (w : World) :
  reconnectAttempts (fst (on_open w)) = 0 /\
  reconnect_delays (on_open w) = reconnect_delays w.
Proof.
  destruct w as [[s [h|] k c] [t i cl o tm pr]]; split; reflexivity.
Qed.

(** X23. Every open gives the object its five retries back: from any
    world, once the socket has opened, connections that fail from then on
    are retried after 1000, 2000, 3000, 4000 and 5000 ms, and not after
    that. *)
Theorem open_restores_retries (w : World) :
  reconnect_delays (failures 6 (on_open w))
  = (reconnect_delays w ++ [1000; 2000; 3000; 4000; 5000])%list /\
  reconnect_delays (failures 7 (on_open w))
  = (reconnect_delays w ++ [1000; 2000; 3000; 4000; 5000])%list.
Proof.
  destruct (on_open_counter w) as [K0 D0].
  set (w0 := on_open w) in *.
  destruct (failed_connection_retries w0) as [K1 D1]; [lia|].
  set (w1 := failed_connection w0) in *.
  destruct (failed_connection_retries w1) as [K2 D2]; [lia|].
  set (w2 := failed_connection w1) in *.
  destruct (failed_connection_retries w2) as [K3 D3]; [lia|].
  set (w3 := failed_connection w2) in *.
  destruct (failed_connection_retries w3) as [K4 D4]; [lia|].
  set (w4 := failed_connection w3) in *.
  destruct (failed_connection_retries w4) as [K5 D5]; [lia|].
  set (w5 := failed_connection w4) in *.
  destruct (failed_connection_gives_up w5) as [K6 D6]; [lia|].
  set (w6 := failed_connection w5) in *.
  destruct (failed_connection_gives_up w6) as [K7 D7]; [lia|].
  assert (D : reconnect_delays w5
              = (reconnect_delays w ++ [1000; 2000; 3000; 4000; 5000])%list).
  { rewrite D5, D4, D3, D2, D1, D0, K4, K3, K2, K1, K0.
    rewrite <- !app_assoc. reflexivity. }
  split.
  - change (reconnect_delays w6
            = (reconnect_delays w ++ [1000; 2000; 3000; 4000; 5000])%list).
    now rewrite D6.
  - change (reconnect_delays (failed_connection w6)
            = (reconnect_delays w ++ [1000; 2000; 3000; 4000; 5000])%list).
    now rewrite D7, D6.
Qed.

(** X24. A [connect] while the object is connecting changes nothing. The
    connection timeout looks at the object when it fires, not when it was
    set: it does nothing when the object is not connecting then, and
    otherwise terminates the socket the object holds then. That socket need
    not be the one the timeout was set for: when the first socket closes
    and [connect] opens a second one, the timeout of the first terminates
    the second. *)
Theorem connection_timeout_acts_on_current_socket (constructed : bool)
    (w : World) :
  (isConnecting (fst w) = true -> connect constructed w = w) /\
  (isConnecting (fst w) = false ->
   fire constructed check_connecting w = w) /\
  (forall s, isConnecting (fst w) = true -> ws (fst w) = Some s ->
     fst (fire constructed check_connecting w) = fst w /\
     terminated (snd (fire constructed check_connecting w))
     = s :: terminated (snd w)) /\
  (isConnecting (fst w) = false ->
   let first := length (opened (snd w)) in
   let w1 := connect true w in
   let w2 := connect true (on_close w1) in
   ws (fst w1) = Some first /\
   In (WS_CONNECTION_TIMEOUT, check_connecting) (timeouts (snd w1)) /\
   ws (fst w2) = Some (S first) /\
   terminated (snd (fire constructed check_connecting w2))
   = S first :: terminated (snd w)).
Proof.
  destruct w as [[s p k c] [t i cl o tm pr]].
  cbn [fst snd isConnecting ws terminated opened].
  split; [|split; [|split]].
  - intros ->. reflexivity.
  - intros ->. reflexivity.
  - intros s' -> ->. split; reflexivity.
  - intros ->. cbv zeta.
    split; [reflexivity|]. split; [now left|].
    unfold on_close, reconnect, cleanup.
    destruct p as [h|]; simpl;
      destruct (WS_MAX_RECONNECT_ATTEMPTS <=? k); split; reflexivity.
Qed.

(** X25. A failure that the socket reports with an error event and then
    with a close event is counted twice: the counter goes up by two and two
    timers are set for [connect], one step of the delay apart. *)
Theorem error_then_close_counts_twice (message : value) (w : World) :
  reconnectAttempts (fst w) + 2 <= 5 ->
  let w' := on_close (on_error message w) in
  reconnectAttempts (fst w') = reconnectAttempts (fst w) + 2 /\
  timeouts (snd w')
  = (1000 * (reconnectAttempts (fst w) + 2), call_connect)
    :: (1000 * (reconnectAttempts (fst w) + 1), call_connect)
    :: timeouts (snd w).
Proof.
  destruct w as [[s p k c] [t i cl o tm pr]]. cbn [fst snd reconnectAttempts
    timeouts].
  intros Hk.
  assert (H1 : (5 <=? k) = false) by (apply Z.leb_gt; lia).
  assert (H2 : (5 <=? k + 1) = false) by (apply Z.leb_gt; lia).
  unfold on_close, on_error, reconnect.
  destruct p as [h|]; cbn; unfold WS_MAX_RECONNECT_ATTEMPTS;
    rewrite H1; cbn; rewrite H2; cbn; unfold WS_RECONNECT_DELAY;
    replace (k + 1 + 1) with (k + 2) by lia; auto.
Qed.

(** X26. A [close()] by the caller clears the ping and closes the socket,
    but does not stop the reconnection: the close event that follows sets a
    timer for [connect] like any other. *)
Theorem close_then_event_reconnects (w : World) (closed : list nat)
    (s : nat) :
  ws (fst w) = Some s ->
  reconnectAttempts (fst w) < 5 ->
  let after := close (w, closed) in
  snd after = s :: closed /\
  pingInterval (fst (fst after)) = None /\
  timeouts (snd (on_close (fst after)))
  = (1000 * (reconnectAttempts (fst w) + 1), call_connect)
    :: timeouts (snd w).
Proof.
  destruct w as [[s' p k c] [t i cl o tm pr]].
  cbn [fst snd ws reconnectAttempts timeouts]. intros -> Hk.
  apply Z.leb_gt in Hk.
  unfold close, on_close, reconnect. cbn [fst snd ws].
  destruct p as [h|]; cbn; unfold WS_MAX_RECONNECT_ATTEMPTS;
    rewrite Hk; cbn; auto.
Qed.

(** ** [saveConfig] *)

Lemma flags_commute (a b : string) (o : gmap string bool) :
  ({[b := true]} ∪ ({[a := true]} ∪ o) : gmap string bool)
  = {[a := true]} ∪ ({[b := true]} ∪ o).
Proof.
  apply map_eq. intros k. rewrite !lookup_union, !lookup_singleton.
  repeat case_decide; destruct (o !! k); reflexivity.
Qed.

Lemma flag_recorded (a b : string) (o : gmap string bool) :
  ({[b := true]} ∪ ({[a := true]} ∪ o) : gmap string bool) !! a = Some true.
Proof.
  rewrite !lookup_union, !lookup_singleton.
  repeat case_decide; try congruence; destruct (o !! a); reflexivity.
Qed.

(** X27. Two corrections recorded for a symbol leave the same memo in
    either order: the entry of the symbol holds both flags beside the flags
    it had, and the entries of the other symbols are as they were. *)
Theorem saveConfig_merges (symbol : table_entry) (a b : string)
    (st : State) :
  let memo x y :=
    savedConfigSymbols
      (snd (saveConfig symbol {[y := true]}
              (snd (saveConfig symbol {[x := true]} st)))) in
  memo a b = memo b a /\
  (exists o, memo a b !! symbol = Some o /\
             o !! a = Some true /\ o !! b = Some true /\
             forall flag old,
               savedConfigSymbols st !! symbol = Some old ->
               flag <> a -> flag <> b -> o !! flag = old !! flag) /\
  (forall other, other <> symbol ->
     memo a b !! other = savedConfigSymbols st !! other).
Proof.
  intros memo. unfold memo, saveConfig, spread.
  destruct (savedConfigSymbols st !! symbol) as [old|] eqn:Hold;
    cbn [snd set_savedConfigSymbols savedConfigSymbols];
    rewrite !lookup_insert_eq;
    cbn [snd set_savedConfigSymbols savedConfigSymbols];
    rewrite !insert_insert_eq.
  - split; [now rewrite flags_commute|]. split.
    + eexists. rewrite lookup_insert_eq. split; [reflexivity|].
      split; [apply flag_recorded|]. split.
      * apply lookup_union_Some_l, lookup_singleton_eq.
      * intros flag old' [= <-] Ha Hb.
        rewrite !lookup_union, !lookup_singleton.
        repeat case_decide; try congruence. now destruct (old !! flag).
    + intros other Hne. now rewrite lookup_insert_ne by congruence.
  - split.
    { f_equal. pose proof (flags_commute a b ∅) as H.
      now rewrite !(right_id_L ∅ (∪)) in H. }
    split.
    + eexists. rewrite lookup_insert_eq. split; [reflexivity|].
      split; [|split].
      * pose proof (flag_recorded a b ∅) as H.
        now rewrite (right_id_L ∅ (∪)) in H.
      * apply lookup_union_Some_l, lookup_singleton_eq.
      * intros flag old' [=].
    + intros other Hne. now rewrite lookup_insert_ne by congruence.
Qed.

(** ** These theorems on a run of the samples *)

Lemma memo_only_grows_witness :
  exists o,
    savedConfigSymbols
      (snd (placeNewOrder sample_runtime failing_exchange (VStr "BUY")
              (VStr "BTCUSDT") (VNum (num 1))
              (snd (prepareDataToPlace sample_runtime sample_leverages
                      sample_markets failing_exchange (sample_intent 2000)
                      prepared_state)))) !! Symbol "BTCUSDT" = Some o /\
    o !! "leverage" = Some true.
Proof.
  apply (memo_only_grows sample_runtime sample_leverages sample_markets
           failing_exchange prepared_state _
           (later_place _ _ _ _ _ _ _ _ _
              (later_prepare _ _ _ _ _ _ _ (later_now _ _ _ _ _)))
           (Symbol "BTCUSDT") "leverage" {["leverage" := true]}).
  - vm_compute. reflexivity.
  - vm_compute. reflexivity.
Defined.

Lemma prepare_unmapped_market_witness :
  exists st',
    prepareDataToPlace sample_runtime sample_leverages sample_markets
      sample_exchange
      {| isLong := true; market := "DOGE-USD"; size := VNum (num 500);
         isClosed := None |} empty_state = (Ok None, st') /\
    "DOGE-USD" ∈ unsupportedMarkets st' /\
    requests st' = [].
Proof.
  destruct (prepare_unmapped_market sample_runtime sample_leverages
              sample_markets sample_exchange
              {| isLong := true; market := "DOGE-USD"; size := VNum (num 500);
                 isClosed := None |} empty_state)
    as (st' & Hrun & Hin & Hreq & _).
  - left. reflexivity.
  - exists st'. auto.
Defined.

Lemma prepare_unlisted_symbol_witness :
  exists st',
    prepareDataToPlace sample_runtime sample_leverages sample_markets
      delisting_exchange (sample_intent 2000) empty_state = (Ok None, st') /\
    unsupportedMarkets st' = {["BTC-USD"]} ∪ ∅ /\
    requests st' = [getExchangeInfo].
Proof.
  edestruct (prepare_unlisted_symbol sample_runtime sample_leverages
               sample_markets delisting_exchange (sample_intent 2000)
               empty_state (Symbol "BTCUSDT"))
    as (st' & Hrun & Hset & Hreq & _).
  - simpl. apply not_elem_of_empty.
  - reflexivity.
  - reflexivity.
  - reflexivity.
  - exists st'. auto.
Defined.

Lemma prepare_corrects_drift_witness :
  requests prepared_state
  = [setLeverage (leverage_params sample_leverages (Symbol "BTCUSDT"));
     getFuturesSymbolConfig (symbol_params (Symbol "BTCUSDT"));
     getMarkPrice (markPrice_params (Symbol "BTCUSDT"));
     getExchangeInfo].
Proof.
  destruct (prepareDataToPlace sample_runtime sample_leverages sample_markets
              sample_exchange (sample_intent 2000) empty_state)
    as [[[d|]|e] st'] eqn:Hrun; try (vm_compute in Hrun; discriminate Hrun).
  assert (Hst : prepared_state = st')
    by (unfold prepared_state; now rewrite Hrun).
  assert (Hd : symbol d = Symbol "BTCUSDT").
  { vm_compute in Hrun. now injection Hrun as <- _. }
  destruct (prepare_corrects_drift sample_runtime sample_leverages
              sample_markets sample_exchange (sample_intent 2000) empty_state
              d st' Hrun)
    as (symbolConfig & first & leverage & marginType & Hconfig & Hfirst
        & Hlev & Hmar & Hreq & _).
  rewrite Hd in *. injection Hconfig as <-.
  injection Hfirst as <-. injection Hlev as <-. injection Hmar as <-.
  rewrite Hst, Hreq. reflexivity.
Defined.

Lemma place_returns_response_witness :
  fst (placeNewOrder sample_runtime sample_exchange (VStr "BUY")
         (VStr "BTCUSDT") (VNum (Fin (qfrac 1 25))) empty_state)
  = Ok (VObj [("orderId", VNum (num 1)); ("status", VStr "NEW");
              ("executedQty", VStr "0"); ("avgPrice", VStr "0")]).
Proof.
  edestruct (place_returns_response sample_runtime sample_exchange
               (VStr "BUY") (VStr "BTCUSDT") (VNum (Fin (qfrac 1 25))))
    as (st' & placed & Hrun & _).
  - split; reflexivity.
  - reflexivity.
  - discriminate.
  - discriminate.
  - rewrite Hrun. reflexivity.
Defined.

Lemma place_rethrows_witness :
  fst (placeNewOrder sample_runtime failing_exchange (VStr "BUY")
         (VStr "BTCUSDT") (VNum (Fin (qfrac 1 25))) empty_state)
  = Raise (Rejection (VObj [("code", VNum (num (-1003)));
                            ("message", VStr "Too many requests")])).
Proof.
  edestruct (place_rethrows sample_runtime failing_exchange
               (VStr "BUY") (VStr "BTCUSDT") (VNum (Fin (qfrac 1 25))))
    as (st' & report & Hrun & _).
  - split; reflexivity.
  - reflexivity.
  - discriminate.
  - discriminate.
  - rewrite Hrun. reflexivity.
Defined.

Lemma place_throws_on_empty_response_witness :
  exists msg st',
    placeNewOrder sample_runtime silent_exchange (VStr "BUY")
      (VStr "BTCUSDT") (VNum (Fin (qfrac 1 25))) empty_state
    = (Raise (TypeError msg), st') /\
    length (requests st') = 1%nat.
Proof.
  edestruct (place_throws_on_empty_response sample_runtime silent_exchange
               (VStr "BUY") (VStr "BTCUSDT") (VNum (Fin (qfrac 1 25))))
    as (msg & st' & Hrun & Hreq).
  - split; reflexivity.
  - reflexivity.
  - left. reflexivity.
  - exists msg, st'. split; [exact Hrun|]. now rewrite Hreq.
Defined.

Lemma prepared_order_is_sent_witness :
  exists d st',
    prepareDataToPlace sample_runtime sample_leverages sample_markets
      sample_exchange (sample_intent 2000) empty_state = (Ok (Some d), st') /\
    length
      (requests
         (snd (placeNewOrder sample_runtime sample_exchange
                 (side_value (side d)) (entry_value (symbol d)) (VNum (quantity d))
                 st')))
    = 5%nat.
Proof.
  destruct (prepareDataToPlace sample_runtime sample_leverages sample_markets
              sample_exchange (sample_intent 2000) empty_state)
    as [[[d|]|e] st'] eqn:Hrun; try (vm_compute in Hrun; discriminate Hrun).
  exists d, st'. split; [reflexivity|].
  rewrite (prepared_order_is_sent sample_runtime sample_leverages
             sample_markets sample_exchange (sample_intent 2000)
             empty_state d st' Hrun st').
  assert (Hst : requests st' = requests prepared_state)
    by (unfold prepared_state; now rewrite Hrun).
  cbn [length]. rewrite Hst. reflexivity.
Defined.

Lemma reset_reopens_market_witness :
  exists new,
    requests
      (snd (prepareDataToPlace sample_runtime sample_leverages sample_markets
              sample_exchange (sample_intent 2000)
              (clear_unsupportedMarkets marked_state)))
    = (new ++ [getExchangeInfo])%list.
Proof.
  apply (reset_reopens_market sample_runtime sample_leverages sample_markets
           sample_exchange (sample_intent 2000) marked_state (Symbol "BTCUSDT")).
  reflexivity.
Defined.

Lemma minimums_without_filter_list_witness :
  minimums sample_runtime (VObj [("symbol", VStr "BTCUSDT")])
  = Ok (num 0, num 0) /\
  exists msg,
    minimums sample_runtime
      (VObj [("symbol", VStr "BTCUSDT"); ("filters", VStr "none")])
    = Raise (TypeError msg).
Proof.
  split.
  - apply (minimums_without_filter_list sample_runtime
             (VObj [("symbol", VStr "BTCUSDT")]) VUndefined); reflexivity.
  - apply (minimums_without_filter_list sample_runtime
             (VObj [("symbol", VStr "BTCUSDT"); ("filters", VStr "none")])
             (VStr "none")); [reflexivity|reflexivity|discriminate].
Defined.

Lemma getPrecision_loop_ends_witness :
  precision_loop sample_runtime 5 endless_symbols "BTCUSDT" 0
  = Some (scan_symbols sample_runtime endless_symbols "BTCUSDT").
Proof.
  apply (getPrecision_loop_ends sample_runtime endless_symbols "BTCUSDT" 5).
  vm_compute. lia.
Defined.

Lemma getPrecision_agrees_with_find_witness :
  getPrecision sample_runtime sample_exchange "BTCUSDT" empty_state
  = (Ok (VNum (num 3)), push_request getExchangeInfo empty_state).
Proof.
  edestruct (getPrecision_agrees_with_find sample_runtime sample_exchange
               "BTCUSDT" empty_state)
    as (marketInfo & Hfind & Hrun).
  - reflexivity.
  - reflexivity.
  - repeat (apply Forall_cons_2; [eexists _, _; split; reflexivity|]).
    apply Forall_nil_2.
  - vm_compute in Hfind. injection Hfind as <-. exact Hrun.
Defined.

Lemma getPrecision_failure_witness :
  fst (getPrecision sample_runtime failing_exchange "BTCUSDT" empty_state)
  = Ok (VNum (num (-1))) /\
  fst (getPrecision sample_runtime silent_exchange "BTCUSDT" empty_state)
  = Ok (VNum (num (-1))).
Proof.
  split.
  - rewrite (proj1 (getPrecision_failure sample_runtime failing_exchange
                      "BTCUSDT" empty_state) _ eq_refl).
    reflexivity.
  - destruct (proj2 (getPrecision_failure sample_runtime silent_exchange
                       "BTCUSDT" empty_state) VUndefined eq_refl
                (or_introl eq_refl)) as (msg & Hrun).
    rewrite Hrun. reflexivity.
Defined.

Lemma socket_backoff_bounded_witness :
  0 <= reconnectAttempts
         (fst (on_close (on_error (VStr "ECONNRESET")
                 (on_close (connect true new_BinanceWebSocket))))) <= 5.
Proof.
  apply (socket_backoff_bounded
           (on_close (on_error (VStr "ECONNRESET")
              (on_close (connect true new_BinanceWebSocket))))).
  apply reach_close, reach_error, reach_close, reach_connect, reach_new.
Defined.

Lemma socket_ping_not_leaked_witness :
  live_intervals (on_open (on_open (connect true new_BinanceWebSocket)))
  = [1%nat].
Proof.
  rewrite (socket_ping_not_leaked
             (on_open (on_open (connect true new_BinanceWebSocket)))).
  - reflexivity.
  - apply reach_open, reach_open, reach_connect, reach_new.
Defined.

Lemma connection_timeout_acts_on_current_socket_witness :
  let w := connect true (on_close (connect true new_BinanceWebSocket)) in
  ws (fst w) = Some 1%nat /\
  terminated (snd (fire true check_connecting w)) = [1%nat].
Proof.
  destruct (proj2 (proj2 (proj2 (connection_timeout_acts_on_current_socket
                                   true new_BinanceWebSocket))) eq_refl)
    as (_ & _ & Hws & Hterminated).
  split; [exact Hws|exact Hterminated].
Defined.

Lemma error_then_close_counts_twice_witness :
  reconnectAttempts
    (fst (on_close (on_error (VStr "ECONNRESET") (socket_after 3)))) = 5 /\
  timeouts (snd (on_close (on_error (VStr "ECONNRESET") (socket_after 3))))
  = [(5000, call_connect); (4000, call_connect)].
Proof.
  apply (error_then_close_counts_twice (VStr "ECONNRESET") (socket_after 3)).
  simpl. lia.
Defined.

Lemma close_then_event_reconnects_witness :
  timeouts (snd (on_close (fst (close (socket_after 2, [])))))
  = [(3000, call_connect)].
Proof.
  apply (close_then_event_reconnects (socket_after 2) [] 0%nat).
  - reflexivity.
  - simpl. lia.
Defined.


(** The market named [constructor]: the table inherits a member of that
    name. *)
Lemma prepare_inherited_member_witness :
  exists st',
    prepareDataToPlace sample_runtime sample_leverages sample_markets
      sample_exchange
      {| isLong := true; market := "constructor"; size := VNum (num 2000);
         isClosed := None |} empty_state = (Ok None, st') /\
    requests st' = [getExchangeInfo].
Proof.
  destruct (prepare_inherited_member sample_runtime sample_leverages
              sample_markets sample_exchange
              {| isLong := true; market := "constructor";
                 size := VNum (num 2000); isClosed := None |}
              empty_state "constructor")
    as (st' & Hrun & _ & Hreq & _).
  - simpl. apply not_elem_of_empty.
  - reflexivity.
  - exists st'. split; [exact Hrun|exact Hreq].
Defined.


(** 51 at a price of 100 to 2 decimals: the size is the double nearest to
    10.19, within one unit of the second decimal below 10.2. *)
Lemma calculateSize_accuracy_witness :
  exists r : Qc,
    fst (calculateSizeInMarketToken sample_runtime sample_leverages
           (VNum (num 51)) (VNum (num 100)) (VNum (num 2))) = Fin r /\
    (qz 51 * qz 20 / qz 100 * (1 - pow2 (-50)) - / pow10 2 < r /\
     r <= qz 51 * qz 20 / qz 100 * (1 + pow2 (-50)))%Q.
Proof.
  destruct (fst (calculateSizeInMarketToken sample_runtime sample_leverages
                   (VNum (num 51)) (VNum (num 100)) (VNum (num 2))))
    as [| | |r] eqn:Hr; try (vm_compute in Hr; discriminate Hr).
  exists r. split; [reflexivity|].
  apply (calculateSize_accuracy sample_runtime sample_leverages
           (VNum (num 51)) (VNum (num 100)) (VNum (num 2))
           (qz 51) (qz 100) (qz 20) r 2);
    first [ reflexivity | lia | exact Hr | apply Qc_leb_le; reflexivity
          | apply Qc_ltb_lt; reflexivity | vm_compute; discriminate ].
Defined.

(** 2000 of notional at 50000 with leverage 20: 0.04, worth 2000. *)
Lemma prepared_notional_near_size_witness :
  exists d st' q,
    prepareDataToPlace sample_runtime sample_leverages sample_markets
      sample_exchange (sample_intent 2000) empty_state = (Ok (Some d), st') /\
    quantity d = Fin q /\
    (0 < q /\ q * qz 50000 <= qz 2000 * (1 + pow2 (-49)))%Q.
Proof.
  destruct (prepareDataToPlace sample_runtime sample_leverages sample_markets
              sample_exchange (sample_intent 2000) empty_state)
    as [[[d|]|e] st'] eqn:Hrun; try (vm_compute in Hrun; discriminate Hrun).
  destruct (quantity d) as [| | |q] eqn:Hq;
    try (vm_compute in Hrun; injection Hrun as <- _; discriminate Hq).
  destruct (prepared_notional_near_size sample_runtime sample_leverages
              sample_markets sample_exchange (sample_intent 2000) empty_state
              d st' (qz 2000) (qz 20) q Hrun eq_refl eq_refl)
    as (exchangeInfo & marketInfo & priceInfo & binancePrice & precision
        & Hinfo & Hfind & Hprecision & Hprice & Hmark & Hworth).
  - apply Qc_leb_le. reflexivity.
  - exact Hq.
  - assert (Hd : symbol d = Symbol "BTCUSDT").
    { vm_compute in Hrun. now injection Hrun as <- _. }
    rewrite Hd in *.
    injection Hinfo as <-. injection Hprice as <-. injection Hmark as <-.
    vm_compute in Hfind. injection Hfind as <-.
    injection Hprecision as <-.
    exists d, st', q. split; [reflexivity|]. split; [exact Hq|].
    apply (Hworth 3 (qz 50000)).
    + reflexivity.
    + lia.
    + same_number.
    + vm_compute. discriminate.
Defined.
